(** * PIAA [Observation]: a shallow embedding of [piaa/observation.py]

    The development follows the class [Observation]: stamp geometry
    ([get_source_slice], [_adjust_stamp_midpoint], [_pad_super_pixel]),
    the catalogue filter ([lookup_point_sources]), stamp materialisation
    ([create_stamps], [get_frame_stamp]), the per-stamp background cache
    ([subtract_frame_background]), the variance grid
    ([get_variance_for_target]), the data cube ([data_cube]) and the
    frame-level background ([subtract_background]).

    Numbers.  Pixel values, positions and statistics are IEEE floats in the
    program.  They are embedded as exact rationals ([Qc]), and the
    properties stated over them are those that do not turn on rounding.
    Where the program can leave the finite range (a division by a zero flux
    sum) the embedding uses [num], whose [NaN] stands for any non-finite
    float.  Two computations are embedded with the arithmetic the program
    does: [_pad_super_pixel], with the float64 division and the int64
    absolute value, and the bias subtraction of [data_cube], which on an
    integer frame stays in the frame's integer type and wraps around.

    Arrays.  A numpy masked array made from an array is a view of it; where
    the program writes through such views ([subtract_frame_background]) the
    embedding threads the one shared buffer through the writes. *)

From Stdlib Require Import QArith Qcanon Qround Qabs ZArith Lia List.
From stdpp Require Import base numbers option list gmap strings sorting.

Local Open Scope Z_scope.

(** ** Exceptions and results

    The exceptions the embedded code can meet; all of them derive from
    Python's [Exception]. *)

Inductive exn :=
| KeyError | ValueError | IndexError | TypeError | AttributeError
| NoOverlapError | MaskError | ZeroDivisionError.

Global Instance exn_eq_dec : EqDecision exn.
Proof. solve_decision. Defined.

Inductive result (A : Type) :=
| Ok (a : A)
| Raise (e : exn).
Global Arguments Ok {A} a.
Global Arguments Raise {A} e.

Definition of_option {A} (e : exn) (o : option A) : result A :=
  match o with Some a => Ok a | None => Raise e end.

(** ** [_pad_super_pixel]

    [int(np.ceil(np.abs(num) / 8)) * 8].  The program calls it on float64
    drifts; called on an integer, numpy takes the absolute value in int64 and
    converts it to float64 for the division.  Both are embedded, with the
    rounding each step does: this arithmetic is the subject of the properties
    below. *)

Module Pad.

(** Rounding to the nearest integer, ties to the even one. *)
Definition round_half_even (t : Q) : Z :=
  let f := Qfloor t in
  match (t - inject_Z f ?= 1 # 2)%Q with
  | Lt => f
  | Gt => f + 1
  | Eq => if Z.even f then f else f + 1
  end.

(** The spacing of the smallest float64 values is [2 ^ -1074]. *)
Definition denorm : Z := 2 ^ 1074.

(** [a / 8] for a float64 [a]: dividing by a power of two is exact, except
    that a quotient which is no multiple of [2 ^ -1074] is rounded to one,
    ties to even. *)
Definition div8 (a : Q) : Q :=
  inject_Z (round_half_even (a / inject_Z 8 * inject_Z denorm)) / inject_Z denorm.

(** [int(np.ceil(a / 8)) * 8]: the ceiling of a float64 is a float64, and
    [int] of it is exact. *)
Definition pad_float (a : Q) : Z := Qceiling (div8 a) * 8.

(** On a float64 [num], given by its value. *)
Definition _pad_super_pixel (num : Qc) : Z := pad_float (Qabs (this num)).

(** [np.abs] on an int64: the most negative value has no positive
    counterpart and comes back as it is. *)
Definition abs_int64 (z : Z) : Z := if decide (z = - 2 ^ 63) then z else Z.abs z.

(** The float64 an int64 is converted to: itself up to [2 ^ 53], beyond
    that the nearest multiple of the spacing at its size, ties to even. *)
Definition to_float64 (n : Z) : Z :=
  if decide (Z.abs n ≤ 2 ^ 53) then n
  else let sh := Z.log2 (Z.abs n) - 52 in
       Z.sgn n * (round_half_even (inject_Z (Z.abs n) / inject_Z (2 ^ sh)) * 2 ^ sh).

(** On an int64 [z]. *)
Definition _pad_super_pixel_int64 (z : Z) : Z :=
  pad_float (inject_Z (to_float64 (abs_int64 z))).

(** The cutout size handed to [Cutout2D] in [get_source_slice]:
    [(self._pad_super_pixel(height) + 8, self._pad_super_pixel(width) + 4)],
    rows first. *)
Definition cutout_size (width height : Qc) : Z * Z :=
  (_pad_super_pixel height + 8, _pad_super_pixel width + 4).

Definition is_multiple_of_8 (z : Z) : bool := z mod 8 =? 0.

(** A float64 whose eighth is a float64 too: a multiple of [2 ^ -1071], as
    is every float64 of magnitude [2 ^ -1019] or more. *)
Definition eighth_is_exact (num : Qc) : Prop := (Z.pos (Qden (this num)) | 2 ^ 1071).

End Pad.

(** ** A state-and-exception monad

    A Python method mutates [self] and either returns or raises; what it
    wrote before raising stays written. *)

Definition M (S A : Type) : Type := S → S * result A.

Definition ret {S A} (a : A) : M S A := λ s, (s, Ok a).
Definition raise {S A} (e : exn) : M S A := λ s, (s, Raise e).
Definition bind {S A B} (m : M S A) (k : A → M S B) : M S B :=
  λ s, match m s with
       | (s', Ok a) => k a s'
       | (s', Raise e) => (s', Raise e)
       end.
Definition gets {S A} (f : S → A) : M S A := λ s, (s, Ok (f s)).
Definition modify {S} (f : S → S) : M S unit := λ s, (f s, Ok tt).
Definition lift {S A} (r : result A) : M S A := λ s, (s, r).
(** [try: m except <handles>: h] *)
Definition try_except {S A} (m : M S A) (handles : exn → bool) (h : exn → M S A) : M S A :=
  λ s, match m s with
       | (s', Ok a) => (s', Ok a)
       | (s', Raise e) => if handles e then h e s' else (s', Raise e)
       end.

Notation "'do' x <- m ; k" := (bind m (λ x, k))
  (at level 10, x name, m at level 100, k at level 200,
   format "'[v' 'do'  x  <-  m ; '/' k ']'").
Notation "'do_' m ; k" := (bind m (λ _, k))
  (at level 10, m at level 100, k at level 200,
   format "'[v' 'do_'  m ; '/' k ']'").

(** [for x in xs: body x] *)
Fixpoint for_each {S A} (xs : list A) (body : A → M S unit) : M S unit :=
  match xs with
  | [] => ret tt
  | x :: rest => do_ body x; for_each rest body
  end.

(** ** Numbers that may leave the finite range *)

Inductive num :=
| Fin (q : Qc)
| NaN.

Global Instance num_eq_dec : EqDecision num.
Proof. solve_decision. Defined.

Definition nzero : num := Fin 0%Qc.

(** [x == 0.]: false for every non-finite value. *)
Definition is_zero (x : num) : bool :=
  match x with Fin q => bool_decide (q = 0%Qc) | NaN => false end.

Definition nadd (x y : num) : num :=
  match x, y with Fin a, Fin b => Fin (a + b)%Qc | _, _ => NaN end.
Definition nsub (x y : num) : num :=
  match x, y with Fin a, Fin b => Fin (a - b)%Qc | _, _ => NaN end.
Definition nmul (x y : num) : num :=
  match x, y with Fin a, Fin b => Fin (a * b)%Qc | _, _ => NaN end.
(** A finite value divided by a finite one; dividing by zero gives [nan] or
    an infinity. *)
Definition ndiv (x s : Qc) : num :=
  if decide (s = 0%Qc) then NaN else Fin (x / s)%Qc.

Definition nneg (x : num) : num :=
  match x with Fin a => Fin (- a)%Qc | NaN => NaN end.

(** ** Arrays *)

(** A stamp cube [frame, row, col] as stored under [subtracted/<index>]. *)
Abbreviation cube := (list (list (list Qc))).
Abbreviation ncube := (list (list (list num))).
Abbreviation image := (list (list Qc)).

Definition sum_Qc (l : list Qc) : Qc := foldr Qcplus 0%Qc l.
(** [arr.sum()] over every axis *)
Definition cube_sum (c : cube) : Qc := sum_Qc (map (λ f, sum_Qc (map sum_Qc f)) c).
Definition sum_num (l : list num) : num := foldr nadd nzero l.
Definition ncube_sum (c : ncube) : num := sum_num (map (λ f, sum_num (map sum_num f)) c).

Fixpoint sequence {A} (l : list (result A)) : result (list A) :=
  match l with
  | [] => Ok []
  | r :: rest =>
      match r with
      | Raise e => Raise e
      | Ok a => match sequence rest with
                | Ok l' => Ok (a :: l')
                | Raise e => Raise e
                end
      end
  end.

Definition rmap {A B} (h : A → B) (r : result A) : result B :=
  match r with Ok a => Ok (h a) | Raise e => Raise e end.

(** numpy broadcasting along one axis: equal lengths pair up, an axis of
    length 1 is stretched, anything else is a [ValueError]. *)
Definition broadcast {A B C} (f : A → B → result C) (xs : list A) (ys : list B)
  : result (list C) :=
  if decide (length xs = length ys) then sequence (zip_with f xs ys)
  else match xs, ys with
       | [x], _ => sequence (map (f x) ys)
       | _, [y] => sequence (map (λ x, f x y) xs)
       | _, _ => Raise ValueError
       end.

(** ** The persisted store [self._hdf5_subtracted] *)

Abbreviation grid := (list (list num)).

Record hdf5 := Hdf5 {
  subtracted : gmap nat cube;      (* 'subtracted/<source_index>' *)
  vgrid : option grid;             (* 'vgrid' *)
  attrs : gmap string Z            (* .attrs *)
}.

Definition set_vgrid (g : grid) (h : hdf5) : hdf5 :=
  Hdf5 (subtracted h) (Some g) (attrs h).
Definition set_subtracted (k : nat) (c : cube) (h : hdf5) : hdf5 :=
  Hdf5 (<[k := c]> (subtracted h)) (vgrid h) (attrs h).
Definition set_attr (k : string) (v : Z) (h : hdf5) : hdf5 :=
  Hdf5 (subtracted h) (vgrid h) (<[k := v]> (attrs h)).

(** ** [get_variance_for_target] *)

Module Variance.

(** [create_dataset('vgrid', (n, n))]: zero filled *)
Definition zeros (n : nat) : grid := replicate n (replicate n nzero).

(** [vgrid_dset[i, j]] *)
Definition cell (g : grid) (i j : nat) : option num := g !! i ≫= λ row, row !! j.
(** [vgrid_dset[i, j] = v] *)
Definition write (g : grid) (i j : nat) (v : num) : grid := alter (<[j := v]>) i g.

(** An index outside the dataset raises (which exception depends on the
    h5py version; the reads sit outside the [try]). *)
Definition read (i j : nat) : M grid num :=
  do g <- gets id; lift (of_option IndexError (cell g i j)).

(** [stamp / stamp.sum()] *)
Definition normalize (c : cube) : ncube :=
  let s := cube_sum c in map (map (map (λ x, ndiv x s))) c.

(** [stamp0 - stamp1] *)
Definition cube_sub (a b : ncube) : result ncube :=
  broadcast (broadcast (broadcast (λ x y, Ok (nsub x y)))) a b.

(** [((stamp0 - stamp1) ** 2).sum()] *)
Definition sq_diff_sum (a b : ncube) : result num :=
  match cube_sub a b with
  | Ok d => Ok (ncube_sum (map (map (map (λ x, nmul x x))) d))
  | Raise e => Raise e
  end.

(** The body of [for source_index in iterator].  The [except ValueError]
    branch only logs at debug level. *)
Definition compare_with (ds : gmap nat cube) (target_index : nat) (stamp0 : ncube)
    (source_index : nat) : M grid unit :=
  do a <- read target_index source_index;
  (* [and] evaluates its right operand only when the left one holds *)
  do both_zero <- (if is_zero a
                   then do b <- read source_index target_index; ret (is_zero b)
                   else ret false);
  if both_zero : bool then
    do c1 <- lift (of_option KeyError (ds !! source_index));
    let stamp1 := normalize c1 in
    try_except
      (do v <- lift (sq_diff_sum stamp0 stamp1);
       modify (λ g, write g target_index source_index v))
      (λ e, bool_decide (e = ValueError))
      (λ _, ret tt)
  else ret tt.

Definition fill_row (ds : gmap nat cube) (target_index : nat) (stamp0 : ncube)
    (num_sources : nat) : M grid unit :=
  for_each (seq 0 num_sources) (compare_with ds target_index stamp0).

(** The grid the method works on: the stored one, or a fresh one. *)
Definition the_grid (num_sources : nat) (h : hdf5) : grid :=
  default (zeros num_sources) (vgrid h).

(** [get_variance_for_target]; [num_sources] is [len(self.point_sources)].
    The parameters [force_new] and [show_progress] do not reach the grid. *)
Definition get_variance_for_target (num_sources target_index : nat) : M hdf5 unit :=
  λ h,
    let g := the_grid num_sources h in
    match subtracted h !! target_index with
    | None => (set_vgrid g h, Raise KeyError)
    | Some c0 =>
        let stamp0 := normalize c0 in
        let '(g', r) := fill_row (subtracted h) target_index stamp0 num_sources g in
        (set_vgrid g' h, r)
    end.

(** The state left by a series of calls, whatever each of them raised. *)
Definition calls (num_sources : nat) (targets : list nat) (h : hdf5) : hdf5 :=
  foldl (λ h t, fst (get_variance_for_target num_sources t h)) h targets.

(** A full pass: [for target in range(num_sources)], stopping at the first
    exception that escapes. *)
Definition full_pass (num_sources : nat) : M hdf5 unit :=
  for_each (seq 0 num_sources) (get_variance_for_target num_sources).

(** A store in which only stamp cubes have been persisted so far. *)
Definition fresh (ds : gmap nat cube) : hdf5 := Hdf5 ds None ∅.

Definition symmetric_on (num_sources : nat) (g : grid) : Prop :=
  ∀ i j, (i < num_sources)%nat → (j < num_sources)%nat → cell g i j = cell g j i.

(** Two sources whose normalized cubes differ. *)
Definition two_sources : gmap nat cube :=
  <[0%nat := [[[Qc_of_Z 1; Qc_of_Z 1]]]]> (<[1%nat := [[[Qc_of_Z 1; Qc_of_Z 3]]]]> ∅).

(** The value the method computes for a pair of sources, [0.] where it
    computes none (a missing cube or incompatible shapes). *)
Definition pair_value (ds : gmap nat cube) (i j : nat) : num :=
  match ds !! i, ds !! j with
  | Some a, Some b =>
      match sq_diff_sum (normalize a) (normalize b) with
      | Ok v => v
      | Raise _ => nzero
      end
  | _, _ => nzero
  end.

(** Rows below [k] filled from the diagonal rightwards, everything else
    still zero. *)
Definition filled_upto (n : nat) (ds : gmap nat cube) (k : nat) (g : grid) : Prop :=
  ∀ i j, (i < n)%nat → (j < n)%nat →
    cell g i j = Some (if decide (i < k ∧ i ≤ j)%nat then pair_value ds i j else nzero).

Definition upper_triangular (n : nat) (ds : gmap nat cube) (g : grid) : Prop :=
  ∀ i j, (i < n)%nat → (j < n)%nat →
    cell g i j = Some (if decide (i ≤ j)%nat then pair_value ds i j else nzero).

Definition zero_cell (g : grid) (i j : nat) : bool :=
  match cell g i j with Some a => is_zero a | None => false end.

(** A square [num_sources × num_sources] dataset. *)
Definition wf (n : nat) (g : grid) : Prop :=
  length g = n ∧ ∀ i row, g !! i = Some row → length row = n.

Definition zero_at (g : grid) (i j : nat) : Prop :=
  ∃ a, cell g i j = Some a ∧ is_zero a = true.

(** What a run may change, relative to the grid [g0] it started from:
    only cells of the target's row, and only where both directions were
    zero in [g0]. *)
Definition touched_only_zero (g0 : grid) (t : nat) (g : grid) : Prop :=
  ∀ i j, cell g i j ≠ cell g0 i j → i = t ∧ zero_at g0 t j ∧ zero_at g0 j t.

End Variance.

(** ** Stamp geometry and stamp cubes *)

Module Stamps.

(** [slice(start, stop)] *)
Abbreviation slice := (nat * nat)%type.

(** What is kept of an astropy [Cutout2D]: [bbox_original] is
    [((ymin, ymax), (xmin, xmax))], clipped to the image; [shape] is the
    shape of the cutout. *)
Record Cutout := MkCutout {
  bbox_original : (nat * nat) * (nat * nat);
  shape : nat * nat
}.

(** [Stamp = namedtuple('Stamp', ['row_slice', 'col_slice', 'mid_point', 'cutout'])] *)
Record Stamp := MkStamp {
  row_slice : slice;
  col_slice : slice;
  mid_point : Qc * Qc;
  cutout : Cutout
}.

(** The part of [self] the stamp methods use.  [pixel_locations] is indexed
    [frame, source] and holds [(x, y)]; [warnings] collects the arguments of
    each [logger.warning]. *)
Record Observation := MkObservation {
  files : list string;
  pixel_locations : list (list (Qc * Qc));
  data_cube : cube;
  _stamps_cache : gmap nat Stamp;
  stamp_size : option (nat * nat);
  _hdf5_subtracted : hdf5;
  warnings : list (nat * exn)
}.

Definition set_stamps_cache (f : gmap nat Stamp → gmap nat Stamp) (o : Observation) :=
  MkObservation (files o) (pixel_locations o) (data_cube o) (f (_stamps_cache o))
    (stamp_size o) (_hdf5_subtracted o) (warnings o).
Definition set_stamp_size (sz : nat * nat) (o : Observation) :=
  MkObservation (files o) (pixel_locations o) (data_cube o) (_stamps_cache o)
    (Some sz) (_hdf5_subtracted o) (warnings o).
Definition set_hdf5_subtracted (f : hdf5 → hdf5) (o : Observation) :=
  MkObservation (files o) (pixel_locations o) (data_cube o) (_stamps_cache o)
    (stamp_size o) (f (_hdf5_subtracted o)) (warnings o).
Definition log_warning (source_index : nat) (e : exn) (o : Observation) :=
  MkObservation (files o) (pixel_locations o) (data_cube o) (_stamps_cache o)
    (stamp_size o) (_hdf5_subtracted o) (warnings o ++ [(source_index, e)]).

(** [l[start:stop]] *)
Definition slice_list {A} (sl : slice) (l : list A) : list A :=
  take (snd sl - fst sl) (drop (fst sl) l).
(** [frame[row_slice, col_slice]] *)
Definition cut (rows cols : slice) (frame : image) : image :=
  map (slice_list cols) (slice_list rows frame).

(** [int(x)] for a float: truncation towards zero *)
Definition truncate (x : Qc) : Z := let (n, d) := this x in Z.quot n (Z.pos d).
(** [arr.astype(int)] *)
Definition astype_int (a : image) : image := map (map (λ x, Qc_of_Z (truncate x))) a.

Fixpoint chunks {A} (rows cols : nat) (l : list A) : list (list A) :=
  match rows with
  | O => []
  | S r => take cols l :: chunks r cols (drop cols l)
  end.
(** [arr.reshape(num_rows, num_cols)], for the non-negative dimensions
    [create_stamps] records *)
Definition reshape (num_rows num_cols : Z) (a : image) : result image :=
  let flat := concat a in
  if decide (0 ≤ num_rows ∧ 0 ≤ num_cols ∧ Z.of_nat (length flat) = num_rows * num_cols)
  then Ok (chunks (Z.to_nat num_rows) (Z.to_nat num_cols) flat)
  else Raise ValueError.

(** Binding the arguments of a call to a method whose parameters (after
    [self]) are [params], all of them with defaults and none of them starred:
    too many positional arguments, or a keyword that names no remaining
    parameter, is a [TypeError]. *)
Definition bind_arguments (params : list string) (positional : nat)
    (keywords : list string) : result unit :=
  if decide ((positional ≤ length params)%nat ∧
             Forall (λ k, k ∈ drop positional params) keywords)
  then Ok tt else Raise TypeError.

(** [def subtract_background(self, frames=None)] *)
Definition subtract_background_params : list string := ["frames"%string].

Section Collaborators.

(** [utils.pixel_color(x, y)]: the Bayer colour of a pixel, one of ['R'],
    ['G1'], ['G2'], ['B'].  Its module is not part of the sources at hand. *)
Variable pixel_color : Qc → Qc → string.

(** astropy's [Cutout2D(fits.getdata(self.files[0]), position, size)], with
    [position = (x, y)] and [size = (ny, nx)].  It raises when the cutout
    does not overlap the image. *)
Variable Cutout2D : Qc * Qc → Z * Z → result Cutout.

(** [self.pixel_locations.iloc[frame, idx]] *)
Definition loc (o : Observation) (frame idx : nat) : option (Qc * Qc) :=
  pixel_locations o !! frame ≫= λ row, row !! idx.
Definition iloc (frame idx : nat) : M Observation (Qc * Qc) :=
  do o <- gets id; lift (of_option IndexError (loc o frame idx)).

Definition _get_stamp_points (idx : nat) : M Observation ((Qc * Qc) * (Qc * Qc) * (Qc * Qc)) :=
  do o <- gets id;
  do start_pos <- iloc 0 idx;
  do mid_pos <- iloc (length (files o) / 2) idx;
  (* [iloc[-1, idx]] *)
  do end_pos <- (match length (pixel_locations o) with
                 | O => raise IndexError
                 | S last => iloc last idx
                 end);
  ret (start_pos, mid_pos, end_pos).

(** The midpoint pixel should always end up as Blue to accommodate slicing. *)
Definition _adjust_stamp_midpoint (mid_pos : Qc * Qc) : Qc * Qc :=
  let color := pixel_color (fst mid_pos) (snd mid_pos) in
  let x := fst mid_pos in
  let y := snd mid_pos in
  let '(x, y) :=
    if decide (color = "G2"%string) then ((x - 1)%Qc, y)
    else if decide (color = "G1"%string) then (x, (y - 1)%Qc)
    else if decide (color = "B"%string) then ((x - 1)%Qc, y)
    else if decide (color = "R"%string) then ((x + 1)%Qc, (y + 1)%Qc)
    else (x, y) in
  let y := (y + Qc_of_Z 4)%Qc in
  let x := (x - Qc_of_Z 2)%Qc in
  (x, y).

(** The [except KeyError] branch of [get_source_slice]. *)
Definition new_source_slice (source_index : nat) (cache : bool) : M Observation Stamp :=
  do points <- _get_stamp_points source_index;
  let '(start_pos, mid_pos, end_pos) := points in
  let mid_pos := _adjust_stamp_midpoint mid_pos in
  (* Get the width and height of data region *)
  let width := (fst start_pos - fst end_pos)%Qc in
  let height := (snd start_pos - snd end_pos)%Qc in
  do o <- gets id;
  do_ lift (of_option IndexError (head (files o)));
  do cutout <- lift (Cutout2D mid_pos (Pad.cutout_size width height));
  let '(xs, ys) := bbox_original cutout in
  (* Shared across all stamps *)
  do_ modify (set_stamp_size (shape cutout));
  let stamp := MkStamp (fst xs, snd xs + 1)%nat (fst ys, snd ys + 1)%nat mid_pos cutout in
  do_ (if cache : bool
       then modify (set_stamps_cache (insert source_index stamp))
       else ret tt);
  ret stamp.

Definition get_source_slice (source_index : nat) (force_new cache : bool)
  : M Observation Stamp :=
  try_except
    (do_ (if force_new : bool
          then (do o <- gets id;
                do_ lift (of_option KeyError (_stamps_cache o !! source_index));
                modify (set_stamps_cache (delete source_index)))
          else ret tt);
     do o <- gets id;
     lift (of_option KeyError (_stamps_cache o !! source_index)))
    (λ e, bool_decide (e = KeyError))
    (λ _, new_source_slice source_index cache).

(** [get_frame_stamp]; [force_new] and [cache] are what [*args, **kwargs]
    hand on to [get_source_slice]. *)
Definition get_frame_stamp (source_index frame_index : nat)
    (subtract_background get_subtracted reshape_ force_new cache : bool)
  : M Observation image :=
  try_except
    (do o <- gets id;
     do dset <- lift (of_option KeyError
                        (subtracted (_hdf5_subtracted o) !! source_index));
     do stamp <- lift (of_option IndexError (dset !! frame_index));
     if reshape_ then
       do num_rows <- lift (of_option KeyError
                              (attrs (_hdf5_subtracted o) !! "stamp_rows"%string));
       do num_cols <- lift (of_option KeyError
                              (attrs (_hdf5_subtracted o) !! "stamp_cols"%string));
       do stamp <- lift (reshape num_rows num_cols stamp);
       ret (astype_int stamp)
     else ret stamp)
    (λ e, bool_decide (e = KeyError))
    (λ _,
       do stamp_slice <- get_source_slice source_index force_new cache;
       do o <- gets id;
       do frame <- lift (of_option IndexError (data_cube o !! frame_index));
       let stamp := cut (row_slice stamp_slice) (col_slice stamp_slice) frame in
       if subtract_background then
         (* [self.subtract_background(stamp, frame_index, mid_point=...)] *)
         do_ lift (bind_arguments subtract_background_params 2 ["mid_point"%string]);
         (* [subtract_background] has no [return]: [None.astype] *)
         raise AttributeError
       else ret stamp).

(** The [try] block of [create_stamps] for one source. *)
Definition materialize (source_index : nat) : M Observation Stamp :=
  do ss <- get_source_slice source_index false true;
  do o <- gets id;
  let stamps := map (cut (row_slice ss) (col_slice ss)) (data_cube o) in
  (* Store *)
  do_ modify (set_hdf5_subtracted (set_subtracted source_index stamps));
  ret ss.

(** One iteration of the loop of [create_stamps]; [ss] is the local
    variable of that name, unbound until a [try] block first gets to
    assign it. *)
Definition create_stamp (ss : option Stamp) (source_index : nat)
  : M Observation (option Stamp) :=
  do o <- gets id;
  if decide (source_index ∈ dom (subtracted (_hdf5_subtracted o))) then ret ss
  else
    try_except
      (do ss' <- materialize source_index; ret (Some ss'))
      (λ _, true)                                  (* [except Exception] *)
      (λ e, do_ modify (log_warning source_index e); ret ss).

Fixpoint create_stamps_loop (ss : option Stamp) (index : list nat)
  : M Observation (option Stamp) :=
  match index with
  | [] => ret ss
  | source_index :: rest =>
      do ss' <- create_stamp ss source_index;
      create_stamps_loop ss' rest
  end.

(** [create_stamps]; the index of [point_sources] is [0 .. num_sources - 1]. *)
Definition create_stamps (num_sources : nat) : M Observation unit :=
  do ss <- create_stamps_loop None (seq 0 num_sources);
  (* Store stamp size; [except UnboundLocalError: pass] *)
  match ss with
  | Some ss =>
      do_ modify (set_hdf5_subtracted
                    (set_attr "stamp_rows" (Z.of_nat (fst (shape (cutout ss))))));
      modify (set_hdf5_subtracted
                (set_attr "stamp_cols" (Z.of_nat (snd (shape (cutout ss))))))
  | None => ret tt
  end.

(** The geometry [get_source_slice] computes for a source that is not
    cached, or the exception it raises. *)
Definition geometry (o : Observation) (source_index : nat) : result Stamp :=
  snd (new_source_slice source_index false o).

(** The positions [_get_stamp_points] reads, when all three are there. *)
Definition tracked (o : Observation) (idx : nat)
  : option ((Qc * Qc) * (Qc * Qc) * (Qc * Qc)) :=
  match loc o 0 idx, loc o (length (files o) / 2) idx, length (pixel_locations o) with
  | Some start_pos, Some mid_pos, S last =>
      match loc o last idx with
      | Some end_pos => Some (start_pos, mid_pos, end_pos)
      | None => None
      end
  | _, _, _ => None
  end.

(** A source whose stamp can be had: it is cached already, or it is tracked
    in the first, middle and last frame, there is a first file, and the
    cutout around its adjusted midpoint overlaps the image. *)
Definition valid_source (o : Observation) (idx : nat) : Prop :=
  is_Some (_stamps_cache o !! idx) ∨
  ∃ start_pos mid_pos end_pos cutout,
    tracked o idx = Some (start_pos, mid_pos, end_pos) ∧ files o ≠ [] ∧
    Cutout2D (_adjust_stamp_midpoint mid_pos)
      (Pad.cutout_size (fst start_pos - fst end_pos)%Qc (snd start_pos - snd end_pos)%Qc)
      = Ok cutout.

End Collaborators.

(** What [get_source_slice] may write: the cache entry of its source and
    [stamp_size]. *)
Definition slice_effect (i : nat) (o o1 : Observation) : Prop :=
  files o1 = files o ∧ pixel_locations o1 = pixel_locations o ∧
  data_cube o1 = data_cube o ∧ _hdf5_subtracted o1 = _hdf5_subtracted o ∧
  warnings o1 = warnings o ∧
  ∀ k, k ≠ i → _stamps_cache o1 !! k = _stamps_cache o !! k.

(** What the loop of [create_stamps] has to achieve for a source that had
    no dataset in [o]: when its [try] block raises [e] in [o], no dataset and
    a warning about [e]; otherwise the cube cut at the stamp's slices. *)
Definition outcome_of (i : nat) (attempt : result Stamp) (o o' : Observation) : Prop :=
  match attempt with
  | Raise e =>
      subtracted (_hdf5_subtracted o') !! i = None ∧ (i, e) ∈ warnings o'
  | Ok ss =>
      subtracted (_hdf5_subtracted o') !! i
        = Some (map (cut (row_slice ss) (col_slice ss)) (data_cube o))
  end.

(** What one source's processing must leave alone for another source [i]. *)
Definition frame_for (i : nat) (o o' : Observation) : Prop :=
  files o' = files o ∧ pixel_locations o' = pixel_locations o ∧
  data_cube o' = data_cube o ∧
  _stamps_cache o' !! i = _stamps_cache o !! i ∧
  subtracted (_hdf5_subtracted o') !! i = subtracted (_hdf5_subtracted o) !! i ∧
  ∀ e, (i, e) ∈ warnings o' ↔ (i, e) ∈ warnings o.

(** A one-frame observation and collaborators for it. *)
Definition blue (x y : Qc) : string := "B"%string.
Definition cutout_2x2 (position : Qc * Qc) (size : Z * Z) : result Cutout :=
  Ok (MkCutout ((0, 1), (0, 1))%nat (2, 2)%nat).
(** A cutout that misses the image for positions left of column 50. *)
Definition cutout_right_of_50 (position : Qc * Qc) (size : Z * Z) : result Cutout :=
  if decide (fst position < Qc_of_Z 50)%Qc then Raise NoOverlapError
  else Ok (MkCutout ((0, 1), (0, 1))%nat (2, 2)%nat).
(** One frame, source 0 near the left edge and source 1 well inside. *)
Definition two_in_frame : Observation :=
  MkObservation ["frame_00.fits"%string]
    [[(Qc_of_Z 10, Qc_of_Z 10); (Qc_of_Z 100, Qc_of_Z 100)]]
    [[[Qc_of_Z 1; Qc_of_Z 2; Qc_of_Z 3];
      [Qc_of_Z 4; Qc_of_Z 5; Qc_of_Z 6];
      [Qc_of_Z 7; Qc_of_Z 8; Qc_of_Z 9]]]
    ∅ None (Hdf5 ∅ None ∅) [].
Definition one_frame : Observation :=
  MkObservation ["frame_00.fits"%string]
    [[(Qc_of_Z 100, Qc_of_Z 100)]]
    [[[Qc_of_Z 1; Qc_of_Z 2; Qc_of_Z 3];
      [Qc_of_Z 4; Qc_of_Z 5; Qc_of_Z 6];
      [Qc_of_Z 7; Qc_of_Z 8; Qc_of_Z 9]]]
    ∅ None (Hdf5 ∅ None ∅) [].

End Stamps.

(** ** [subtract_frame_background]: the per-stamp background cache *)

Module Background.

(** What [sigma_clipped_stats] returns: [(mean, median, stddev)], taken to
    be finite. *)
Abbreviation stats := (Qc * Qc * Qc)%type.
Abbreviation mask := (list (list bool)).

(** The keys ['red'], ['green'], ['blue'] of a cell's dictionary. *)
Inductive channel := red | green | blue.

Global Instance channel_eq_dec : EqDecision channel.
Proof. solve_decision. Defined.
Global Instance channel_countable : Countable channel.
Proof.
  refine (inj_countable' (λ c, match c with red => 0 | green => 1 | blue => 2 end)%nat
            (λ n, match n with 0 => red | 1 => green | _ => blue end)%nat _).
  by intros [].
Defined.

(** One entry of [self.background_region[frame_index]]: the channel lists. *)
Abbreviation region := (gmap channel (list stats)).

(** The part of [self] the method uses.  [_back_w] and [_back_h] are read
    but assigned nowhere in the class, so they are attributes that may be
    missing. *)
Record state := MkState {
  _back_w : option Qc;
  _back_h : option Qc;
  background_region : gmap nat (gmap (Z * Z) region);
  _stamp_masks : option (mask * mask * mask)
}.

Definition set_background_region
    (f : gmap nat (gmap (Z * Z) region) → gmap nat (gmap (Z * Z) region)) (s : state) :=
  MkState (_back_w s) (_back_h s) (f (background_region s)) (_stamp_masks s).
Definition set_stamp_masks (m : mask * mask * mask) (s : state) :=
  MkState (_back_w s) (_back_h s) (background_region s) (Some m).

(** [self.background_region[frame][cell]], and its list for a channel *)
Definition region_dict (s : state) (frame : nat) (cell : Z * Z) : option region :=
  background_region s !! frame ≫= λ fb, fb !! cell.
Definition samples (s : state) (frame : nat) (cell : Z * Z) (ch : channel)
  : option (list stats) :=
  region_dict s frame cell ≫= λ r, r !! ch.

(** [self.background_region[frame][cell][channel] = l] *)
Definition store_samples (frame : nat) (cell : Z * Z) (ch : channel) (l : list stats)
  : state → state :=
  set_background_region (alter (alter (insert ch l) cell) frame).

(** [try: frame_background = self.background_region[frame_index]] with its
    [except KeyError] *)
Definition ensure_frame (frame_index : nat) (s : state) : state :=
  match background_region s !! frame_index with
  | Some _ => s
  | None => set_background_region (insert frame_index ∅) s
  end.
(** [try: background_region = frame_background[background_region_id]] with
    its [except KeyError] *)
Definition ensure_cell (frame_index : nat) (cell : Z * Z) (s : state) : state :=
  match region_dict s frame_index cell with
  | Some _ => s
  | None => set_background_region (alter (insert cell ∅) frame_index) s
  end.

(** [int(a // b)] on floats; a zero divisor raises ([ZeroDivisionError] for
    Python floats, [OverflowError] or [ValueError] out of [int] for numpy
    ones: one exception stands for them). *)
Definition floordiv (a b : Qc) : result Z :=
  if decide (b = 0%Qc) then Raise ZeroDivisionError
  else Ok (Qfloor (this (a / b)%Qc)).

Definition same_shape {A B} (a : list (list A)) (b : list (list B)) : bool :=
  bool_decide (map length a = map length b).

(** [np.logical_or(source_mask, ~c_mask)] *)
Definition logical_or_not (source_mask c_mask : mask) : result mask :=
  broadcast (broadcast (λ x y, Ok (x || negb y))) source_mask c_mask.

(** [np.median] of a non-empty sequence *)
Definition median (l : list Qc) : Qc :=
  let sorted := merge_sort Qcle l in
  let n := length sorted in
  if Nat.even n
  then ((default 0 (sorted !! (n / 2 - 1)%nat) + default 0 (sorted !! (n / 2)%nat))
          / Qc_of_Z 2)%Qc
  else default 0%Qc (sorted !! (n / 2)%nat).

(** [method_lookup = {'mean': 0, 'median': 1}] *)
Definition method_lookup : gmap string nat :=
  <["mean"%string := 0%nat]> (<["median"%string := 1%nat]> ∅).

(** [stats[method_idx]] *)
Definition statistic (method_idx : nat) (st : stats) : Qc :=
  match method_idx with
  | O => fst (fst st)
  | 1%nat => snd (fst st)
  | _ => snd st
  end.

(** [np.median(np.array(channel_background)[:, method_idx])]; an empty list
    makes a one-dimensional array, which two indices do not fit. *)
Definition background_value (channel_background : list stats) (method_idx : nat)
  : result Qc :=
  match channel_background with
  | [] => Raise IndexError
  | _ => Ok (median (map (statistic method_idx) channel_background))
  end.

Fixpoint reshape_like {A B} (shape_of : list (list A)) (flat : list B) : list (list B) :=
  match shape_of with
  | [] => []
  | row :: rest => take (length row) flat :: reshape_like rest (drop (length row) flat)
  end.

(** How [np.ma.array(data, mask=m)] fits a mask to the data: a mask of the
    same shape is taken as it is, a one-element mask is repeated, a mask of
    the same size is reshaped, anything else is a [MaskError]. *)
Definition fit_mask (data : image) (m : mask) : result mask :=
  if same_shape data m then Ok m
  else match concat m with
       | [v] => Ok (map (map (λ _, v)) data)
       | flat => if decide (length flat = length (concat data))
                 then Ok (reshape_like data flat)
                 else Raise MaskError
       end.

(** [np.ma.array(stamp, mask=~c_mask)]; [~None] is a [TypeError]. *)
Definition channel_mask (stamp : image) (c_mask : option mask) : result mask :=
  match c_mask with
  | None => Raise TypeError
  | Some m => fit_mask stamp m
  end.

(** [np.ma.array(stamp, mask=~c_mask)] makes no copy: the three masked
    arrays are views of the one buffer, the caller's [stamp], taken to be a
    float array.  [c_masked_data -= background] writes through the view, at
    the pixels [valid] marks as the channel's, and leaves the others. *)
Definition isub_valid (buffer : image) (valid : mask) (background : Qc) : image :=
  zip_with (zip_with (λ x (m : bool), if m then (x - background)%Qc else x))
    buffer valid.

(** The buffer after the three subtractions, in the order red, green, blue.
    It is the caller's array: the method leaves it this way. *)
Definition subtracted_buffer (stamp : image) (r_valid g_valid b_valid : mask)
    (r_background g_background b_background : Qc) : image :=
  isub_valid (isub_valid (isub_valid stamp r_valid r_background) g_valid g_background)
    b_valid b_background.

(** [c_masked_data.filled(0)]: a copy of the buffer as it is when the sum is
    formed, with 0 at the pixels that are not the channel's. *)
Definition channel_data (buffer : image) (valid : mask) : image :=
  zip_with (zip_with (λ x (m : bool), if m then x else 0%Qc)) buffer valid.

Definition add_images (a b : image) : image := zip_with (zip_with Qcplus) a b.

(** [r_masked_data.filled(0) + g_masked_data.filled(0) + b_masked_data.filled(0)] *)
Definition combined (buffer : image) (r_valid g_valid b_valid : mask) : image :=
  add_images (add_images (channel_data buffer r_valid) (channel_data buffer g_valid))
    (channel_data buffer b_valid).

Section Collaborators.

(** photutils' [make_source_mask(stamp, snr=3., npixels=2)] *)
Variable make_source_mask : image → mask.
(** [utils.make_masks(stamp)]: the masks of the R, G and B pixels.  Its
    module is not part of the sources at hand. *)
Variable make_masks : image → mask * mask * mask.
(** astropy's [sigma_clipped_stats(masked, sigma=3.)] on [stamp] with the
    pixels of [excluded] masked out. *)
Variable sigma_clipped_stats : image → mask → stats.

(** [background_region_id] *)
Definition background_region_id (mid_point : option (Qc * Qc)) : M state (Z * Z) :=
  do mp <- lift (of_option TypeError mid_point);
  do s <- gets id;
  do back_w <- lift (of_option AttributeError (_back_w s));
  do c0 <- lift (floordiv (snd mp) back_w);
  do back_h <- lift (of_option AttributeError (_back_h s));
  do c1 <- lift (floordiv (fst mp) back_h);
  ret (c0, c1).

(** The three [try / except KeyError] blocks that fetch or create the
    frame's dictionary, the cell's dictionary and the channel lists.  A
    Python list is shared with the dictionary that holds it: the flag says
    whether the lists returned are the ones held by the cache. *)
Definition channel_lists (frame_index : nat) (cell : Z * Z) (store_background : bool)
  : M state (list stats * list stats * list stats * bool) :=
  do_ modify (ensure_frame frame_index);
  do_ modify (ensure_cell frame_index cell);
  do s <- gets id;
  match samples s frame_index cell red, samples s frame_index cell green,
        samples s frame_index cell blue with
  | Some r, Some g, Some b => ret (r, g, b, true)
  | _, _, _ =>
      do_ (if store_background : bool then
             do_ modify (store_samples frame_index cell red []);
             do_ modify (store_samples frame_index cell green []);
             modify (store_samples frame_index cell blue [])
           else ret tt);
      ret ([], [], [], store_background)
  end.

(** [c_channel_background.append(c_stats)] *)
Definition append_sample (frame_index : nat) (cell : Z * Z) (ch : channel)
    (held : bool) (l : list stats) (stamp : image) (source_mask c_mask : mask)
  : M state (list stats) :=
  do excluded <- lift (logical_or_not source_mask c_mask);
  do excluded <- lift (fit_mask stamp excluded);
  let c_stats := sigma_clipped_stats stamp excluded in
  let l' := l ++ [c_stats] in
  do_ (if held : bool then modify (store_samples frame_index cell ch l') else ret tt);
  ret l'.

(** [if r_mask is None or g_mask is None or b_mask is None:] make the masks
    from the stamp and remember them. *)
Definition rgb_masks (stamp : image) (masks : option mask * option mask * option mask)
  : M state (mask * mask * mask) :=
  match masks with
  | (Some r_mask, Some g_mask, Some b_mask) => ret (r_mask, g_mask, b_mask)
  | _ => let m := make_masks stamp in
         do_ modify (set_stamp_masks m); ret m
  end.

(** The block under [if len(r_channel_background) < 5]. *)
Definition collect_samples (frame_index : nat) (cell : Z * Z) (stamp : image)
    (masks : option mask * option mask * option mask)
    (lists : list stats * list stats * list stats * bool)
  : M state (list stats * list stats * list stats *
             (option mask * option mask * option mask)) :=
  let '(r, g, b, held) := lists in
  if decide (length r < 5)%nat then
    let source_mask := make_source_mask stamp in
    do masks' <- rgb_masks stamp masks;
    let '(r_mask, g_mask, b_mask) := masks' in
    do r' <- append_sample frame_index cell red held r stamp source_mask r_mask;
    do g' <- append_sample frame_index cell green held g stamp source_mask g_mask;
    do b' <- append_sample frame_index cell blue held b stamp source_mask b_mask;
    ret (r', g', b', (Some r_mask, Some g_mask, Some b_mask))
  else ret (r, g, b, masks).

(** From [method_idx] to the end: the three medians, the three masked
    views of the stamp, the subtractions through them, the sum of the
    filled channels.  The views are made before anything is written, so a
    call that raises here has not touched the stamp; one that returns
    leaves [buffer] in it. *)
Definition subtract_medians (stamp : image) (background_sub_method : string)
    (r g b : list stats) (masks : option mask * option mask * option mask)
  : result image :=
  match method_lookup !! background_sub_method with
  | None => Raise KeyError
  | Some method_idx =>
      match background_value r method_idx with
      | Raise e => Raise e
      | Ok r_background =>
      match background_value g method_idx with
      | Raise e => Raise e
      | Ok g_background =>
      match background_value b method_idx with
      | Raise e => Raise e
      | Ok b_background =>
          let '(r_mask, g_mask, b_mask) := masks in
          match channel_mask stamp r_mask with
          | Raise e => Raise e
          | Ok r_valid =>
          match channel_mask stamp g_mask with
          | Raise e => Raise e
          | Ok g_valid =>
          match channel_mask stamp b_mask with
          | Raise e => Raise e
          | Ok b_valid =>
              let buffer := subtracted_buffer stamp r_valid g_valid b_valid
                              r_background g_background b_background in
              Ok (combined buffer r_valid g_valid b_valid)
          end end end
      end end end
  end.

Definition subtract_frame_background (stamp : image) (frame_index : nat)
    (r_mask g_mask b_mask : option mask) (mid_point : option (Qc * Qc))
    (background_sub_method : string) (store_background : bool) : M state image :=
  do cell <- background_region_id mid_point;
  do lists <- channel_lists frame_index cell store_background;
  do collected <- collect_samples frame_index cell stamp (r_mask, g_mask, b_mask) lists;
  let '(r, g, b, masks) := collected in
  lift (subtract_medians stamp background_sub_method r g b masks).

(** The sample a channel mask yields for a stamp, or the exception raised
    on the way. *)
Definition sample_of (stamp : image) (c_mask : mask) : result stats :=
  match logical_or_not (make_source_mask stamp) c_mask with
  | Raise e => Raise e
  | Ok excluded =>
      match fit_mask stamp excluded with
      | Raise e => Raise e
      | Ok excluded => Ok (sigma_clipped_stats stamp excluded)
      end
  end.

(** The masks a sampling call works with: the ones passed in when all three
    are, the ones [make_masks] gives for the stamp otherwise. *)
Definition masks_used (stamp : image) (r_mask g_mask b_mask : option mask)
  : mask * mask * mask :=
  match r_mask, g_mask, b_mask with
  | Some rm, Some gm, Some bm => (rm, gm, bm)
  | _, _, _ => make_masks stamp
  end.

(** What a call returns or raises when it starts from empty lists:
    everything is computed from the stamp it is given. *)
Definition from_own_stamp (stamp : image) (r_mask g_mask b_mask : option mask)
    (background_sub_method : string) : result image :=
  let '(rm, gm, bm) := masks_used stamp r_mask g_mask b_mask in
  match sample_of stamp rm with
  | Raise e => Raise e
  | Ok xr =>
  match sample_of stamp gm with
  | Raise e => Raise e
  | Ok xg =>
  match sample_of stamp bm with
  | Raise e => Raise e
  | Ok xb =>
      subtract_medians stamp background_sub_method [xr] [xg] [xb]
        (Some rm, Some gm, Some bm)
  end end end.

(** Position of a channel in the order the samples are appended. *)
Definition channel_index (ch : channel) : nat :=
  match ch with red => 0 | green => 1 | blue => 2 end.
Definition pick {A} (ch : channel) (r g b : A) : A :=
  match ch with red => r | green => g | blue => b end.

(** The arguments of one call. *)
Record call := MkCall {
  c_stamp : image;
  c_frame_index : nat;
  c_r_mask : option mask;
  c_g_mask : option mask;
  c_b_mask : option mask;
  c_mid_point : option (Qc * Qc);
  c_background_sub_method : string;
  c_store_background : bool
}.

Definition run_call (c : call) : M state image :=
  subtract_frame_background (c_stamp c) (c_frame_index c) (c_r_mask c) (c_g_mask c)
    (c_b_mask c) (c_mid_point c) (c_background_sub_method c) (c_store_background c).

(** The state after a series of calls, whatever each of them raised. *)
Definition after_calls (cs : list call) (s : state) : state :=
  foldl (λ s c, fst (run_call c s)) s cs.

End Collaborators.

(** Collaborators for a small example: no pixel belongs to a source, every
    pixel is red, and the statistics are those of the first pixel. *)
Definition no_sources (stamp : image) : mask := map (map (λ _, false)) stamp.
Definition all_red (stamp : image) : mask * mask * mask :=
  (map (map (λ _, true)) stamp, map (map (λ _, false)) stamp, map (map (λ _, false)) stamp).
Definition first_pixel_stats (stamp : image) (excluded : mask) : stats :=
  let x := default 0%Qc (head (concat stamp)) in (x, x, 0%Qc).
Definition tiny_stamp : image := [[Qc_of_Z 5; Qc_of_Z 7]].
Definition other_stamp : image := [[Qc_of_Z 9; Qc_of_Z 12]].
Definition example_call (store_background : bool) : call :=
  MkCall tiny_stamp 0 None None None (Some (Qc_of_Z 100, Qc_of_Z 100)) "median"
    store_background.

(** A new observation's cache, with the two attributes set to whatever the
    caller chose. *)
Definition initial (back_w back_h : option Qc) : state := MkState back_w back_h ∅ None.

(** The two attributes are only ever read. *)
Definition same_attrs (s s' : state) : Prop :=
  _back_w s' = _back_w s ∧ _back_h s' = _back_h s.

(** The cell the method works on, as [background_region_id] computes it. *)
Definition cell_of (s : state) (mid_point : option (Qc * Qc)) : result (Z * Z) :=
  snd (background_region_id mid_point s).

Definition cached (s : state) (frame : nat) (cell : Z * Z) : Prop :=
  is_Some (samples s frame cell red) ∧ is_Some (samples s frame cell green) ∧
  is_Some (samples s frame cell blue).

Global Instance cached_dec s frame cell : Decision (cached s frame cell).
Proof. unfold cached. apply _. Defined.

(** Every sample list holds at most 5 samples. *)
Definition capped (s : state) : Prop :=
  ∀ frame cell ch l, samples s frame cell ch = Some l → (length l ≤ 5)%nat.

(** The shape of the cache the method maintains: a cell has its three lists
    or none; red is the longest, at most 5 long. *)
Definition trio_ok (s : state) (frame : nat) (cell : Z * Z) : Prop :=
  (samples s frame cell red = None ∧ samples s frame cell green = None ∧
   samples s frame cell blue = None) ∨
  (∃ r g b, samples s frame cell red = Some r ∧ samples s frame cell green = Some g ∧
            samples s frame cell blue = Some b ∧
            (length b ≤ length g)%nat ∧ (length g ≤ length r)%nat ∧ (length r ≤ 5)%nat).
Definition state_ok (s : state) : Prop := ∀ frame cell, trio_ok s frame cell.

(** How one call may change a sample list: not at all, by creating it
    empty, or by appending one sample to fewer than 5. *)
Definition grows (old new : option (list stats)) : Prop :=
  new = old ∨ (old = None ∧ new = Some []) ∨
  ∃ x, new = Some (default [] old ++ [x]) ∧ (length (default [] old) < 5)%nat.

(** The image returned for given sample lists: the channels of the buffer
    from which the median, over each list, of the selected statistic has been
    subtracted. *)
Definition subtracted_with (stamp : image) (method_idx : nat)
    (r g b : list stats) (r_valid g_valid b_valid : mask) : image :=
  combined
    (subtracted_buffer stamp r_valid g_valid b_valid
       (median (map (statistic method_idx) r))
       (median (map (statistic method_idx) g))
       (median (map (statistic method_idx) b)))
    r_valid g_valid b_valid.

End Background.

(** ** [lookup_point_sources]: reading and filtering the catalogue

    The catalogue file is written by an external tool; the embedding starts
    at the table [Table.read] returns. *)

Module Catalog.

(** A catalogue row.  [X] and [Y] are the columns [X_IMAGE] and [Y_IMAGE]
    after [rename_column]. *)
Record source := Source { X : Qc; Y : Qc; FLAGS : Z }.

Record table := Table {
  has_FLAGS : bool;          (* ['FLAGS' in point_sources.keys()] *)
  rows : list source
}.

Definition img_w : Z := 3476.   (* [w, h = (3476, 5208)] *)
Definition img_h : Z := 5208.
Definition stamp_size : Z := 60.

Definition top (s : source) : Prop := (Qc_of_Z stamp_size < Y s)%Qc.
Definition bottom (s : source) : Prop := (Y s < Qc_of_Z (img_w - stamp_size))%Qc.
Definition left (s : source) : Prop := (Qc_of_Z stamp_size < X s)%Qc.
Definition right (s : source) : Prop := (X s < Qc_of_Z (img_h - stamp_size))%Qc.

Global Instance top_dec s : Decision (top s).
Proof. unfold top. apply _. Defined.
Global Instance bottom_dec s : Decision (bottom s).
Proof. unfold bottom. apply _. Defined.
Global Instance left_dec s : Decision (left s).
Proof. unfold left. apply _. Defined.
Global Instance right_dec s : Decision (right s).
Proof. unfold right. apply _. Defined.

Definition lookup_point_sources (cat : table) : list source :=
  (* Remove the point sources that sextractor has flagged *)
  let point_sources :=
    if has_FLAGS cat then filter (λ s, FLAGS s = 0) (rows cat) else rows cat in
  (* Filter point sources near edge *)
  filter (λ s, ((top s ∧ bottom s) ∧ right s) ∧ left s) point_sources.

(** Distances of a source to the four frame edges, and the two sides of the
    margin. *)
Definition edge_distances (s : source) : list Qc :=
  [Y s; (Qc_of_Z img_w - Y s)%Qc; X s; (Qc_of_Z img_h - X s)%Qc].

Definition within_margin (s : source) : Prop :=
  Exists (λ d, (d ≤ Qc_of_Z stamp_size)%Qc) (edge_distances s).
Definition clear_of_edges (s : source) : Prop :=
  Forall (λ d, (Qc_of_Z stamp_size < d)%Qc) (edge_distances s).

Global Instance within_margin_dec s : Decision (within_margin s).
Proof. unfold within_margin. apply _. Defined.
Global Instance clear_of_edges_dec s : Decision (clear_of_edges s).
Proof. unfold clear_of_edges. apply _. Defined.

Definition unflagged (cat : table) (s : source) : Prop :=
  has_FLAGS cat = true → FLAGS s = 0.

(** Three detections, two of them near an edge and the third one flagged. *)
Definition flagged_catalogue : table :=
  Table true [Source (Qc_of_Z 10) (Qc_of_Z 10) 0;
              Source (Qc_of_Z 5200) (Qc_of_Z 100) 0;
              Source (Qc_of_Z 1000) (Qc_of_Z 1000) 4].

(** Three detections without a [FLAGS] column, two of them near an edge. *)
Definition unflagged_catalogue : table :=
  Table false [Source (Qc_of_Z 10) (Qc_of_Z 10) 0;
               Source (Qc_of_Z 5200) (Qc_of_Z 100) 0;
               Source (Qc_of_Z 1000) (Qc_of_Z 1000) 0].

End Catalog.

(** ** Further notions used to state what the code does *)

Module Flux.

(** A value that is not negative, when it is finite at all. *)
Definition not_negative (x : num) : Prop :=
  match x with Fin q => (0 ≤ q)%Qc | NaN => True end.

End Flux.

Module Grid.
Import Variance.

(** Every cell holds zero or the pair value of its two sources. *)
Definition settled (ds : gmap nat cube) (g : grid) : Prop :=
  ∀ i j v, cell g i j = Some v → v = nzero ∨ v = pair_value ds i j.

(** Of a cell and its mirror cell, at most one is nonzero. *)
Definition one_direction (g : grid) : Prop :=
  ∀ i j v w, i ≠ j → cell g i j = Some v → cell g j i = Some w →
    is_zero v = true ∨ is_zero w = true.

(** The pair value of [t] and [s] is stored, in one direction or the
    other. *)
Definition stored_pair (ds : gmap nat cube) (g : grid) (t s : nat) : Prop :=
  cell g t s = Some (pair_value ds t s) ∨ cell g s t = Some (pair_value ds t s).

(** Two sources whose cubes have different shapes. *)
Definition odd_shapes : gmap nat cube :=
  <[0%nat := [[[Qc_of_Z 1; Qc_of_Z 1]]]]>
    (<[1%nat := [[[Qc_of_Z 1; Qc_of_Z 3; Qc_of_Z 4]]]]> ∅).

End Grid.

Module Pixels.

(** [a[i, j]] *)
Definition pixel {A} (a : list (list A)) (i j : nat) : option A :=
  a !! i ≫= λ row, row !! j.

(** How many of the three channel masks select a pixel. *)
Definition selected (sr sg sb : bool) : Z := Z.b2z sr + Z.b2z sg + Z.b2z sb.

(** What is left of a pixel [x] in the stamp's buffer: its value minus the
    background of every channel whose mask selects it. *)
Definition buffer_pixel (x : Qc) (sr sg sb : bool) (R G B : Qc) : Qc :=
  (x - (if sr then R else 0) - (if sg then G else 0) - (if sb then B else 0))%Qc.

(** The pixel of the returned image: every channel that selects the pixel
    contributes the buffer's value. *)
Definition returned_pixel (x : Qc) (sr sg sb : bool) (R G B : Qc) : Qc :=
  (Qc_of_Z (selected sr sg sb) * buffer_pixel x sr sg sb R G B)%Qc.

End Pixels.

Module BackgroundExamples.
Import Background.

(** A cache whose cell [(0, 0)] of frame 0 holds five samples per channel. *)
Definition five_samples : list stats :=
  replicate 5 (Qc_of_Z 10, Qc_of_Z 10, Qc_of_Z 1).
Definition full_cell : state :=
  MkState (Some (Qc_of_Z 434)) (Some (Qc_of_Z 316))
    {[ 0%nat := {[ (0, 0) := <[red := five_samples]>
                               (<[green := five_samples]>
                                  (<[blue := five_samples]> ∅)) ]} ]}
    None.

End BackgroundExamples.

(** ** The property [data_cube] and the frame-level [subtract_background] *)

Module DataCube.

(** What [fits.getdata] returns: an array of a numpy integer type, given by
    its signedness and its width in bits (a raw camera frame is a 16-bit
    unsigned one), or a float array. *)
Inductive array :=
| IntArray (signed : bool) (bits : positive) (pixels : list (list Z))
| FloatArray (pixels : image).

(** A Python number: [camera_bias] is the int 1024 unless the caller passes
    another number. *)
Inductive number :=
| PyInt (z : Z)
| PyFloat (q : Qc).

(** The part of [self] these methods use.  [cube_dset] is the dataset
    [self._hdf5['cube']], missing until the first access creates it; made
    without a dtype, it holds float32 values. *)
Record state := MkState {
  files : list string;
  camera_bias : number;
  _img_h : nat;
  _img_w : nat;
  cube_dset : option cube;
  rgb_masks : option (Background.mask * Background.mask * Background.mask)
}.

Definition set_cube_dset (f : option cube → option cube) (s : state) : state :=
  MkState (files s) (camera_bias s) (_img_h s) (_img_w s) (f (cube_dset s)) (rgb_masks s).
Definition set_rgb_masks (m : Background.mask * Background.mask * Background.mask)
    (s : state) : state :=
  MkState (files s) (camera_bias s) (_img_h s) (_img_w s) (cube_dset s) (Some m).

Definition has_shape {A} (h w : nat) (a : list (list A)) : bool :=
  bool_decide (length a = h ∧ Forall (λ row, length row = w) a).

(** The values of an integer type. *)
Definition in_range (signed : bool) (bits : positive) (z : Z) : bool :=
  if signed then bool_decide (- 2 ^ (Z.pos bits - 1) ≤ z < 2 ^ (Z.pos bits - 1))
  else bool_decide (0 ≤ z < 2 ^ Z.pos bits).

(** Arithmetic in an integer type wraps around. *)
Definition wrap (signed : bool) (bits : positive) (z : Z) : Z :=
  if signed then (z + 2 ^ (Z.pos bits - 1)) mod 2 ^ Z.pos bits - 2 ^ (Z.pos bits - 1)
  else z mod 2 ^ Z.pos bits.

(** The float32 an integer is stored as: itself up to [2 ^ 24], beyond that
    the nearest multiple of the spacing at its size, ties to even. *)
Definition to_float32 (n : Z) : Z :=
  if decide (Z.abs n ≤ 2 ^ 24) then n
  else let sh := Z.log2 (Z.abs n) - 23 in
       Z.sgn n * (Pad.round_half_even (inject_Z (Z.abs n) / inject_Z (2 ^ sh)) * 2 ^ sh).

(** What the float32 dataset holds once an array has been assigned to one
    of its frames. *)
Definition stored (arr : array) : image :=
  match arr with
  | IntArray _ _ pixels => map (map (λ x, Qc_of_Z (to_float32 x))) pixels
  | FloatArray pixels => pixels
  end.

(** A frame of the dataset as [create_dataset] leaves it *)
Definition zero_frame (h w : nat) : image := replicate h (replicate w 0%Qc).

(** [~mask] *)
Definition negate (m : Background.mask) : Background.mask := map (map negb) m.

(** [np.ma.array(background, mask=m).filled(0)] *)
Definition filled (background : image) (m : Background.mask) : image :=
  zip_with (zip_with (λ x (masked : bool), if masked then 0%Qc else x)) background m.

Section Collaborators.

(** astropy's [fits.getdata(f)] *)
Variable getdata : string → result array.
(** What h5py makes of an array assigned to a frame of another shape: it
    broadcasts it or raises. *)
Variable h5py_broadcast : nat → nat → image → result image.
(** What numpy makes of an integer array minus a Python int that is not a
    value of the array's type: depending on its version it computes in a
    wider type or raises. *)
Variable numpy_out_of_range : array → Z → result array.
(** [utils.make_masks(data)]; its module is not part of the sources at
    hand. *)
Variable make_masks : image → Background.mask * Background.mask * Background.mask.
(** photutils' [Background2D(data, box, ..., mask=m).background] *)
Variable Background2D : image → Background.mask → result image.
(** What numpy makes of [a -= b] for operands of different shapes. *)
Variable numpy_isub : image → image → result image.

(** [cube_dset[i] = arr]; an index outside the dataset raises (which
    exception depends on the h5py version). *)
Definition write_frame (i : nat) (arr : image) : M state unit :=
  do s <- gets id;
  do c <- lift (of_option KeyError (cube_dset s));
  do_ lift (of_option IndexError (c !! i));
  do stored <- lift (if has_shape (_img_h s) (_img_w s) arr then Ok arr
                     else h5py_broadcast (_img_h s) (_img_w s) arr);
  modify (set_cube_dset (λ _, Some (<[i := stored]> c))).

(** [arr - self.camera_bias].  An integer array minus an int of its type
    stays in that type and wraps around: below the bias, an unsigned pixel
    comes out large.  With a float on either side the result is a float
    array. *)
Definition minus_bias (bias : number) (arr : array) : result array :=
  match arr, bias with
  | IntArray signed bits pixels, PyInt b =>
      if in_range signed bits b
      then Ok (IntArray signed bits (map (map (λ x, wrap signed bits (x - b))) pixels))
      else numpy_out_of_range arr b
  | IntArray _ _ pixels, PyFloat q =>
      Ok (FloatArray (map (map (λ x, (Qc_of_Z x - q)%Qc)) pixels))
  | FloatArray pixels, PyInt b =>
      Ok (FloatArray (map (map (λ x, (x - Qc_of_Z b)%Qc)) pixels))
  | FloatArray pixels, PyFloat q =>
      Ok (FloatArray (map (map (λ x, (x - q)%Qc)) pixels))
  end.

(** One iteration of [for i, f in enumerate(self.files)] *)
Definition load_frame (entry : nat * string) : M state unit :=
  do s <- gets id;
  do arr <- lift (getdata (snd entry));
  do diff <- lift (minus_bias (camera_bias s) arr);
  write_frame (fst entry) (stored diff).

(** The property [data_cube].  What it returns is the dataset itself, a
    handle on the store: after it returned, [cube_dset] is the cube. *)
Definition data_cube : M state unit :=
  do s <- gets id;
  match cube_dset s with
  | Some _ => ret tt
  | None =>
      do_ modify (set_cube_dset
                    (λ _, Some (replicate (length (files s))
                                  (zero_frame (_img_h s) (_img_w s)))));
      for_each (zip (seq 0 (length (files s))) (files s)) load_frame
  end.

(** [self.data_cube[frame_index]] *)
Definition read_frame (frame_index : nat) : M state image :=
  do_ data_cube;
  do s <- gets id;
  lift (of_option IndexError (cube_dset s ≫= λ c, c !! frame_index)).

(** [a -= b] on arrays *)
Definition isub (a b : image) : result image :=
  if Background.same_shape a b then Ok (zip_with (zip_with Qcminus) a b)
  else numpy_isub a b.

(** The body of [for color, mask in zip(['R', 'G', 'B'], self.rgb_masks)] *)
Definition subtract_colour (frame_index : nat) (data : image) (mask : Background.mask)
  : M state unit :=
  do bkg <- lift (Background2D data (negate mask));
  do m <- lift (Background.fit_mask bkg (negate mask));
  (* [self.data_cube[frame_index] -= background_masked_data.filled(0)] *)
  do tmp <- read_frame frame_index;
  do tmp <- lift (isub tmp (filled bkg m));
  write_frame frame_index tmp.

(** [if self.rgb_masks is None: self.rgb_masks = utils.make_masks(data)] *)
Definition the_rgb_masks (data : image)
  : M state (Background.mask * Background.mask * Background.mask) :=
  do s <- gets id;
  match rgb_masks s with
  | Some m => ret m
  | None => let m := make_masks data in do_ modify (set_rgb_masks m); ret m
  end.

(** The body of [for frame_index in frames] *)
Definition subtract_frame (frame_index : nat) : M state unit :=
  (* Get the bias subtracted data for the frame *)
  do data <- read_frame frame_index;
  do masks <- the_rgb_masks data;
  let '(r_mask, g_mask, b_mask) := masks in
  do_ subtract_colour frame_index data r_mask;
  do_ subtract_colour frame_index data g_mask;
  subtract_colour frame_index data b_mask.

(** [subtract_background(self, frames=None)] *)
Definition subtract_background (frames : option (list nat)) : M state unit :=
  do s <- gets id;
  let frames := match frames with
                | Some l => l
                | None => seq 0 (length (files s))
                end in
  for_each frames subtract_frame.

(** The files that hold a frame of the image's shape in an integer type of
    at most 24 bits, of which the bias is a value: for each of them the
    signedness, the width and the pixels of what [fits.getdata] returns. *)
Definition loads (h w : nat) (bias : Z) (fs : list string)
    (arrs : list (bool * positive * list (list Z))) : Prop :=
  Forall2 (λ f '(signed, bits, pixels),
             getdata f = Ok (IntArray signed bits pixels) ∧
             has_shape h w pixels = true ∧ (bits ≤ 24)%positive ∧
             in_range signed bits bias = true) fs arrs.

End Collaborators.

(** What a step may change besides the masks: frames of the cube, and none
    of those [keep] holds for. *)
Definition frames_kept (keep : nat → Prop) (s s' : state) : Prop :=
  files s' = files s ∧ camera_bias s' = camera_bias s ∧
  _img_h s' = _img_h s ∧ _img_w s' = _img_w s ∧
  ∃ c c', cube_dset s = Some c ∧ cube_dset s' = Some c' ∧ length c' = length c ∧
          ∀ k, keep k → c' !! k = c !! k.

(** The frame the cube holds for an integer array of [loads]: each pixel
    minus the bias, wrapped around in the array's type. *)
Definition biased_frame (bias : Z) (arr : bool * positive * list (list Z)) : image :=
  let '(signed, bits, pixels) := arr in
  map (map (λ x, Qc_of_Z (wrap signed bits (x - bias)))) pixels.

(** What is left of a pixel [x] of the frame: its value minus the
    background, at that pixel, of each colour whose mask selects it. *)
Definition minus_colour_backgrounds (x : Qc) (mr mg mb : bool) (br bg bb : Qc) : Qc :=
  (x - (if mr then br else 0) - (if mg then bg else 0) - (if mb then bb else 0))%Qc.

(** Collaborators for a small example: the file ["bad.fits"] cannot be
    read, every other file holds the same 1 by 2 frame of 16-bit unsigned
    pixels, the first of them below the bias; every pixel is red and the
    background is 1 everywhere. *)
Definition example_getdata (f : string) : result array :=
  if decide (f = "bad.fits"%string) then Raise ValueError
  else Ok (IntArray false 16 [[1000; 1044]]).
Definition no_broadcast (h w : nat) (a : image) : result image := Raise TypeError.
Definition no_promotion (a : array) (b : Z) : result array := Raise ValueError.
Definition no_isub (a b : image) : result image := Raise ValueError.
Definition flat_background (data : image) (m : Background.mask) : result image :=
  Ok (map (map (λ _, Qc_of_Z 1)) data).
Definition example_state (fs : list string) : state :=
  MkState fs (PyInt 1024) 1 2 None None.
(** Two frames in place, with or without remembered masks. *)
Definition loaded_state
    (masks : option (Background.mask * Background.mask * Background.mask)) : state :=
  MkState ["a.fits"; "b.fits"]%string (PyInt 1024) 1 2
    (Some [[[Qc_of_Z 10; Qc_of_Z 20]]; [[Qc_of_Z 30; Qc_of_Z 40]]]) masks.

End DataCube.

Module StampExamples.
Import Stamps.

(** One frame, source 0 well inside and source 1 near the left edge. *)
Definition inside_then_edge : Observation :=
  MkObservation ["frame_00.fits"%string]
    [[(Qc_of_Z 100, Qc_of_Z 100); (Qc_of_Z 10, Qc_of_Z 10)]]
    [[[Qc_of_Z 1; Qc_of_Z 2; Qc_of_Z 3];
      [Qc_of_Z 4; Qc_of_Z 5; Qc_of_Z 6];
      [Qc_of_Z 7; Qc_of_Z 8; Qc_of_Z 9]]]
    ∅ None (Hdf5 ∅ None ∅) [].

End StampExamples.

(** * Properties *)

Section PadFacts.
Import Pad.

Lemma Qceiling_div8 (a : Z) :
  Qceiling (inject_Z a / inject_Z 8) = (a + 7) / 8.
Proof.
  unfold Qceiling, Qfloor, Qdiv, Qinv, Qmult, Qopp, inject_Z; simpl.
  rewrite Z.mul_1_r. change (Z.pos (1 * 8)) with 8.
  assert (H := Z.div_mod (a + 7) 8 ltac:(lia)).
  assert (H1 := Z.mod_pos_bound (a + 7) 8 ltac:(lia)).
  assert (H2 := Z.div_mod (- a) 8 ltac:(lia)).
  assert (H3 := Z.mod_pos_bound (- a) 8 ltac:(lia)).
  lia.
Qed.

Lemma round_half_even_comp (t t' : Q) :
  (t == t')%Q → round_half_even t = round_half_even t'.
Proof.
  intros H. unfold round_half_even. rewrite (Qfloor_comp _ _ H).
  assert ((t - inject_Z (Qfloor t') ?= 1 # 2)%Q = (t' - inject_Z (Qfloor t') ?= 1 # 2)%Q)
    as ->; [|done].
  apply Qcompare_comp; [by rewrite H|reflexivity].
Qed.

Lemma round_half_even_Z (z : Z) : round_half_even (inject_Z z) = z.
Proof.
  unfold round_half_even. rewrite Qfloor_Z.
  assert ((inject_Z z - inject_Z z ?= 1 # 2)%Q = Lt) as ->; [|done].
  apply Qlt_alt.
  assert (inject_Z z - inject_Z z == 0)%Q as -> by ring. reflexivity.
Qed.

Lemma denorm_eq : denorm = 8 * 2 ^ 1071.
Proof. by vm_compute. Qed.

Lemma inject_Z_nonzero (z : Z) : z ≠ 0 → ¬ (inject_Z z == 0)%Q.
Proof. unfold Qeq, inject_Z. simpl. lia. Qed.

(** Where the quotient is a multiple of [2 ^ -1074] the division is
    exact. *)
Lemma div8_exact (a : Q) (k : Z) :
  (a * inject_Z (2 ^ 1071) == inject_Z k)%Q → (div8 a == a / inject_Z 8)%Q.
Proof.
  intros Hk. unfold div8.
  assert (¬ (inject_Z denorm == 0)%Q) as Hd by (by apply inject_Z_nonzero).
  assert (a / inject_Z 8 * inject_Z denorm == inject_Z k)%Q as Ht.
  { rewrite <- Hk, denorm_eq, inject_Z_mult. field. }
  rewrite (round_half_even_comp _ _ Ht), round_half_even_Z, <- Ht.
  field. done.
Qed.

Lemma div8_inject_Z (n : Z) : (div8 (inject_Z n) == inject_Z n / inject_Z 8)%Q.
Proof. apply (div8_exact _ (n * 2 ^ 1071)). by rewrite inject_Z_mult. Qed.

Lemma pad_float_inject_Z (n : Z) : pad_float (inject_Z n) = (n + 7) / 8 * 8.
Proof.
  unfold pad_float. f_equal. rewrite <- Qceiling_div8.
  apply Qceiling_comp, div8_inject_Z.
Qed.

(** Up to [2 ^ 53] neither the absolute value nor the conversion changes
    the integer. *)
Lemma pad_int64_small (z : Z) :
  Z.abs z ≤ 2 ^ 53 → _pad_super_pixel_int64 z = (Z.abs z + 7) / 8 * 8.
Proof.
  intros Hz. unfold _pad_super_pixel_int64, abs_int64.
  destruct (decide (z = - 2 ^ 63)) as [->|_]; [by vm_compute in Hz|].
  unfold to_float64. rewrite decide_True by (by rewrite Z.abs_idemp).
  apply pad_float_inject_Z.
Qed.

Lemma smallest_multiple_of_8 (a : Z) :
  0 ≤ a →
  (8 | (a + 7) / 8 * 8) ∧ a ≤ (a + 7) / 8 * 8 ∧
  ∀ m, (8 | m) → a ≤ m → (a + 7) / 8 * 8 ≤ m.
Proof.
  intros Ha. split; [apply Z.divide_factor_r|].
  split.
  - assert (H := Z.div_mod (a + 7) 8 ltac:(lia)).
    assert (H1 := Z.mod_pos_bound (a + 7) 8 ltac:(lia)). lia.
  - intros m [k ->] Hm.
    assert ((a + 7) / 8 ≤ k); [|lia].
    assert ((a + 7) / 8 < k + 1); [|lia].
    apply Z.div_lt_upper_bound; lia.
Qed.

(** C5, as stated, fails.  For a drift of 8 pixels in both directions the
    stamp is cut 16 rows by 12 columns, and 12 is not a multiple of 8.  The
    padding itself fails for large integers: [2 ^ 53 + 1] is converted to the
    float64 [2 ^ 53] and padded to [2 ^ 53], less than the input, and the
    int64 [- 2 ^ 63] keeps its sign and is padded to [- 2 ^ 63]. *)
Lemma stamp_columns_not_multiple_of_8 :
  cutout_size (Qc_of_Z 8) (Qc_of_Z 8) = (16, 12) ∧
  ¬ (is_multiple_of_8 (fst (cutout_size (Qc_of_Z 8) (Qc_of_Z 8))) = true ∧
     is_multiple_of_8 (snd (cutout_size (Qc_of_Z 8) (Qc_of_Z 8))) = true) ∧
  _pad_super_pixel_int64 (2 ^ 53 + 1) = 2 ^ 53 ∧
  _pad_super_pixel_int64 (- 2 ^ 63) = - 2 ^ 63.
Proof.
  split_and!; [by vm_compute| |by vm_compute|by vm_compute].
  intros [_ H]. vm_compute in H. discriminate H.
Qed.

(** C5, amended.  For every integer input of absolute value at most
    [2 ^ 53], [_pad_super_pixel] returns the smallest multiple of 8 that is at
    least the input's absolute value.  For every drift, the stamp is cut
    with [pad(height) + 8] rows, a multiple of 8, and [pad(width) + 4]
    columns, which is 4 more than a multiple of 8. *)
Theorem pad_super_pixel_spec (z : Z) (width height : Qc) :
  Z.abs z ≤ 2 ^ 53 →
  let p := _pad_super_pixel_int64 z in
  let size := cutout_size width height in
  ((8 | p) ∧ Z.abs z ≤ p ∧ ∀ m, (8 | m) → Z.abs z ≤ m → p ≤ m) ∧
  (8 | fst size) ∧ snd size mod 8 = 4.
Proof.
  intros Hz p size. subst p size. rewrite pad_int64_small by done.
  split; [apply smallest_multiple_of_8; lia|].
  unfold cutout_size, _pad_super_pixel, pad_float. simpl fst; simpl snd. split.
  - exists (Qceiling (div8 (Qabs (this height))) + 1). lia.
  - rewrite Z.add_comm. by rewrite Z.mod_add.
Qed.

Lemma pad_super_pixel_spec_witness :
  ((8 | _pad_super_pixel_int64 (-13)) ∧
   Z.abs (-13) ≤ _pad_super_pixel_int64 (-13) ∧
   ∀ m, (8 | m) → Z.abs (-13) ≤ m → _pad_super_pixel_int64 (-13) ≤ m) ∧
  (8 | fst (cutout_size (Q2Qc (21 # 2)) (Q2Qc (-7 # 4)))) ∧
  snd (cutout_size (Q2Qc (21 # 2)) (Q2Qc (-7 # 4))) mod 8 = 4.
Proof.
  apply (pad_super_pixel_spec (-13) (Q2Qc (21 # 2)) (Q2Qc (-7 # 4))).
  by vm_compute.
Defined.

End PadFacts.

(** ** The catalogue filter *)

Section CatalogFacts.
Import Catalog.

Lemma Qclt_swap_sub (y a b : Qc) : (y < a - b ↔ b < a - y)%Qc.
Proof.
  rewrite (Qclt_minus_iff y), (Qclt_minus_iff b).
  by replace (a - b + - y)%Qc with (a - y + - b)%Qc by ring.
Qed.

Lemma clear_of_edges_iff s :
  clear_of_edges s ↔ ((top s ∧ bottom s) ∧ right s) ∧ left s.
Proof.
  unfold clear_of_edges, edge_distances, top, bottom, left, right.
  rewrite !Forall_cons, Forall_nil.
  rewrite !Z2Qc_inj_sub, !(Qclt_swap_sub _ _ (Qc_of_Z stamp_size)).
  tauto.
Qed.

Lemma within_margin_iff s : within_margin s ↔ ¬ clear_of_edges s.
Proof.
  unfold within_margin, clear_of_edges. split.
  - intros Hex Hall. apply Exists_exists in Hex as (d & Hd & Hle).
    rewrite Forall_forall in Hall. specialize (Hall d Hd).
    by apply Qcle_ngt in Hle.
  - intros Hn. apply not_Forall_Exists in Hn; [|apply _].
    eapply Exists_impl; [done|]. intros d Hd. simpl in Hd. by apply Qcle_ngt.
Qed.

Lemma elem_of_lookup_point_sources cat s :
  s ∈ lookup_point_sources cat ↔ s ∈ rows cat ∧ unflagged cat s ∧ clear_of_edges s.
Proof.
  unfold lookup_point_sources, unflagged.
  rewrite list_elem_of_filter, clear_of_edges_iff.
  destruct (has_FLAGS cat).
  - rewrite list_elem_of_filter. intuition auto.
  - intuition auto; discriminate.
Qed.

Lemma filter_unflagged cat :
  (∀ s, s ∈ rows cat → unflagged cat s) →
  lookup_point_sources cat = filter clear_of_edges (rows cat).
Proof.
  intros Hun. unfold lookup_point_sources.
  assert ((if has_FLAGS cat then filter (λ s, FLAGS s = 0) (rows cat) else rows cat)
          = rows cat) as ->.
  { unfold unflagged in Hun. destruct (has_FLAGS cat); [|done].
    induction (rows cat) as [|s l IH]; [done|].
    rewrite filter_cons_True by (apply Hun; [left|done]).
    f_equal. apply IH. intros s' Hs'. apply Hun. by right. }
  apply list_filter_iff. intros s. by rewrite clear_of_edges_iff.
Qed.

Lemma length_filter_margin (l : list source) :
  (length (filter clear_of_edges l) + length (filter within_margin l) = length l)%nat.
Proof.
  induction l as [|s l IH]; [done|].
  destruct (decide (clear_of_edges s)) as [Hc|Hc].
  - rewrite (filter_cons_True clear_of_edges) by done.
    rewrite (filter_cons_False within_margin) by (by rewrite within_margin_iff; intros []).
    simpl. lia.
  - rewrite (filter_cons_False clear_of_edges) by done.
    rewrite (filter_cons_True within_margin) by (by rewrite within_margin_iff).
    simpl. lia.
Qed.

(** C8, as stated, fails: of three detections two lie within the margin and
    the third, well inside the frame, carries a nonzero flag; nothing is
    returned. *)
Lemma flagged_source_not_kept :
  length (rows flagged_catalogue) = 3%nat ∧
  length (filter within_margin (rows flagged_catalogue)) = 2%nat ∧
  clear_of_edges (Source (Qc_of_Z 1000) (Qc_of_Z 1000) 4) ∧
  Source (Qc_of_Z 1000) (Qc_of_Z 1000) 4 ∈ rows flagged_catalogue ∧
  lookup_point_sources flagged_catalogue = [] ∧
  length (lookup_point_sources flagged_catalogue) ≠ 1%nat.
Proof.
  split_and!; try (vm_compute; done).
  - apply (bool_decide_unpack _). vm_compute. exact I.
  - set_solver.
Qed.

(** C8, amended. [lookup_point_sources] returns exactly the catalogue
    sources that are not flagged by the extractor (the table has no [FLAGS]
    column, or the flag is zero) and lie strictly farther than 60 pixels from
    all four frame edges: no returned source lies within the margin, every
    unflagged source clear of the edges is kept, and a catalogue of three
    unflagged sources of which two lie within the margin yields exactly one. *)
Theorem lookup_point_sources_spec (cat : table) :
  (∀ s, s ∈ lookup_point_sources cat ↔
        s ∈ rows cat ∧ unflagged cat s ∧ clear_of_edges s) ∧
  (∀ s, s ∈ lookup_point_sources cat → ¬ within_margin s) ∧
  (∀ s, s ∈ rows cat → unflagged cat s → clear_of_edges s →
        s ∈ lookup_point_sources cat) ∧
  ((∀ s, s ∈ rows cat → unflagged cat s) →
   length (rows cat) = 3%nat →
   length (filter within_margin (rows cat)) = 2%nat →
   length (lookup_point_sources cat) = 1%nat).
Proof.
  split_and!.
  - apply elem_of_lookup_point_sources.
  - intros s (_ & _ & Hs)%elem_of_lookup_point_sources. rewrite within_margin_iff. auto.
  - intros s ???. apply elem_of_lookup_point_sources. done.
  - intros Hun H3 H2. rewrite filter_unflagged by done.
    pose proof (length_filter_margin (rows cat)). lia.
Qed.

Lemma lookup_point_sources_spec_witness :
  length (lookup_point_sources unflagged_catalogue) = 1%nat.
Proof.
  apply (proj2 (proj2 (proj2 (lookup_point_sources_spec unflagged_catalogue)))).
  - intros s _ H. discriminate H.
  - reflexivity.
  - vm_compute. reflexivity.
Defined.

End CatalogFacts.

(** ** Stamps *)

Section StampFacts.
Import Stamps.
Context (pixel_color : Qc → Qc → string) (Cutout2D : Qc * Qc → Z * Z → result Cutout).

Lemma new_source_slice_unfold i cache o :
  new_source_slice pixel_color Cutout2D i cache o =
    match geometry pixel_color Cutout2D o i with
    | Ok st =>
        let o1 := set_stamp_size (shape (cutout st)) o in
        ((if cache then set_stamps_cache (insert i st) o1 else o1), Ok st)
    | Raise e => (o, Raise e)
    end.
Proof.
  unfold geometry, new_source_slice, _get_stamp_points, iloc,
    bind, gets, lift, ret, raise, modify, of_option, id.
  set (m := (length (files o) / 2)%nat). simpl.
  destruct (loc o 0 i) as [start_pos|]; simpl; [|done].
  destruct (loc o m i) as [mid_pos|]; simpl; [|done].
  destruct (length (pixel_locations o)) as [|last]; simpl; [done|].
  destruct (loc o last i) as [end_pos|]; simpl; [|done].
  destruct (head (files o)); simpl; [|done].
  destruct (Cutout2D _ _) as [c|e]; simpl; [|done].
  destruct (bbox_original c) as [xs ys]. by destruct cache.
Qed.

Lemma geometry_frame i o o' :
  files o' = files o → pixel_locations o' = pixel_locations o →
  geometry pixel_color Cutout2D o' i = geometry pixel_color Cutout2D o i.
Proof.
  intros Hf Hp.
  unfold geometry, new_source_slice, _get_stamp_points, iloc,
    bind, gets, lift, ret, raise, modify, of_option, id.
  assert (∀ f, loc o' f i = loc o f i) as Hloc by (intros; unfold loc; by rewrite Hp).
  rewrite Hf, Hp. set (m := (length (files o) / 2)%nat). simpl. rewrite !Hloc.
  destruct (loc o 0 i) as [start_pos|]; simpl; [|done].
  destruct (loc o m i) as [mid_pos|]; simpl; [|done].
  destruct (length (pixel_locations o)) as [|last]; simpl; [done|].
  rewrite ?Hloc.
  destruct (loc o last i) as [end_pos|]; simpl; [|done].
  rewrite ?Hf.
  destruct (head (files o)); simpl; [|done].
  destruct (Cutout2D _ _) as [c|e]; simpl; [|done].
  by destruct (bbox_original c) as [xs ys].
Qed.

Lemma get_source_slice_unfold i cache o :
  get_source_slice pixel_color Cutout2D i false cache o =
    match _stamps_cache o !! i with
    | Some st => (o, Ok st)
    | None => new_source_slice pixel_color Cutout2D i cache o
    end.
Proof.
  unfold get_source_slice, try_except, bind, gets, lift, ret, of_option, id. simpl.
  by destruct (_stamps_cache o !! i).
Qed.

(** With [force_new], the entry is dropped and the geometry rebuilt. *)
Lemma get_source_slice_force_new i cache o :
  get_source_slice pixel_color Cutout2D i true cache o =
    new_source_slice pixel_color Cutout2D i cache
      (match _stamps_cache o !! i with
       | Some _ => set_stamps_cache (delete i) o
       | None => o
       end).
Proof.
  unfold get_source_slice, try_except, bind, gets, lift, ret, modify, of_option, id.
  simpl. destruct (_stamps_cache o !! i); simpl; [|done].
  by rewrite lookup_delete_eq.
Qed.

Lemma new_source_slice_effect i cache o :
  slice_effect i o (fst (new_source_slice pixel_color Cutout2D i cache o)).
Proof.
  rewrite new_source_slice_unfold.
  destruct (geometry pixel_color Cutout2D o i) as [st|e]; simpl;
    [|by unfold slice_effect].
  destruct cache; unfold slice_effect; simpl; split_and!; try done.
  intros k Hk. by rewrite lookup_insert_ne.
Qed.

Lemma get_source_slice_effect i force_new cache o :
  slice_effect i o (fst (get_source_slice pixel_color Cutout2D i force_new cache o)).
Proof.
  destruct force_new.
  - rewrite get_source_slice_force_new.
    destruct (_stamps_cache o !! i) eqn:E; [|apply new_source_slice_effect].
    destruct (new_source_slice_effect i cache (set_stamps_cache (delete i) o))
      as (? & ? & ? & ? & ? & Hk).
    unfold slice_effect. split_and!; try done.
    intros k Hne. rewrite Hk by done. simpl. by rewrite lookup_delete_ne.
  - rewrite get_source_slice_unfold.
    destruct (_stamps_cache o !! i); [by unfold slice_effect|].
    apply new_source_slice_effect.
Qed.

Lemma get_source_slice_cached i o o1 stamp :
  get_source_slice pixel_color Cutout2D i false true o = (o1, Ok stamp) →
  _stamps_cache o1 !! i = Some stamp ∧
  ∀ pixel_color' Cutout2D' cache',
    get_source_slice pixel_color' Cutout2D' i false cache' o1 = (o1, Ok stamp).
Proof.
  intros Hfirst.
  assert (_stamps_cache o1 !! i = Some stamp) as Hc.
  { rewrite get_source_slice_unfold in Hfirst.
    destruct (_stamps_cache o !! i) as [st|] eqn:E; [by simplify_eq|].
    rewrite new_source_slice_unfold in Hfirst.
    destruct (geometry pixel_color Cutout2D o i); simpl in Hfirst; simplify_eq.
    simpl. by rewrite lookup_insert_eq. }
  split; [done|]. intros pc' C' cache'.
  unfold get_source_slice, try_except, bind, gets, lift, ret, of_option, id. simpl.
  by rewrite Hc.
Qed.

(** The sources for which [get_source_slice] returns are the valid ones. *)
Lemma valid_source_returns i cache o :
  valid_source pixel_color Cutout2D o i ↔
  ∃ o1 stamp, get_source_slice pixel_color Cutout2D i false cache o = (o1, Ok stamp).
Proof.
  rewrite get_source_slice_unfold. unfold valid_source.
  destruct (_stamps_cache o !! i) as [st|] eqn:Hc.
  { split; [by eexists _, _|]. intros _. left. by eexists. }
  rewrite new_source_slice_unfold.
  assert (geometry pixel_color Cutout2D o i =
            match tracked o i with
            | Some (start_pos, mid_pos, end_pos) =>
                match head (files o) with
                | Some _ =>
                    match Cutout2D (_adjust_stamp_midpoint pixel_color mid_pos)
                            (Pad.cutout_size (fst start_pos - fst end_pos)%Qc
                               (snd start_pos - snd end_pos)%Qc) with
                    | Ok c =>
                        Ok (MkStamp (fst (fst (bbox_original c)),
                                     snd (fst (bbox_original c)) + 1)%nat
                                    (fst (snd (bbox_original c)),
                                     snd (snd (bbox_original c)) + 1)%nat
                                    (_adjust_stamp_midpoint pixel_color mid_pos) c)
                    | Raise e => Raise e
                    end
                | None => Raise IndexError
                end
            | None => Raise IndexError
            end) as ->.
  { unfold geometry, tracked, new_source_slice, _get_stamp_points, iloc,
      bind, gets, lift, ret, raise, modify, of_option, id.
    set (m := (length (files o) / 2)%nat). simpl.
    destruct (loc o 0 i) as [start_pos|]; simpl; [|done].
    destruct (loc o m i) as [mid_pos|]; simpl; [|done].
    destruct (length (pixel_locations o)) as [|last]; simpl; [done|].
    destruct (loc o last i) as [end_pos|]; simpl; [|done].
    destruct (head (files o)); simpl; [|done].
    destruct (Cutout2D _ _) as [c|e]; simpl; [|done].
    by destruct (bbox_original c) as [xs ys]. }
  split.
  - intros [[? [=]]|(start_pos & mid_pos & end_pos & c & -> & Hfiles & ->)].
    destruct (files o) as [|file rest]; [done|]. simpl. by eexists _, _.
  - intros (o1 & stamp & Hret). right.
    destruct (tracked o i) as [[[start_pos mid_pos] end_pos]|]; [|done].
    destruct (files o) as [|file rest] eqn:Hfiles; [done|]. simpl in Hret.
    destruct (Cutout2D _ _) as [c|e] eqn:Hcut; [|done].
    exists start_pos, mid_pos, end_pos, c. by rewrite Hcut.
Qed.

(** C3. For every valid source index, a call of [get_source_slice] without
    [force_new] and with caching returns a stamp and caches it; a second call
    without [force_new] returns the identical stamp (row slice, column slice,
    adjusted midpoint, cutout) and leaves the observation as it is, whatever
    the collaborators would compute now: it is served from the cache. *)
Theorem get_source_slice_idempotent (i : nat) (o : Observation) :
  valid_source pixel_color Cutout2D o i →
  ∃ o1 stamp,
    get_source_slice pixel_color Cutout2D i false true o = (o1, Ok stamp) ∧
    _stamps_cache o1 !! i = Some stamp ∧
    ∀ pixel_color' Cutout2D' cache',
      get_source_slice pixel_color' Cutout2D' i false cache' o1 = (o1, Ok stamp).
Proof.
  intros Hvalid.
  destruct (proj1 (valid_source_returns i true o) Hvalid) as (o1 & stamp & Hfirst).
  exists o1, stamp. split; [done|]. exact (get_source_slice_cached i o o1 stamp Hfirst).
Qed.

(** C4: the fallback of [get_frame_stamp].  With no persisted dataset for
    the source, the slice geometry is computed and the stamp cut from the
    cube; asked to subtract the background (the default) the method then
    calls [subtract_background] with arguments it does not take and raises
    [TypeError] instead of returning the stamp. *)
Theorem get_frame_stamp_fallback_raises (i f : nat) (get_subtracted reshape_ force_new cache : bool)
    (o o1 : Observation) (ss : Stamp) (frame : image) :
  subtracted (_hdf5_subtracted o) !! i = None →
  get_source_slice pixel_color Cutout2D i force_new cache o = (o1, Ok ss) →
  data_cube o !! f = Some frame →
  get_frame_stamp pixel_color Cutout2D i f true get_subtracted reshape_ force_new cache o
    = (o1, Raise TypeError).
Proof.
  intros Hnone Hss Hframe.
  pose proof (get_source_slice_effect i force_new cache o) as (_ & _ & Hcube & _).
  rewrite Hss in Hcube. simpl in Hcube.
  unfold get_frame_stamp, try_except, bind, gets, lift, ret, raise, of_option, id.
  simpl. rewrite Hnone. simpl. rewrite Hss, Hcube, Hframe. done.
Qed.

(** Without background subtraction the fallback returns the frame of the
    cube [create_stamps] would have persisted for the source. *)
Lemma get_frame_stamp_fallback_plain (i f : nat) (get_subtracted reshape_ force_new cache : bool)
    (o o1 : Observation) (ss : Stamp) (frame : image) :
  subtracted (_hdf5_subtracted o) !! i = None →
  get_source_slice pixel_color Cutout2D i force_new cache o = (o1, Ok ss) →
  data_cube o !! f = Some frame →
  get_frame_stamp pixel_color Cutout2D i f false get_subtracted reshape_ force_new cache o
    = (o1, Ok (cut (row_slice ss) (col_slice ss) frame)) ∧
  map (cut (row_slice ss) (col_slice ss)) (data_cube o) !! f
    = Some (cut (row_slice ss) (col_slice ss) frame).
Proof.
  intros Hnone Hss Hframe.
  pose proof (get_source_slice_effect i force_new cache o) as (_ & _ & Hcube & _).
  rewrite Hss in Hcube. simpl in Hcube. split.
  - unfold get_frame_stamp, try_except, bind, gets, lift, ret, raise, of_option, id.
    simpl. rewrite Hnone. simpl. rewrite Hss, Hcube, Hframe. done.
  - change (map ?g ?l) with (g <$> l). by rewrite list_lookup_fmap, Hframe.
Qed.

(** *** [create_stamps] *)

Lemma materialize_unfold i o :
  materialize pixel_color Cutout2D i o =
    match get_source_slice pixel_color Cutout2D i false true o with
    | (o1, Ok ss) =>
        (set_hdf5_subtracted
           (set_subtracted i (map (cut (row_slice ss) (col_slice ss)) (data_cube o1))) o1,
         Ok ss)
    | (o1, Raise e) => (o1, Raise e)
    end.
Proof.
  unfold materialize, bind, gets, modify, ret, id.
  by destruct (get_source_slice _ _ _ _ _ _) as [o1 [ss|e]].
Qed.

Lemma create_stamp_unfold ss j o :
  create_stamp pixel_color Cutout2D ss j o =
    if decide (j ∈ dom (subtracted (_hdf5_subtracted o))) then (o, Ok ss)
    else match materialize pixel_color Cutout2D j o with
         | (o1, Ok ss') => (o1, Ok (Some ss'))
         | (o1, Raise e) => (log_warning j e o1, Ok ss)
         end.
Proof.
  unfold create_stamp, try_except, bind, gets, modify, ret, id. simpl.
  case_decide; [done|].
  by destruct (materialize _ _ _ _) as [o1 [ss'|e]].
Qed.

Lemma materialize_result i o :
  snd (materialize pixel_color Cutout2D i o) =
    match _stamps_cache o !! i with
    | Some st => Ok st
    | None => geometry pixel_color Cutout2D o i
    end.
Proof.
  rewrite materialize_unfold, get_source_slice_unfold.
  destruct (_stamps_cache o !! i); [done|].
  rewrite new_source_slice_unfold.
  by destruct (geometry pixel_color Cutout2D o i).
Qed.

Lemma materialize_result_frame i o o' :
  frame_for i o o' →
  snd (materialize pixel_color Cutout2D i o') = snd (materialize pixel_color Cutout2D i o).
Proof.
  intros (Hf & Hp & _ & Hc & _). rewrite !materialize_result, Hc.
  by rewrite (geometry_frame i o o').
Qed.

(** The [try] block for source [j]: on an exception the store is as before;
    otherwise the dataset of [j] is the cut cube.  Either way other sources'
    cache entries and datasets are left alone. *)
Lemma materialize_effect j o :
  let o1 := fst (materialize pixel_color Cutout2D j o) in
  files o1 = files o ∧ pixel_locations o1 = pixel_locations o ∧
  data_cube o1 = data_cube o ∧ warnings o1 = warnings o ∧
  (∀ k, k ≠ j → _stamps_cache o1 !! k = _stamps_cache o !! k ∧
                subtracted (_hdf5_subtracted o1) !! k
                  = subtracted (_hdf5_subtracted o) !! k) ∧
  match snd (materialize pixel_color Cutout2D j o) with
  | Raise _ => _hdf5_subtracted o1 = _hdf5_subtracted o
  | Ok ss => subtracted (_hdf5_subtracted o1) !! j
               = Some (map (cut (row_slice ss) (col_slice ss)) (data_cube o))
  end.
Proof.
  rewrite materialize_unfold.
  pose proof (get_source_slice_effect j false true o) as (Hf & Hp & Hd & Hh & Hw & Hk).
  destruct (get_source_slice _ _ _ _ _ _) as [o1 [ss|e]]; simpl in *.
  - split_and!; try done.
    + intros k Hne. split; [by apply Hk|]. by rewrite lookup_insert_ne, Hh.
    + by rewrite lookup_insert_eq, Hd.
  - split_and!; try done. intros k Hne. split; [by apply Hk|]. by rewrite Hh.
Qed.

Lemma create_stamp_returns ss j o :
  ∃ ss', snd (create_stamp pixel_color Cutout2D ss j o) = Ok ss'.
Proof.
  rewrite create_stamp_unfold. case_decide; [by eexists|].
  destruct (materialize _ _ _ _) as [o1 [ss'|e]]; by eexists.
Qed.

Lemma create_stamp_frame ss j o i :
  i ≠ j → frame_for i o (fst (create_stamp pixel_color Cutout2D ss j o)).
Proof.
  intros Hne. rewrite create_stamp_unfold. case_decide; [by unfold frame_for|].
  pose proof (materialize_effect j o) as (Hf & Hp & Hd & Hw & Hk & _).
  destruct (Hk i Hne) as [Hc Hs].
  destruct (materialize _ _ _ _) as [o1 [ss'|e]]; simpl in *;
    unfold frame_for; simpl; split_and!; try done.
  - intros e'. by rewrite Hw.
  - intros e'. rewrite Hw, elem_of_app, list_elem_of_singleton.
    split; [intros [?|[= ? ?]]; done|by left].
Qed.

Lemma create_stamp_self ss j o :
  j ∉ dom (subtracted (_hdf5_subtracted o)) →
  outcome_of j (snd (materialize pixel_color Cutout2D j o)) o
    (fst (create_stamp pixel_color Cutout2D ss j o)).
Proof.
  intros Hj. rewrite create_stamp_unfold, decide_False by done.
  pose proof (materialize_effect j o) as (_ & _ & _ & Hw & _ & Hres).
  destruct (materialize _ _ _ _) as [o1 [ss'|e]]; simpl in *; [done|].
  rewrite Hres. split; [by apply not_elem_of_dom|].
  rewrite Hw, elem_of_app, list_elem_of_singleton. by right.
Qed.

Lemma frame_for_trans i o1 o2 o3 : frame_for i o1 o2 → frame_for i o2 o3 → frame_for i o1 o3.
Proof.
  intros (? & ? & ? & ? & ? & Hw1) (? & ? & ? & ? & ? & Hw2).
  unfold frame_for. split_and!; try congruence.
  intros e. by rewrite Hw2, Hw1.
Qed.

Lemma create_stamps_loop_returns index : ∀ ss o,
  ∃ ss', snd (create_stamps_loop pixel_color Cutout2D ss index o) = Ok ss'.
Proof.
  induction index as [|j index IH]; intros ss o; simpl; [by eexists|].
  unfold bind. destruct (create_stamp_returns ss j o) as [ss1 H1].
  destruct (create_stamp _ _ _ _ _) as [o1 r]. simpl in H1. subst r. apply IH.
Qed.

Lemma create_stamps_loop_frame index i : ∀ ss o,
  i ∉ index → frame_for i o (fst (create_stamps_loop pixel_color Cutout2D ss index o)).
Proof.
  induction index as [|j index IH]; intros ss o Hi; simpl; [by unfold frame_for|].
  apply not_elem_of_cons in Hi as [Hne Hi]. unfold bind.
  pose proof (create_stamp_frame ss j o i Hne) as Hstep.
  destruct (create_stamp_returns ss j o) as [ss1 H1].
  destruct (create_stamp _ _ _ _ _) as [o1 r]. simpl in *. subst r.
  eapply frame_for_trans; [done|]. by apply IH.
Qed.

Lemma create_stamps_loop_keeps index i c : ∀ ss o,
  subtracted (_hdf5_subtracted o) !! i = Some c →
  subtracted (_hdf5_subtracted (fst (create_stamps_loop pixel_color Cutout2D ss index o))) !! i
    = Some c.
Proof.
  induction index as [|j index IH]; intros ss o Hc; simpl; [done|].
  unfold bind.
  assert (subtracted (_hdf5_subtracted (fst (create_stamp pixel_color Cutout2D ss j o))) !! i
          = Some c) as Hstep.
  { destruct (decide (i = j)) as [->|Hne].
    - rewrite create_stamp_unfold, decide_True; [done|]. by apply elem_of_dom.
    - destruct (create_stamp_frame ss j o i Hne) as (_ & _ & _ & _ & Hs & _).
      by rewrite Hs. }
  destruct (create_stamp_returns ss j o) as [ss1 H1].
  destruct (create_stamp _ _ _ _ _) as [o1 r]. simpl in *. subst r. by apply IH.
Qed.

Lemma outcome_of_frame i r o o1 o2 :
  data_cube o1 = data_cube o → outcome_of i r o1 o2 → outcome_of i r o o2.
Proof. intros Hd. unfold outcome_of. by rewrite Hd. Qed.

Lemma create_stamps_loop_outcome index : NoDup index → ∀ ss o i,
  i ∈ index → i ∉ dom (subtracted (_hdf5_subtracted o)) →
  outcome_of i (snd (materialize pixel_color Cutout2D i o)) o
    (fst (create_stamps_loop pixel_color Cutout2D ss index o)).
Proof.
  induction 1 as [|j index Hj Hnd IH]; intros ss o i Hi Hdom; [by apply elem_of_nil in Hi|].
  simpl. unfold bind.
  destruct (create_stamp_returns ss j o) as [ss1 H1].
  destruct (create_stamp pixel_color Cutout2D ss j o) as [o1 r] eqn:Hstep.
  simpl in H1. subst r.
  apply elem_of_cons in Hi as [->|Hi].
  - pose proof (create_stamp_self ss j o Hdom) as Hself. rewrite Hstep in Hself.
    simpl in Hself.
    destruct (create_stamps_loop_frame index j ss1 o1 Hj) as (_ & _ & _ & _ & Hs & Hw).
    unfold outcome_of in *.
    destruct (snd (materialize pixel_color Cutout2D j o)) as [st|e].
    + by rewrite Hs.
    + rewrite Hs, Hw. done.
  - assert (i ≠ j) as Hne by (intros ->; done).
    pose proof (create_stamp_frame ss j o i Hne) as Hfr. rewrite Hstep in Hfr.
    simpl in Hfr.
    rewrite <- (materialize_result_frame i o o1 Hfr).
    destruct Hfr as (_ & _ & Hd & _ & Hs & _).
    eapply outcome_of_frame; [done|]. apply IH; [done|].
    rewrite not_elem_of_dom in *. by rewrite Hs.
Qed.

(** C9. [create_stamps] never raises.  For every source without a dataset,
    if materializing its stamp cube raises, the exception is logged as a
    warning for that source and no dataset is stored for it; otherwise its
    cube, cut at the stamp's slices, is stored.  This holds for every source
    of the batch, whatever happened to the sources before it; datasets that
    were already there are kept. *)
Theorem create_stamps_isolates_failures (num_sources : nat) (o : Observation) :
  let o' := fst (create_stamps pixel_color Cutout2D num_sources o) in
  snd (create_stamps pixel_color Cutout2D num_sources o) = Ok tt ∧
  (∀ i, (i < num_sources)%nat →
        subtracted (_hdf5_subtracted o) !! i = None →
        outcome_of i (snd (materialize pixel_color Cutout2D i o)) o o') ∧
  (∀ i c, subtracted (_hdf5_subtracted o) !! i = Some c →
          subtracted (_hdf5_subtracted o') !! i = Some c).
Proof.
  unfold create_stamps, bind.
  destruct (create_stamps_loop_returns (seq 0 num_sources) None o) as [ss Hret].
  pose proof (create_stamps_loop_outcome (seq 0 num_sources) (NoDup_seq 0 num_sources) None o)
    as Hout.
  pose proof (λ i c, create_stamps_loop_keeps (seq 0 num_sources) i c None o) as Hkeep.
  destruct (create_stamps_loop _ _ _ _ _) as [o1 r]. simpl in *. subst r.
  assert (∀ i, (i < num_sources)%nat →
            subtracted (_hdf5_subtracted o) !! i = None →
            outcome_of i (snd (materialize pixel_color Cutout2D i o)) o o1) as Hout'.
  { intros i Hi Hnone. apply Hout; [apply elem_of_seq; lia|by apply not_elem_of_dom]. }
  destruct ss as [ss|]; simpl; by split_and!.
Qed.

End StampFacts.

Lemma get_source_slice_idempotent_witness :
  ∃ o1 stamp,
    Stamps.get_source_slice Stamps.blue Stamps.cutout_2x2 0 false true Stamps.one_frame
      = (o1, Ok stamp) ∧
    Stamps._stamps_cache o1 !! 0%nat = Some stamp ∧
    ∀ pixel_color' Cutout2D' cache',
      Stamps.get_source_slice pixel_color' Cutout2D' 0 false cache' o1 = (o1, Ok stamp).
Proof.
  apply (get_source_slice_idempotent Stamps.blue Stamps.cutout_2x2 0 Stamps.one_frame).
  right. eexists _, _, _, _. split; [reflexivity|]. split; [done|reflexivity].
Defined.

Lemma create_stamps_isolates_failures_witness :
  let o := Stamps.two_in_frame in
  let o' := fst (Stamps.create_stamps Stamps.blue Stamps.cutout_right_of_50 2 o) in
  snd (Stamps.create_stamps Stamps.blue Stamps.cutout_right_of_50 2 o) = Ok tt ∧
  (subtracted (Stamps._hdf5_subtracted o') !! 0%nat = None ∧
   (0%nat, NoOverlapError) ∈ Stamps.warnings o') ∧
  subtracted (Stamps._hdf5_subtracted o') !! 1%nat
    = Some [[[Qc_of_Z 1; Qc_of_Z 2]; [Qc_of_Z 4; Qc_of_Z 5]]].
Proof.
  intros o o'.
  destruct (create_stamps_isolates_failures Stamps.blue Stamps.cutout_right_of_50 2 o)
    as (Hret & Hout & _).
  split; [exact Hret|]. split.
  - exact (Hout 0%nat ltac:(lia) eq_refl).
  - exact (Hout 1%nat ltac:(lia) eq_refl).
Defined.

Lemma get_frame_stamp_fallback_raises_witness :
  ∃ o1, Stamps.get_frame_stamp Stamps.blue Stamps.cutout_2x2 0 0 true true false false true
          Stamps.one_frame = (o1, Raise TypeError).
Proof.
  eexists.
  eapply (get_frame_stamp_fallback_raises Stamps.blue Stamps.cutout_2x2 0 0 true false
            false true Stamps.one_frame); [reflexivity|lazy; reflexivity|reflexivity].
Defined.

(** ** The background cache *)

Section BackgroundFacts.
Import Background Pixels.
Context (make_source_mask : image → mask) (make_masks : image → mask * mask * mask)
        (sigma_clipped_stats : image → mask → stats).

Lemma region_dict_store f c ch l s f' c' :
  region_dict (store_samples f c ch l s) f' c' =
    if decide (f = f' ∧ c = c') then insert ch l <$> region_dict s f c
    else region_dict s f' c'.
Proof.
  unfold region_dict, store_samples. simpl.
  destruct (decide (f = f')) as [<-|Hf].
  - rewrite lookup_alter_eq. destruct (background_region s !! f) as [fb|]; simpl.
    + destruct (decide (c = c')) as [<-|Hc].
      * rewrite decide_True by done. by rewrite lookup_alter_eq.
      * rewrite decide_False by (by intros [_ ?]). by rewrite lookup_alter_ne.
    + by case_decide.
  - rewrite decide_False by (by intros [? _]). by rewrite lookup_alter_ne.
Qed.

Lemma samples_store f c ch l s f' c' ch' :
  is_Some (region_dict s f c) →
  samples (store_samples f c ch l s) f' c' ch' =
    if decide (f = f' ∧ c = c' ∧ ch = ch') then Some l else samples s f' c' ch'.
Proof.
  intros [reg Hreg]. unfold samples. rewrite region_dict_store.
  destruct (decide (f = f' ∧ c = c')) as [[<- <-]|Hne].
  - rewrite Hreg. simpl. destruct (decide (ch = ch')) as [<-|Hch].
    + rewrite decide_True by done. by rewrite lookup_insert_eq.
    + rewrite decide_False by (by intros (_ & _ & ?)). by rewrite lookup_insert_ne.
  - rewrite decide_False; [done|]. intros (? & ? & _). by apply Hne.
Qed.

Lemma region_dict_store_is_Some f c ch l s f' c' :
  is_Some (region_dict s f' c') → is_Some (region_dict (store_samples f c ch l s) f' c').
Proof.
  intros H. rewrite region_dict_store. case_decide as E; [|done].
  destruct E as [-> ->]. destruct H as [reg ->]. by eexists.
Qed.

Lemma samples_ensure_frame f s f' c' ch :
  samples (ensure_frame f s) f' c' ch = samples s f' c' ch.
Proof.
  unfold ensure_frame. destruct (background_region s !! f) eqn:E; [done|].
  unfold samples, region_dict. simpl.
  destruct (decide (f = f')) as [<-|Hne].
  - by rewrite lookup_insert_eq, E.
  - by rewrite lookup_insert_ne.
Qed.

Lemma ensure_frame_is_Some f s : is_Some (background_region (ensure_frame f s) !! f).
Proof.
  unfold ensure_frame. destruct (background_region s !! f) eqn:E; [by eexists|].
  simpl. rewrite lookup_insert_eq. by eexists.
Qed.

Lemma samples_ensure_cell f c s f' c' ch :
  samples (ensure_cell f c s) f' c' ch = samples s f' c' ch.
Proof.
  unfold ensure_cell. destruct (region_dict s f c) eqn:E; [done|].
  unfold samples, region_dict in *. simpl.
  destruct (decide (f = f')) as [<-|Hne]; [|by rewrite lookup_alter_ne].
  rewrite lookup_alter_eq. destruct (background_region s !! f) as [fb|]; [|done].
  simpl in *. destruct (decide (c = c')) as [<-|Hc].
  - by rewrite lookup_insert_eq, E.
  - by rewrite lookup_insert_ne.
Qed.

Lemma ensure_cell_is_Some f c s :
  is_Some (background_region s !! f) → is_Some (region_dict (ensure_cell f c s) f c).
Proof.
  intros [fb Hfb]. unfold ensure_cell.
  destruct (region_dict s f c) eqn:E; [by rewrite E|].
  unfold region_dict. simpl. rewrite lookup_alter_eq, Hfb. simpl.
  rewrite lookup_insert_eq. by eexists.
Qed.

Lemma trio_match {A B} (o1 o2 o3 : option A) (x : A → A → A → B) (y : B) :
  ¬ (is_Some o1 ∧ is_Some o2 ∧ is_Some o3) →
  match o1, o2, o3 with Some a, Some b, Some c => x a b c | _, _, _ => y end = y.
Proof. destruct o1, o2, o3; try done. intros []. eauto. Qed.

Lemma samples_same_region s s' :
  background_region s' = background_region s →
  ∀ f c ch, samples s' f c ch = samples s f c ch.
Proof. intros H f c ch. unfold samples, region_dict. by rewrite H. Qed.

(** The lists a call starts from: the cached ones, or fresh empty ones that
    are put in the cache only when [store_background] is set. *)
Lemma channel_lists_spec f c store s :
  ∃ s1 r g b held,
    channel_lists f c store s = (s1, Ok (r, g, b, held)) ∧
    is_Some (region_dict s1 f c) ∧ same_attrs s s1 ∧
    (held = true → samples s1 f c red = Some r ∧ samples s1 f c green = Some g ∧
                   samples s1 f c blue = Some b) ∧
    ((samples s f c red = Some r ∧ samples s f c green = Some g ∧
      samples s f c blue = Some b ∧ held = true ∧
      ∀ f' c' ch, samples s1 f' c' ch = samples s f' c' ch) ∨
     (¬ cached s f c ∧ r = [] ∧ g = [] ∧ b = [] ∧ held = store ∧
      ∀ f' c' ch, samples s1 f' c' ch =
                    if store && bool_decide (f' = f ∧ c' = c) then Some []
                    else samples s f' c' ch)).
Proof.
  set (sb := ensure_cell f c (ensure_frame f s)).
  assert (∀ f' c' ch, samples sb f' c' ch = samples s f' c' ch) as Hsame.
  { intros. unfold sb. by rewrite samples_ensure_cell, samples_ensure_frame. }
  assert (is_Some (region_dict sb f c)) as Hreg.
  { apply ensure_cell_is_Some, ensure_frame_is_Some. }
  assert (same_attrs s sb) as Hattrs.
  { unfold sb, ensure_cell, ensure_frame, same_attrs.
    by repeat (case_match; simpl). }
  unfold channel_lists, bind, modify, gets, ret, id. simpl. fold sb.
  rewrite !Hsame.
  destruct (decide (cached s f c)) as [([r Er] & [g Eg] & [b Eb])|Hnc].
  { rewrite Er, Eg, Eb. eexists sb, r, g, b, true. split; [done|]. split; [done|].
    split; [done|].
    split; [intros _; by rewrite !Hsame|]. left. by split_and!. }
  rewrite trio_match by done.
  destruct store.
  - eexists _, [], [], [], true. split; [done|].
    assert (∀ f' c' ch,
              samples (store_samples f c blue [] (store_samples f c green []
                         (store_samples f c red [] sb))) f' c' ch
              = if bool_decide (f' = f ∧ c' = c) then Some [] else samples s f' c' ch)
      as Hview.
    { intros f' c' ch.
      rewrite !samples_store by (repeat apply region_dict_store_is_Some; done).
      rewrite Hsame.
      destruct (decide (f' = f ∧ c' = c)) as [[-> ->]|Hne].
      - rewrite bool_decide_eq_true_2 by done.
        destruct ch; repeat case_decide; try done; intuition congruence.
      - rewrite bool_decide_eq_false_2 by done.
        repeat case_decide; try done; exfalso; apply Hne; intuition congruence. }
    split; [by repeat apply region_dict_store_is_Some|].
    split; [done|].
    split.
    + intros _. rewrite !Hview, bool_decide_eq_true_2 by done. done.
    + right. by split_and!.
  - eexists _, [], [], [], false. split; [done|]. split; [done|].
    split; [done|]. split; [done|]. right. by split_and!.
Qed.

Lemma samples_store_held (held : bool) f c ch l s f' c' ch' :
  is_Some (region_dict s f c) →
  samples (if held then store_samples f c ch l s else s) f' c' ch' =
    if bool_decide (held = true ∧ f' = f ∧ c' = c ∧ ch' = ch) then Some l
    else samples s f' c' ch'.
Proof.
  intros Hreg. destruct held.
  - rewrite samples_store by done.
    destruct (decide (f = f' ∧ c = c' ∧ ch = ch')) as [(-> & -> & ->)|Hne].
    + by rewrite bool_decide_eq_true_2.
    + rewrite bool_decide_eq_false_2; [done|].
      intros (_ & -> & -> & ->). by apply Hne.
  - by rewrite bool_decide_eq_false_2 by (by intros [? _]).
Qed.

Lemma append_sample_unfold f c ch held l stamp c_mask s :
  append_sample sigma_clipped_stats f c ch held l stamp
    (make_source_mask stamp) c_mask s =
    match sample_of make_source_mask sigma_clipped_stats stamp c_mask with
    | Ok x => ((if held then store_samples f c ch (l ++ [x]) s else s), Ok (l ++ [x]))
    | Raise e => (s, Raise e)
    end.
Proof.
  unfold append_sample, sample_of, bind, lift, modify, ret.
  destruct (logical_or_not _ _) as [ex|e]; [|done].
  destruct (fit_mask stamp ex) as [ex'|e]; [|done].
  by destruct held.
Qed.

Lemma rgb_masks_spec stamp masks s :
  ∃ s' m, rgb_masks make_masks stamp masks s = (s', Ok m) ∧
          background_region s' = background_region s ∧
          _back_w s' = _back_w s ∧ _back_h s' = _back_h s ∧
          m = masks_used make_masks stamp masks.1.1 masks.1.2 masks.2.
Proof.
  unfold rgb_masks, masks_used.
  destruct masks as [[[rm|] [gm|]] [bm|]];
    eexists _, _; (split; [reflexivity|]); by split_and!.
Qed.

(** The sampling block: it appends to the three lists in the order red,
    green, blue, [n] of them before it returns or raises, and only when the
    red list is shorter than 5. *)
Lemma collect_samples_spec f c stamp masks r g b held s1 :
  is_Some (region_dict s1 f c) →
  (held = true → samples s1 f c red = Some r ∧ samples s1 f c green = Some g ∧
                 samples s1 f c blue = Some b) →
  ∃ s2 res n,
    collect_samples make_source_mask make_masks sigma_clipped_stats f c stamp masks
      (r, g, b, held) s1 = (s2, res) ∧
    same_attrs s1 s2 ∧
    (n = 0 ∨ length r < 5)%nat ∧
    (∀ f' c' ch, ¬ (held = true ∧ f' = f ∧ c' = c ∧ channel_index ch < n)%nat →
                 samples s2 f' c' ch = samples s1 f' c' ch) ∧
    (held = true → ∀ ch, (channel_index ch < n)%nat →
                   ∃ x, samples s2 f c ch = Some (pick ch r g b ++ [x])) ∧
    match res with
    | Ok (r', g', b', masks') =>
        (held = true → samples s2 f c red = Some r' ∧ samples s2 f c green = Some g' ∧
                       samples s2 f c blue = Some b') ∧
        (((length r < 5)%nat ∧
          ∃ rm gm bm xr xg xb,
            masks' = (Some rm, Some gm, Some bm) ∧
            (rm, gm, bm) = masks_used make_masks stamp masks.1.1 masks.1.2 masks.2 ∧
            sample_of make_source_mask sigma_clipped_stats stamp rm = Ok xr ∧
            sample_of make_source_mask sigma_clipped_stats stamp gm = Ok xg ∧
            sample_of make_source_mask sigma_clipped_stats stamp bm = Ok xb ∧
            r' = r ++ [xr] ∧ g' = g ++ [xg] ∧ b' = b ++ [xb]) ∨
         ((5 ≤ length r)%nat ∧ r' = r ∧ g' = g ∧ b' = b ∧ masks' = masks))
    | Raise _ => True
    end.
Proof.
  intros Hreg Hlinked. unfold collect_samples.
  destruct (decide (length r < 5)%nat) as [Hlt|Hge]; cycle 1.
  { eexists s1, _, 0%nat. split; [reflexivity|]. split; [done|]. split; [by left|].
    split; [done|]. split; [intros _ ch ?; lia|].
    split; [done|]. right. split_and!; try done. lia. }
  unfold bind at 1.
  destruct (rgb_masks_spec stamp masks s1) as (sm & [[rm gm] bm] & -> & Hbr & Hbw & Hbh & Hm).
  assert (∀ held ch l s, same_attrs s1 s →
            same_attrs s1 (if held : bool then store_samples f c ch l s else s)) as Hat.
  { intros [] ???; done. }
  assert (same_attrs s1 sm) as Ham by done.
  pose proof (samples_same_region s1 sm Hbr) as Hsm.
  assert (is_Some (region_dict sm f c)) as Hregm by (unfold region_dict; by rewrite Hbr).
  unfold bind. rewrite !append_sample_unfold.
  destruct (sample_of _ _ stamp rm) as [xr|e] eqn:Exr; cycle 1.
  { eexists sm, _, 0%nat. split; [reflexivity|]. split; [done|]. split; [by left|].
    split; [intros; apply Hsm|]. split; [intros _ ch ?; lia|]. done. }
  set (sr := if held then store_samples f c red (r ++ [xr]) sm else sm).
  assert (is_Some (region_dict sr f c)) as Hregr.
  { unfold sr. destruct held; [by apply region_dict_store_is_Some|done]. }
  assert (∀ f' c' ch, samples sr f' c' ch =
            if bool_decide (held = true ∧ f' = f ∧ c' = c ∧ ch = red)
            then Some (r ++ [xr]) else samples s1 f' c' ch) as Hsr.
  { intros f' c' ch. unfold sr. by rewrite samples_store_held, Hsm. }
  rewrite append_sample_unfold.
  destruct (sample_of _ _ stamp gm) as [xg|e] eqn:Exg; cycle 1.
  { eexists sr, _, 1%nat. split; [reflexivity|]. split; [by apply Hat|].
    split; [by right|].
    split.
    - intros f' c' ch Hn. rewrite Hsr, bool_decide_eq_false_2; [done|].
      intros (? & ? & ? & ->). apply Hn. simpl. split_and!; try done. lia.
    - split; [|done]. intros Hh [] Hlt'; simpl in Hlt'; try lia.
      exists xr. by rewrite Hsr, bool_decide_eq_true_2. }
  set (sg := if held then store_samples f c green (g ++ [xg]) sr else sr).
  assert (is_Some (region_dict sg f c)) as Hregg.
  { unfold sg. destruct held; [by apply region_dict_store_is_Some|done]. }
  assert (∀ f' c' ch, samples sg f' c' ch =
            if bool_decide (held = true ∧ f' = f ∧ c' = c ∧ ch = green)
            then Some (g ++ [xg]) else samples sr f' c' ch) as Hsg.
  { intros f' c' ch. unfold sg. by rewrite samples_store_held. }
  rewrite append_sample_unfold.
  destruct (sample_of _ _ stamp bm) as [xb|e] eqn:Exb; cycle 1.
  { eexists sg, _, 2%nat. split; [reflexivity|]. split; [by apply Hat, Hat|].
    split; [by right|].
    split.
    - intros f' c' ch Hn. rewrite Hsg, Hsr.
      rewrite !bool_decide_eq_false_2; [done|..];
        intros (? & ? & ? & ->); apply Hn; simpl; split_and!; try done; lia.
    - split; [|done]. intros Hh [] Hlt'; simpl in Hlt'; try lia.
      + exists xr. rewrite Hsg, Hsr, bool_decide_eq_false_2 by (by intros (_ & _ & _ & ?)).
        by rewrite bool_decide_eq_true_2.
      + exists xg. by rewrite Hsg, bool_decide_eq_true_2. }
  set (sb := if held then store_samples f c blue (b ++ [xb]) sg else sg).
  assert (∀ f' c' ch, samples sb f' c' ch =
            if bool_decide (held = true ∧ f' = f ∧ c' = c ∧ ch = blue)
            then Some (b ++ [xb]) else samples sg f' c' ch) as Hsb.
  { intros f' c' ch. unfold sb. by rewrite samples_store_held. }
  assert (held = true → samples sb f c red = Some (r ++ [xr]) ∧
                        samples sb f c green = Some (g ++ [xg]) ∧
                        samples sb f c blue = Some (b ++ [xb])) as Hall.
  { intros Hh. rewrite !Hsb, !Hsg, !Hsr.
    rewrite (bool_decide_eq_false_2 (_ ∧ _ ∧ _ ∧ red = blue)) by (by intros (_ & _ & _ & ?)).
    rewrite (bool_decide_eq_false_2 (_ ∧ _ ∧ _ ∧ red = green)) by (by intros (_ & _ & _ & ?)).
    rewrite (bool_decide_eq_false_2 (_ ∧ _ ∧ _ ∧ green = blue)) by (by intros (_ & _ & _ & ?)).
    by rewrite !bool_decide_eq_true_2. }
  eexists sb, _, 3%nat. split; [reflexivity|]. split; [by apply Hat, Hat, Hat|].
  split; [by right|].
  split.
  { intros f' c' ch Hn. rewrite Hsb, Hsg, Hsr.
    rewrite !bool_decide_eq_false_2; [done|..];
      intros (? & ? & ? & ->); apply Hn; simpl; split_and!; try done; lia. }
  split.
  { intros Hh ch _. destruct (Hall Hh) as (? & ? & ?). destruct ch; simpl; eauto. }
  split; [done|]. left. split; [done|].
  exists rm, gm, bm, xr, xg, xb. by split_and!.
Qed.

Lemma background_region_id_pure mp s : fst (background_region_id mp s) = s.
Proof.
  unfold background_region_id, bind, lift, gets, ret, of_option, floordiv, id.
  destruct mp as [mp|]; simpl; [|done].
  destruct (_back_w s) as [bw|]; simpl; [|done].
  destruct (decide (bw = 0%Qc)); simpl; [done|].
  destruct (_back_h s) as [bh|]; simpl; [|done].
  by destruct (decide (bh = 0%Qc)).
Qed.

Lemma cell_of_same_attrs s s' mp : same_attrs s s' → cell_of s' mp = cell_of s mp.
Proof.
  intros [Hw Hh].
  unfold cell_of, background_region_id, bind, lift, gets, ret, of_option, floordiv, id.
  destruct mp as [mp|]; simpl; [|done]. rewrite Hw, Hh.
  destruct (_back_w s) as [bw|]; simpl; [|done].
  destruct (decide (bw = 0%Qc)); simpl; [done|].
  destruct (_back_h s) as [bh|]; simpl; [|done].
  by destruct (decide (bh = 0%Qc)).
Qed.

Lemma subtract_frame_background_unfold stamp f rm gm bm mp method store s :
  subtract_frame_background make_source_mask make_masks sigma_clipped_stats
    stamp f rm gm bm mp method store s =
    match cell_of s mp with
    | Raise e => (s, Raise e)
    | Ok c =>
        match channel_lists f c store s with
        | (s1, Ok lists) =>
            match collect_samples make_source_mask make_masks sigma_clipped_stats
                    f c stamp (rm, gm, bm) lists s1 with
            | (s2, Ok (r, g, b, masks)) => (s2, subtract_medians stamp method r g b masks)
            | (s2, Raise e) => (s2, Raise e)
            end
        | (s1, Raise e) => (s1, Raise e)
        end
    end.
Proof.
  unfold subtract_frame_background, cell_of. unfold bind at 1.
  pose proof (background_region_id_pure mp s) as Hpure.
  destruct (background_region_id mp s) as [s0 [c|e]]; simpl in *; subst s0; [|done].
  unfold bind at 1. destruct (channel_lists f c store s) as [s1 [lists|e]]; [|done].
  unfold bind, lift.
  destruct (collect_samples _ _ _ _ _ _ _ _ _) as [s2 [[[[r g] b] masks]|e]]; done.
Qed.

(** Everything the proofs below need to know about one call that got as
    far as its cell. *)
Lemma subtract_frame_background_spec stamp f rm gm bm mp method store s c :
  cell_of s mp = Ok c →
  ∃ s1 r g b held s2 res n,
    subtract_frame_background make_source_mask make_masks sigma_clipped_stats
      stamp f rm gm bm mp method store s
      = (s2, match res with
             | Ok (r', g', b', masks') => subtract_medians stamp method r' g' b' masks'
             | Raise e => Raise e
             end) ∧
    same_attrs s s2 ∧
    (held = true → samples s1 f c red = Some r ∧ samples s1 f c green = Some g ∧
                   samples s1 f c blue = Some b) ∧
    ((samples s f c red = Some r ∧ samples s f c green = Some g ∧
      samples s f c blue = Some b ∧ held = true ∧
      ∀ f' c' ch, samples s1 f' c' ch = samples s f' c' ch) ∨
     (¬ cached s f c ∧ r = [] ∧ g = [] ∧ b = [] ∧ held = store ∧
      ∀ f' c' ch, samples s1 f' c' ch =
                    if store && bool_decide (f' = f ∧ c' = c) then Some []
                    else samples s f' c' ch)) ∧
    (n = 0 ∨ length r < 5)%nat ∧
    (∀ f' c' ch, ¬ (held = true ∧ f' = f ∧ c' = c ∧ channel_index ch < n)%nat →
                 samples s2 f' c' ch = samples s1 f' c' ch) ∧
    (held = true → ∀ ch, (channel_index ch < n)%nat →
                   ∃ x, samples s2 f c ch = Some (pick ch r g b ++ [x])) ∧
    match res with
    | Ok (r', g', b', masks') =>
        (held = true → samples s2 f c red = Some r' ∧ samples s2 f c green = Some g' ∧
                       samples s2 f c blue = Some b') ∧
        (((length r < 5)%nat ∧
          ∃ rm' gm' bm' xr xg xb,
            masks' = (Some rm', Some gm', Some bm') ∧
            (rm', gm', bm') = masks_used make_masks stamp rm gm bm ∧
            sample_of make_source_mask sigma_clipped_stats stamp rm' = Ok xr ∧
            sample_of make_source_mask sigma_clipped_stats stamp gm' = Ok xg ∧
            sample_of make_source_mask sigma_clipped_stats stamp bm' = Ok xb ∧
            r' = r ++ [xr] ∧ g' = g ++ [xg] ∧ b' = b ++ [xb]) ∨
         ((5 ≤ length r)%nat ∧ r' = r ∧ g' = g ∧ b' = b ∧ masks' = (rm, gm, bm)))
    | Raise _ => True
    end.
Proof.
  intros Hc. rewrite subtract_frame_background_unfold, Hc.
  destruct (channel_lists_spec f c store s)
    as (s1 & r & g & b & held & -> & Hreg & [Hw1 Hh1] & Hlinked & Hcase).
  destruct (collect_samples_spec f c stamp (rm, gm, bm) r g b held s1 Hreg Hlinked)
    as (s2 & res & n & -> & [Hw2 Hh2] & Hn & Hframe & Happ & Hres).
  exists s1, r, g, b, held, s2, res, n.
  split; [by destruct res as [[[[??]?]?]|]|].
  split; [split; congruence|]. done.
Qed.

Lemma state_ok_capped s : state_ok s → capped s.
Proof.
  intros Hok f c ch l Hl.
  destruct (Hok f c) as [(Hr & Hg & Hb)|(r & g & b & Hr & Hg & Hb & ? & ? & ?)];
    destruct ch; simplify_eq; lia.
Qed.

Lemma state_ok_initial bw bh : state_ok (initial bw bh).
Proof. intros f c. by left. Qed.

(** Where the sampling block leaves the three lists of the cell it works
    on, when they are held by the cache. *)
Lemma sampled_lists s1 s2 f c r g b n :
  samples s1 f c red = Some r → samples s1 f c green = Some g →
  samples s1 f c blue = Some b →
  (∀ ch, ¬ (channel_index ch < n)%nat → samples s2 f c ch = samples s1 f c ch) →
  (∀ ch, (channel_index ch < n)%nat → ∃ x, samples s2 f c ch = Some (pick ch r g b ++ [x])) →
  ∀ ch, ∃ l', samples s2 f c ch = Some l' ∧
        ((¬ (channel_index ch < n)%nat ∧ l' = pick ch r g b) ∨
         ((channel_index ch < n)%nat ∧ ∃ x, l' = pick ch r g b ++ [x])).
Proof.
  intros Hr Hg Hb Hsame Happ ch.
  destruct (decide (channel_index ch < n)%nat) as [Hlt|Hge].
  - destruct (Happ ch Hlt) as [x Hx]. exists (pick ch r g b ++ [x]). eauto 10.
  - exists (pick ch r g b). rewrite (Hsame ch Hge). split; [by destruct ch|]. by left.
Qed.

Lemma subtract_frame_background_state_ok stamp f rm gm bm mp method store s :
  state_ok s →
  let s' := fst (subtract_frame_background make_source_mask make_masks
                   sigma_clipped_stats stamp f rm gm bm mp method store s) in
  state_ok s' ∧ ∀ f' c' ch, grows (samples s f' c' ch) (samples s' f' c' ch).
Proof.
  intros Hok.
  destruct (cell_of s mp) as [c|e] eqn:Hc; cycle 1.
  { rewrite subtract_frame_background_unfold, Hc. simpl. split; [done|]. by left. }
  destruct (subtract_frame_background_spec stamp f rm gm bm mp method store s c Hc)
    as (s1 & r & g & b & held & s2 & res & n & -> & _ & Hlinked & Hcase & Hn & Hframe &
        Happ & _).
  simpl.
  (* the lists the call starts from satisfy the length order *)
  assert ((length b ≤ length g)%nat ∧ (length g ≤ length r)%nat ∧ (length r ≤ 5)%nat)
    as (Hbg & Hgr & Hr5).
  { destruct Hcase as [(Hr & Hg & Hb & _)|(_ & -> & -> & -> & _)]; [|simpl; lia].
    destruct (Hok f c) as [(? & ? & ?)|(r0 & g0 & b0 & ? & ? & ? & ? & ? & ?)];
      simplify_eq; lia. }
  destruct held; cycle 1.
  { (* nothing is held by the cache: nothing changes *)
    assert (∀ f' c' ch, samples s2 f' c' ch = samples s f' c' ch) as Hview.
    { intros f' c' ch. rewrite Hframe by (by intros [? _]).
      destruct Hcase as [(_ & _ & _ & ? & _)|(_ & _ & _ & _ & <- & ->)]; done. }
    split; [|intros; left; apply Hview].
    intros f' c'. specialize (Hok f' c'). unfold trio_ok in *. by rewrite !Hview. }
  destruct (Hlinked eq_refl) as (Hr1 & Hg1 & Hb1).
  pose proof (sampled_lists s1 s2 f c r g b n Hr1 Hg1 Hb1
                ltac:(intros ch Hch; apply Hframe; by intros (_ & _ & _ & ?))
                (Happ eq_refl)) as Hafter.
  assert (∀ f' c' ch, ¬ (f' = f ∧ c' = c) → samples s2 f' c' ch = samples s f' c' ch)
    as Hother.
  { intros f' c' ch Hne. rewrite Hframe by (by intros (_ & ? & ? & _); apply Hne).
    destruct Hcase as [(_ & _ & _ & _ & ->)|(_ & _ & _ & _ & _ & ->)]; [done|].
    rewrite bool_decide_eq_false_2 by done. by rewrite andb_false_r. }
  split.
  - intros f' c'. destruct (decide (f' = f ∧ c' = c)) as [[-> ->]|Hne].
    + right.
      destruct (Hafter red) as (r' & Hr' & Hrl).
      destruct (Hafter green) as (g' & Hg' & Hgl).
      destruct (Hafter blue) as (b' & Hb' & Hbl).
      exists r', g', b'. split_and!; try done.
      * destruct Hgl as [[? ->]|[? [? ->]]], Hbl as [[? ->]|[? [? ->]]];
          simpl in *; rewrite ?length_app; simpl; lia.
      * destruct Hrl as [[? ->]|[? [? ->]]], Hgl as [[? ->]|[? [? ->]]];
          simpl in *; rewrite ?length_app; simpl; lia.
      * destruct Hrl as [[? ->]|[? [? ->]]]; simpl in *; rewrite ?length_app; simpl; lia.
    + specialize (Hok f' c'). unfold trio_ok in *. by rewrite !Hother.
  - intros f' c' ch. destruct (decide (f' = f ∧ c' = c)) as [[-> ->]|Hne];
      [|left; by apply Hother].
    destruct (Hafter ch) as (l' & -> & Hl').
    assert (length (pick ch r g b) ≤ length r)%nat as Hpick by (destruct ch; simpl; lia).
    destruct Hcase as [(Hr & Hg & Hb & _ & Hs1)|(Hnc & -> & -> & -> & _ & Hs1)].
    + assert (samples s f c ch = Some (pick ch r g b)) as -> by (by destruct ch).
      destruct Hl' as [[_ ->]|[Hlt [x ->]]]; [by left|].
      right; right. exists x. split; [done|]. simpl. lia.
    + assert (samples s f c ch = None) as ->.
      { destruct (Hok f c) as [(? & ? & ?)|(r0 & g0 & b0 & Hr0 & Hg0 & Hb0 & _)].
        - by destruct ch.
        - exfalso. apply Hnc. unfold cached. rewrite Hr0, Hg0, Hb0. eauto. }
      destruct Hl' as [[_ ->]|[Hlt [x ->]]].
      * right; left. by destruct ch.
      * right; right. exists x. split; [by destruct ch|]. simpl. lia.
Qed.

Lemma after_calls_state_ok cs s :
  state_ok s → state_ok (after_calls make_source_mask make_masks sigma_clipped_stats cs s).
Proof.
  revert s. induction cs as [|c cs IH]; intros s Hok; simpl; [done|].
  apply IH. unfold run_call. by apply subtract_frame_background_state_ok.
Qed.

Lemma pixel_zip_with {A B C} (f : A → B → C) (a : list (list A)) (b : list (list B)) i j :
  pixel (zip_with (zip_with f) a b) i j =
    match pixel a i j, pixel b i j with
    | Some x, Some y => Some (f x y)
    | _, _ => None
    end.
Proof.
  unfold pixel. rewrite lookup_zip_with.
  destruct (a !! i) as [ra|]; simpl; [|done].
  destruct (b !! i) as [rb|]; simpl; [|by destruct (ra !! j)].
  rewrite lookup_zip_with.
  destruct (ra !! j); simpl; [|done]. by destruct (rb !! j).
Qed.

Lemma pixel_shape {A B} (a : list (list A)) (b : list (list B)) i j x :
  map length a = map length b → pixel a i j = Some x → is_Some (pixel b i j).
Proof.
  unfold pixel. intros Hs.
  destruct (a !! i) as [ra|] eqn:Ha; simpl; [|done]. intros Hx.
  assert (map length b !! i = Some (length ra)) as Hb.
  { rewrite <- Hs. change (map ?g ?l) with (g <$> l). by rewrite list_lookup_fmap, Ha. }
  change (map ?g ?l) with (g <$> l) in Hb. rewrite list_lookup_fmap in Hb.
  destruct (b !! i) as [rb|]; simpl in *; [|done].
  apply lookup_lt_is_Some_2. injection Hb as ->. by eapply lookup_lt_Some.
Qed.

Lemma pixel_same_shape {A B} (a : list (list A)) (b : list (list B)) i j x :
  same_shape a b = true → pixel a i j = Some x → is_Some (pixel b i j).
Proof. unfold same_shape. intros Hs%bool_decide_eq_true. by apply pixel_shape. Qed.

Lemma length_zip_with_same {A B C} (f : A → B → C) (a : list (list A)) (b : list (list B)) :
  map length a = map length b →
  map length (zip_with (zip_with f) a b) = map length a.
Proof.
  revert b. induction a as [|ra a IH]; intros [|rb b]; simpl; try done.
  intros [= Hr Hrest]. rewrite IH by done. f_equal.
  rewrite length_zip_with. lia.
Qed.

Lemma reshape_like_shape {A B} (shape_of : list (list A)) (flat : list B) :
  (length (concat shape_of) ≤ length flat)%nat →
  map length (reshape_like shape_of flat) = map length shape_of.
Proof.
  revert flat. induction shape_of as [|row rest IH]; intros flat Hlen; simpl in *; [done|].
  rewrite length_app in Hlen. rewrite length_take, IH.
  - f_equal. lia.
  - rewrite length_drop. lia.
Qed.

Lemma repeated_mask_shape {A} (data : list (list A)) (v : bool) :
  map length (map (map (λ _, v)) data) = map length data.
Proof.
  induction data as [|row rest IH]; simpl; [done|].
  by rewrite IH, length_map.
Qed.

(** A mask fitted to the data has the data's shape. *)
Lemma fit_mask_shape stamp m v : fit_mask stamp m = Ok v → map length v = map length stamp.
Proof.
  unfold fit_mask, same_shape. destruct (bool_decide _) eqn:E.
  { intros [= <-]. by apply bool_decide_eq_true in E. }
  destruct (concat m) as [|x [|y l]] eqn:Ec.
  - destruct (decide _) as [Hl|_]; [|discriminate].
    intros [= <-]. apply reshape_like_shape. lia.
  - intros [= <-]. apply repeated_mask_shape.
  - destruct (decide _) as [Hl|_]; [|discriminate].
    intros [= <-]. apply reshape_like_shape. lia.
Qed.

Lemma isub_valid_shape buffer valid background :
  map length valid = map length buffer →
  map length (isub_valid buffer valid background) = map length buffer.
Proof. intros H. unfold isub_valid. by rewrite length_zip_with_same. Qed.

Lemma channel_data_shape buffer valid :
  map length valid = map length buffer →
  map length (channel_data buffer valid) = map length buffer.
Proof. intros H. unfold channel_data. by rewrite length_zip_with_same. Qed.

Lemma subtracted_buffer_shape stamp rv gv bv R G B :
  map length rv = map length stamp → map length gv = map length stamp →
  map length bv = map length stamp →
  map length (subtracted_buffer stamp rv gv bv R G B) = map length stamp.
Proof.
  intros Hr Hg Hb. unfold subtracted_buffer.
  pose proof (isub_valid_shape stamp rv R Hr) as H1.
  assert (map length (isub_valid (isub_valid stamp rv R) gv G) = map length stamp) as H2.
  { rewrite isub_valid_shape; congruence. }
  rewrite isub_valid_shape; congruence.
Qed.

Lemma combined_shape buffer rv gv bv :
  map length rv = map length buffer → map length gv = map length buffer →
  map length bv = map length buffer →
  map length (combined buffer rv gv bv) = map length buffer.
Proof.
  intros Hr Hg Hb. unfold combined, add_images.
  pose proof (channel_data_shape buffer rv Hr) as H1.
  pose proof (channel_data_shape buffer gv Hg) as H2.
  pose proof (channel_data_shape buffer bv Hb) as H3.
  rewrite length_zip_with_same; rewrite length_zip_with_same; congruence.
Qed.

Lemma Qc_of_Z_small :
  Qc_of_Z 0 = 0%Qc ∧ Qc_of_Z 1 = 1%Qc ∧ Qc_of_Z 2 = (1 + 1)%Qc ∧ Qc_of_Z 3 = (1 + 1 + 1)%Qc.
Proof. split_and!; by apply Qc_is_canon. Qed.

(** The pixels of the buffer and of the returned image, for masks of the
    stamp's shape: every channel that selects a pixel has subtracted its
    background from the shared buffer, and every such channel contributes
    the buffer's value to the sum. *)
Lemma subtracted_buffer_pixel stamp rv gv bv R G B i j x :
  map length rv = map length stamp → map length gv = map length stamp →
  map length bv = map length stamp →
  pixel stamp i j = Some x →
  ∃ sr sg sb,
    pixel rv i j = Some sr ∧ pixel gv i j = Some sg ∧ pixel bv i j = Some sb ∧
    pixel (subtracted_buffer stamp rv gv bv R G B) i j
      = Some (buffer_pixel x sr sg sb R G B) ∧
    pixel (combined (subtracted_buffer stamp rv gv bv R G B) rv gv bv) i j
      = Some (returned_pixel x sr sg sb R G B).
Proof.
  intros Hr Hg Hb Hx.
  destruct (pixel_shape stamp rv i j x (eq_sym Hr) Hx) as [sr Hsr].
  destruct (pixel_shape stamp gv i j x (eq_sym Hg) Hx) as [sg Hsg].
  destruct (pixel_shape stamp bv i j x (eq_sym Hb) Hx) as [sb Hsb].
  exists sr, sg, sb. split_and!; try done.
  - unfold subtracted_buffer, isub_valid.
    rewrite !pixel_zip_with, Hx, Hsr, Hsg, Hsb. f_equal.
    unfold buffer_pixel. destruct sr, sg, sb; ring.
  - unfold combined, add_images, channel_data, subtracted_buffer, isub_valid.
    rewrite !pixel_zip_with, Hx, Hsr, Hsg, Hsb. f_equal.
    destruct Qc_of_Z_small as (H0 & H1 & H2 & H3).
    unfold returned_pixel, buffer_pixel, selected.
    destruct sr, sg, sb;
      match goal with
      | |- context [Qc_of_Z ?z] => let v := eval compute in z in change z with v
      end; rewrite ?H0, ?H1, ?H2, ?H3; ring.
Qed.

Lemma method_lookup_Some method idx :
  method_lookup !! method = Some idx →
  (method = "mean"%string ∧ idx = 0%nat) ∨ (method = "median"%string ∧ idx = 1%nat).
Proof.
  unfold method_lookup. intros H.
  destruct (decide (method = "mean"%string)) as [->|Hne1].
  { rewrite lookup_insert_eq in H. left. split; congruence. }
  rewrite lookup_insert_ne in H by done.
  destruct (decide (method = "median"%string)) as [->|Hne2].
  { rewrite lookup_insert_eq in H. right. split; congruence. }
  by rewrite lookup_insert_ne in H.
Qed.

Lemma subtract_medians_Ok stamp method r g b masks out :
  subtract_medians stamp method r g b masks = Ok out →
  ∃ idx rm gm bm rv gv bv,
    method_lookup !! method = Some idx ∧ r ≠ [] ∧ g ≠ [] ∧ b ≠ [] ∧
    masks = (Some rm, Some gm, Some bm) ∧
    fit_mask stamp rm = Ok rv ∧ fit_mask stamp gm = Ok gv ∧ fit_mask stamp bm = Ok bv ∧
    out = subtracted_with stamp idx r g b rv gv bv.
Proof.
  unfold subtract_medians, background_value.
  destruct (method_lookup !! method) as [idx|]; [|done].
  destruct r as [|xr r]; [done|]. destruct g as [|xg g]; [done|].
  destruct b as [|xb b]; [done|].
  destruct masks as [[rm gm] bm]. unfold channel_mask.
  destruct rm as [rm|]; [|done]. destruct (fit_mask stamp rm) as [rv|] eqn:Hrv; [|done].
  destruct gm as [gm|]; [|done]. destruct (fit_mask stamp gm) as [gv|] eqn:Hgv; [|done].
  destruct bm as [bm|]; [|done]. destruct (fit_mask stamp bm) as [bv|] eqn:Hbv; [|done].
  intros [= <-]. by exists idx, rm, gm, bm, rv, gv, bv.
Qed.

(** What a returning [subtract_medians] has computed: the method is one of
    the two known ones, the lists are not empty, the three masks fit the
    stamp, and the image has the stamp's shape and the pixels of
    [returned_pixel], with the medians of the selected statistic as
    backgrounds. *)
Lemma subtract_medians_returns stamp method r g b masks out :
  subtract_medians stamp method r g b masks = Ok out →
  ∃ sel rm gm bm rv gv bv,
    ((method = "mean"%string ∧ sel = (λ st : stats, st.1.1)) ∨
     (method = "median"%string ∧ sel = (λ st : stats, st.1.2))) ∧
    r ≠ [] ∧ g ≠ [] ∧ b ≠ [] ∧
    masks = (Some rm, Some gm, Some bm) ∧
    fit_mask stamp rm = Ok rv ∧ fit_mask stamp gm = Ok gv ∧ fit_mask stamp bm = Ok bv ∧
    map length out = map length stamp ∧
    ∀ i j x, pixel stamp i j = Some x →
      ∃ sr sg sb,
        pixel rv i j = Some sr ∧ pixel gv i j = Some sg ∧ pixel bv i j = Some sb ∧
        pixel out i j =
          Some (returned_pixel x sr sg sb
                  (median (map sel r)) (median (map sel g)) (median (map sel b))).
Proof.
  intros (idx & rm & gm & bm & rv & gv & bv & Hidx & Hr & Hg & Hb & -> & Hrv & Hgv & Hbv & ->)
    %subtract_medians_Ok.
  pose proof (fit_mask_shape _ _ _ Hrv) as Hsr.
  pose proof (fit_mask_shape _ _ _ Hgv) as Hsg.
  pose proof (fit_mask_shape _ _ _ Hbv) as Hsb.
  assert (∀ sel, sel = statistic idx →
    map length (subtracted_with stamp idx r g b rv gv bv) = map length stamp ∧
    ∀ i j x, pixel stamp i j = Some x →
      ∃ sr sg sb,
        pixel rv i j = Some sr ∧ pixel gv i j = Some sg ∧ pixel bv i j = Some sb ∧
        pixel (subtracted_with stamp idx r g b rv gv bv) i j =
          Some (returned_pixel x sr sg sb
                  (median (map sel r)) (median (map sel g)) (median (map sel b)))) as Hgen.
  { intros sel ->. unfold subtracted_with. split.
    - rewrite combined_shape; rewrite subtracted_buffer_shape; done.
    - intros i j x Hx.
      destruct (subtracted_buffer_pixel stamp rv gv bv
                  (median (map (statistic idx) r)) (median (map (statistic idx) g))
                  (median (map (statistic idx) b)) i j x Hsr Hsg Hsb Hx)
        as (sr & sg & sb & ? & ? & ? & _ & ?).
      by exists sr, sg, sb. }
  destruct (method_lookup_Some _ _ Hidx) as [[-> ->]|[-> ->]].
  - exists (λ st : stats, st.1.1), rm, gm, bm, rv, gv, bv.
    destruct (Hgen (λ st : stats, st.1.1) eq_refl) as [Hshape Hpix].
    split_and!; try done. by left.
  - exists (λ st : stats, st.1.2), rm, gm, bm, rv, gv, bv.
    destruct (Hgen (λ st : stats, st.1.2) eq_refl) as [Hshape Hpix].
    split_and!; try done. by right.
Qed.

(** What the sampling block hands on when the red list is shorter than 5:
    one more sample per channel, each taken from the stamp with the masks
    in use; the first sample that cannot be taken ends the call. *)
Lemma collect_samples_snd f c stamp rm gm bm r g b held s1 :
  (length r < 5)%nat →
  snd (collect_samples make_source_mask make_masks sigma_clipped_stats f c stamp
         (rm, gm, bm) (r, g, b, held) s1) =
    let '(rm', gm', bm') := masks_used make_masks stamp rm gm bm in
    match sample_of make_source_mask sigma_clipped_stats stamp rm' with
    | Raise e => Raise e
    | Ok xr =>
    match sample_of make_source_mask sigma_clipped_stats stamp gm' with
    | Raise e => Raise e
    | Ok xg =>
    match sample_of make_source_mask sigma_clipped_stats stamp bm' with
    | Raise e => Raise e
    | Ok xb => Ok (r ++ [xr], g ++ [xg], b ++ [xb], (Some rm', Some gm', Some bm'))
    end end end.
Proof.
  intros Hlt. unfold collect_samples. rewrite decide_True by done.
  unfold bind at 1.
  destruct (rgb_masks_spec stamp (rm, gm, bm) s1) as (sm & m & -> & _ & _ & _ & ->).
  simpl. destruct (masks_used make_masks stamp rm gm bm) as [[rm' gm'] bm'].
  unfold bind. rewrite !append_sample_unfold.
  destruct (sample_of _ _ stamp rm') as [xr|e]; [|done].
  rewrite append_sample_unfold.
  destruct (sample_of _ _ stamp gm') as [xg|e]; [|done].
  rewrite append_sample_unfold.
  by destruct (sample_of _ _ stamp bm') as [xb|e].
Qed.

(** C7. In every state the method can reach from a new observation, each
    sample list holds at most 5 samples, and one more call changes a list
    only by creating it empty or by appending one sample to a list of fewer
    than 5.  When the call returns, the lists it used are those of the cell
    (the cached ones whenever the lists are cached or stored), with one
    sample of this stamp appended when the red list held fewer than 5; the
    background of a channel is the median, over its list, of the mean or
    the median of the samples, as the method name says; and the image
    returned has the stamp's shape, each pixel being the pixel of the stamp
    minus the backgrounds of the channels whose masks select it, counted
    once for every such channel. *)
Theorem background_samples_capped (back_w back_h : option Qc) (cs : list call) (c : call) :
  let s := after_calls make_source_mask make_masks sigma_clipped_stats cs
             (initial back_w back_h) in
  let s' := fst (run_call make_source_mask make_masks sigma_clipped_stats c s) in
  capped s ∧
  (∀ frame cell ch, grows (samples s frame cell ch) (samples s' frame cell ch)) ∧
  (∀ out, snd (run_call make_source_mask make_masks sigma_clipped_stats c s) = Ok out →
     ∃ cell sel r g b rm gm bm r_valid g_valid b_valid,
       cell_of s (c_mid_point c) = Ok cell ∧
       ((c_background_sub_method c = "mean"%string ∧ sel = (λ st : stats, st.1.1)) ∨
        (c_background_sub_method c = "median"%string ∧ sel = (λ st : stats, st.1.2))) ∧
       r ≠ [] ∧ g ≠ [] ∧ b ≠ [] ∧
       (cached s (c_frame_index c) cell ∨ c_store_background c = true →
        samples s' (c_frame_index c) cell red = Some r ∧
        samples s' (c_frame_index c) cell green = Some g ∧
        samples s' (c_frame_index c) cell blue = Some b) ∧
       (let before ch := default [] (samples s (c_frame_index c) cell ch) in
        ((5 ≤ length (before red))%nat ∧
         r = before red ∧ g = before green ∧ b = before blue) ∨
        ((length (before red) < 5)%nat ∧
         ∃ xr xg xb,
           sample_of make_source_mask sigma_clipped_stats (c_stamp c) rm = Ok xr ∧
           sample_of make_source_mask sigma_clipped_stats (c_stamp c) gm = Ok xg ∧
           sample_of make_source_mask sigma_clipped_stats (c_stamp c) bm = Ok xb ∧
           r = before red ++ [xr] ∧ g = before green ++ [xg] ∧
           b = before blue ++ [xb])) ∧
       masks_used make_masks (c_stamp c) (c_r_mask c) (c_g_mask c) (c_b_mask c)
         = (rm, gm, bm) ∧
       fit_mask (c_stamp c) rm = Ok r_valid ∧ fit_mask (c_stamp c) gm = Ok g_valid ∧
       fit_mask (c_stamp c) bm = Ok b_valid ∧
       map length out = map length (c_stamp c) ∧
       ∀ i j x, pixel (c_stamp c) i j = Some x →
         ∃ sr sg sb,
           pixel r_valid i j = Some sr ∧ pixel g_valid i j = Some sg ∧
           pixel b_valid i j = Some sb ∧
           pixel out i j =
             Some (returned_pixel x sr sg sb
                     (median (map sel r)) (median (map sel g)) (median (map sel b)))).
Proof.
  intros s s'.
  assert (state_ok s) as Hok by apply after_calls_state_ok, state_ok_initial.
  split; [by apply state_ok_capped|].
  split; [by apply subtract_frame_background_state_ok|].
  intros out Hout. subst s'. unfold run_call in *.
  destruct (cell_of s (c_mid_point c)) as [cell|e] eqn:Hc; cycle 1.
  { rewrite subtract_frame_background_unfold, Hc in Hout. done. }
  destruct (subtract_frame_background_spec (c_stamp c) (c_frame_index c) (c_r_mask c)
              (c_g_mask c) (c_b_mask c) (c_mid_point c) (c_background_sub_method c)
              (c_store_background c) s cell Hc)
    as (s1 & r & g & b & held & s2 & res & n & Heq & _ & _ & Hcase & _ & _ & _ & Hres).
  rewrite Heq in *. cbn [fst snd] in *.
  destruct res as [[[[r' g'] b'] masks']|e]; [|done].
  destruct (subtract_medians_returns _ _ _ _ _ _ _ Hout)
    as (sel & rm & gm & bm & rv & gv & bv & Hsel & Hr & Hg & Hb & -> & Hrv & Hgv & Hbv &
        Hshape & Hpix).
  exists cell, sel, r', g', b', rm, gm, bm, rv, gv, bv.
  destruct Hres as [Hs2 Hlists].
  assert (default [] (samples s (c_frame_index c) cell red) = r ∧
          default [] (samples s (c_frame_index c) cell green) = g ∧
          default [] (samples s (c_frame_index c) cell blue) = b) as (Hbr & Hbg & Hbb).
  { destruct Hcase as [(-> & -> & -> & _)|(Hnc & -> & -> & -> & _)]; [done|].
    destruct (Hok (c_frame_index c) cell)
      as [(-> & -> & ->)|(r0 & g0 & b0 & Hr0 & Hg0 & Hb0 & _)]; [done|].
    exfalso. apply Hnc. unfold cached. rewrite Hr0, Hg0, Hb0. eauto. }
  split_and!; try done.
  - intros Hheld. apply Hs2.
    destruct Hcase as [(_ & _ & _ & -> & _)|(Hnc & _ & _ & _ & -> & _)]; [done|].
    by destruct Hheld.
  - cbv zeta. rewrite Hbr, Hbg, Hbb.
    destruct Hlists as [(Hlt & rm' & gm' & bm' & xr & xg & xb & [= <- <- <-] & _ &
                         Hxr & Hxg & Hxb & -> & -> & ->)|(Hge & -> & -> & -> & _)].
    + right. split; [done|]. by exists xr, xg, xb.
    + by left.
  - destruct Hlists as [(_ & rm' & gm' & bm' & _ & _ & _ & [= <- <- <-] & Hm & _)
                       |(_ & _ & _ & _ & [= Hrm Hgm Hbm])]; [done|].
    by rewrite <- Hrm, <- Hgm, <- Hbm.
Qed.

(** C10. A call with [store_background] left at [False], for a frame and
    cell whose channel lists are not cached, leaves the cache without any
    channel list it did not have.  A later call for the same frame and cell
    therefore finds none: whatever it returns or raises is computed from
    its own stamp alone, and when it returns, the background it has
    subtracted for a channel is the selected statistic of the one sample it
    took from that stamp. *)
Theorem unstored_background_is_recomputed
    (stamp : image) (frame_index : nat) (r_mask g_mask b_mask : option mask)
    (mid_point : option (Qc * Qc)) (method : string) (s : state) (cell : Z * Z) :
  cell_of s mid_point = Ok cell → ¬ cached s frame_index cell →
  let s' := fst (subtract_frame_background make_source_mask make_masks
                   sigma_clipped_stats stamp frame_index r_mask g_mask b_mask
                   mid_point method false s) in
  (∀ frame' cell' ch, samples s' frame' cell' ch = samples s frame' cell' ch) ∧
  ∀ stamp2 r_mask2 g_mask2 b_mask2 mid_point2 method2 store2,
    cell_of s' mid_point2 = Ok cell →
    snd (subtract_frame_background make_source_mask make_masks sigma_clipped_stats
           stamp2 frame_index r_mask2 g_mask2 b_mask2 mid_point2 method2 store2 s')
      = from_own_stamp make_source_mask make_masks sigma_clipped_stats
          stamp2 r_mask2 g_mask2 b_mask2 method2 ∧
    ∀ out,
      snd (subtract_frame_background make_source_mask make_masks sigma_clipped_stats
             stamp2 frame_index r_mask2 g_mask2 b_mask2 mid_point2 method2 store2 s')
        = Ok out →
      ∃ sel rm gm bm xr xg xb r_valid g_valid b_valid,
        ((method2 = "mean"%string ∧ sel = (λ st : stats, st.1.1)) ∨
         (method2 = "median"%string ∧ sel = (λ st : stats, st.1.2))) ∧
        masks_used make_masks stamp2 r_mask2 g_mask2 b_mask2 = (rm, gm, bm) ∧
        sample_of make_source_mask sigma_clipped_stats stamp2 rm = Ok xr ∧
        sample_of make_source_mask sigma_clipped_stats stamp2 gm = Ok xg ∧
        sample_of make_source_mask sigma_clipped_stats stamp2 bm = Ok xb ∧
        fit_mask stamp2 rm = Ok r_valid ∧ fit_mask stamp2 gm = Ok g_valid ∧
        fit_mask stamp2 bm = Ok b_valid ∧
        map length out = map length stamp2 ∧
        ∀ i j x, pixel stamp2 i j = Some x →
          ∃ sr sg sb,
            pixel r_valid i j = Some sr ∧ pixel g_valid i j = Some sg ∧
            pixel b_valid i j = Some sb ∧
            pixel out i j = Some (returned_pixel x sr sg sb (sel xr) (sel xg) (sel xb)).
Proof.
  intros Hc Hnc s'.
  destruct (subtract_frame_background_spec stamp frame_index r_mask g_mask b_mask
              mid_point method false s cell Hc)
    as (s1 & r & g & b & held & s2 & res & n & Heq & Hattrs & _ & Hcase & _ & Hframe & _).
  assert (s' = s2) as -> by (subst s'; by rewrite Heq).
  assert (∀ frame' cell' ch, samples s2 frame' cell' ch = samples s frame' cell' ch)
    as Hview.
  { intros f' c' ch.
    destruct Hcase as [(Hr & Hg & Hb & _)|(_ & _ & _ & _ & -> & Hs1)].
    - exfalso. apply Hnc. unfold cached. rewrite Hr, Hg, Hb. eauto.
    - rewrite Hframe by (by intros [? _]). by rewrite Hs1. }
  split; [done|].
  intros stamp2 rm2 gm2 bm2 mid_point2 method2 store2 Hc2.
  assert (snd (subtract_frame_background make_source_mask make_masks sigma_clipped_stats
                 stamp2 frame_index rm2 gm2 bm2 mid_point2 method2 store2 s2)
          = from_own_stamp make_source_mask make_masks sigma_clipped_stats
              stamp2 rm2 gm2 bm2 method2) as Hown.
  { rewrite subtract_frame_background_unfold, Hc2.
    destruct (channel_lists_spec frame_index cell store2 s2)
      as (t1 & r2 & g2 & b2 & held2 & -> & _ & _ & _ & Hcase2).
    destruct Hcase2 as [(Hr & Hg & Hb & _)|(_ & -> & -> & -> & _)].
    { exfalso. apply Hnc. unfold cached. rewrite <- !Hview, Hr, Hg, Hb. eauto. }
    pose proof (collect_samples_snd frame_index cell stamp2 rm2 gm2 bm2 [] [] [] held2 t1
                  ltac:(simpl; lia)) as Hsnd.
    destruct (collect_samples _ _ _ _ _ _ _ _ _) as [t2 res2].
    cbn [snd] in Hsnd. subst res2. unfold from_own_stamp.
    destruct (masks_used make_masks stamp2 rm2 gm2 bm2) as [[rm' gm'] bm'].
    destruct (sample_of _ _ stamp2 rm') as [xr|e]; [|done].
    destruct (sample_of _ _ stamp2 gm') as [xg|e]; [|done].
    by destruct (sample_of _ _ stamp2 bm') as [xb|e]. }
  split; [done|].
  intros out. rewrite Hown. unfold from_own_stamp.
  destruct (masks_used make_masks stamp2 rm2 gm2 bm2) as [[rm' gm'] bm'].
  destruct (sample_of _ _ stamp2 rm') as [xr|e] eqn:Hxr; [|done].
  destruct (sample_of _ _ stamp2 gm') as [xg|e] eqn:Hxg; [|done].
  destruct (sample_of _ _ stamp2 bm') as [xb|e] eqn:Hxb; [|done].
  intros (sel & rm & gm & bm & rv & gv & bv & Hsel & _ & _ & _ & [= <- <- <-] &
          Hrv & Hgv & Hbv & Hshape & Hpix)%subtract_medians_returns.
  exists sel, rm', gm', bm', xr, xg, xb, rv, gv, bv. split_and!; try done.
Qed.

End BackgroundFacts.

Lemma unstored_background_is_recomputed_witness :
  let s := Background.initial (Some (Qc_of_Z 434)) (Some (Qc_of_Z 316)) in
  let s' := fst (Background.subtract_frame_background Background.no_sources
                   Background.all_red Background.first_pixel_stats
                   Background.tiny_stamp 0 None None None
                   (Some (Qc_of_Z 100, Qc_of_Z 100)) "median" false s) in
  (Background.samples s' 0 (0, 0) Background.red = None ∧
   Background.samples s' 0 (0, 0) Background.green = None ∧
   Background.samples s' 0 (0, 0) Background.blue = None) ∧
  ∃ out,
    snd (Background.subtract_frame_background Background.no_sources
           Background.all_red Background.first_pixel_stats
           Background.other_stamp 0 None None None
           (Some (Qc_of_Z 120, Qc_of_Z 90)) "median" false s') = Ok out ∧
    Pixels.pixel out 0 1 =
      Some (Pixels.returned_pixel (Qc_of_Z 12) true false false
              (Qc_of_Z 9) (Qc_of_Z 9) (Qc_of_Z 9)).
Proof.
  destruct (unstored_background_is_recomputed Background.no_sources
              Background.all_red Background.first_pixel_stats
              Background.tiny_stamp 0 None None None
              (Some (Qc_of_Z 100, Qc_of_Z 100)) "median"
              (Background.initial (Some (Qc_of_Z 434)) (Some (Qc_of_Z 316)))
              (0, 0) ltac:(vm_compute; reflexivity)
              ltac:(intros [[x Hx] _]; vm_compute in Hx; discriminate Hx))
    as [Hsame Hlater].
  intros s s'. split; [split; [|split]; apply Hsame|].
  destruct (Hlater Background.other_stamp None None None
              (Some (Qc_of_Z 120, Qc_of_Z 90)) "median"%string false
              ltac:(vm_compute; reflexivity)) as [Hown Hpix].
  destruct (snd (Background.subtract_frame_background Background.no_sources
                   Background.all_red Background.first_pixel_stats
                   Background.other_stamp 0 None None None
                   (Some (Qc_of_Z 120, Qc_of_Z 90)) "median" false _))
    as [out|e] eqn:E; [|vm_compute in Hown; discriminate Hown].
  exists out. split; [reflexivity|].
  destruct (Hpix out eq_refl)
    as (sel & rm & gm & bm & xr & xg & xb & rv & gv & bv & Hsel & Hm & Hxr & Hxg & Hxb &
        Hrv & Hgv & Hbv & _ & Hp).
  destruct Hsel as [[Hne _]|[_ ->]]; [discriminate Hne|].
  injection Hm as <- <- <-.
  injection Hxr as <-. injection Hxg as <-. injection Hxb as <-.
  injection Hrv as <-. injection Hgv as <-. injection Hbv as <-.
  destruct (Hp 0%nat 1%nat (Qc_of_Z 12) eq_refl) as (sr & sg & sb & Hr & Hg & Hb & Hout).
  injection Hr as <-. injection Hg as <-. injection Hb as <-. exact Hout.
Defined.

Lemma background_samples_capped_witness :
  let s := Background.after_calls Background.no_sources Background.all_red
             Background.first_pixel_stats
             [Background.example_call true; Background.example_call true]
             (Background.initial (Some (Qc_of_Z 434)) (Some (Qc_of_Z 316))) in
  Background.capped s ∧
  (∃ l, Background.samples s 0 (0, 0) Background.red = Some l ∧ length l = 2%nat) ∧
  ∃ out,
    snd (Background.run_call Background.no_sources Background.all_red
           Background.first_pixel_stats (Background.example_call true) s) = Ok out ∧
    Pixels.pixel out 0 1 =
      Some (Pixels.returned_pixel (Qc_of_Z 7) true false false
              (Background.median (replicate 3 (Qc_of_Z 5)))
              (Background.median (replicate 3 (Qc_of_Z 5)))
              (Background.median (replicate 3 (Qc_of_Z 5)))).
Proof.
  intros s.
  destruct (background_samples_capped Background.no_sources Background.all_red
              Background.first_pixel_stats (Some (Qc_of_Z 434)) (Some (Qc_of_Z 316))
              [Background.example_call true; Background.example_call true]
              (Background.example_call true)) as (Hcap & _ & Hret).
  split; [exact Hcap|].
  split; [eexists; split; [vm_compute; reflexivity|reflexivity]|].
  fold s in Hret.
  destruct (snd (Background.run_call Background.no_sources Background.all_red
                   Background.first_pixel_stats (Background.example_call true) s))
    as [out|e] eqn:E; [|vm_compute in E; discriminate E].
  exists out. split; [reflexivity|].
  destruct (Hret out eq_refl)
    as (cell & sel & r & g & b & rm & gm & bm & rv & gv & bv & Hcell & Hsel & _ & _ & _ &
        Hlists & _ & Hm & Hrv & Hgv & Hbv & _ & Hp).
  destruct Hsel as [[Hne _]|[_ ->]]; [discriminate Hne|].
  injection Hcell as <-.
  destruct (Hlists (or_intror eq_refl)) as (Hr & Hg & Hb).
  vm_compute in Hr, Hg, Hb. injection Hr as <-. injection Hg as <-. injection Hb as <-.
  injection Hm as <- <- <-.
  injection Hrv as <-. injection Hgv as <-. injection Hbv as <-.
  destruct (Hp 0%nat 1%nat (Qc_of_Z 7) eq_refl) as (sr & sg & sb & Hsr & Hsg & Hsb & Hout).
  injection Hsr as <-. injection Hsg as <-. injection Hsb as <-. exact Hout.
Defined.

(** ** The variance grid *)

Section VarianceFacts.
Import Variance.

Lemma is_zero_nzero a : is_zero a = true → a = nzero.
Proof.
  destruct a as [q|]; simpl; [|discriminate].
  intros H. apply bool_decide_eq_true in H. by subst.
Qed.

Lemma cell_write g i j v i' j' :
  cell (write g i j v) i' j' =
    if decide (i = i' ∧ j = j') then (λ _, v) <$> cell g i j else cell g i' j'.
Proof.
  unfold cell, write. case_decide as H.
  - destruct H as [<- <-]. rewrite list_lookup_alter_eq.
    destruct (g !! i) as [row|]; simpl; [|done].
    destruct (decide (j < length row)%nat).
    + rewrite list_lookup_insert_eq by done.
      destruct (lookup_lt_is_Some_2 row j ltac:(done)) as [x ->]. done.
    + rewrite list_insert_ge by lia.
      rewrite (lookup_ge_None_2 row j) by lia. done.
  - destruct (decide (i = i')) as [<-|Hi].
    + rewrite list_lookup_alter_eq. destruct (g !! i) as [row|]; simpl; [|done].
      rewrite list_lookup_insert_ne; [done|]. intros ->. by apply H.
    + by rewrite list_lookup_alter_ne.
Qed.

Lemma cell_write_other g i j v i' j' :
  ¬ (i = i' ∧ j = j') → cell (write g i j v) i' j' = cell g i' j'.
Proof. intros. rewrite cell_write. by rewrite decide_False. Qed.

Lemma cell_write_same g i j v a :
  cell g i j = Some a → cell (write g i j v) i j = Some v.
Proof. intros H. rewrite cell_write, decide_True by done. by rewrite H. Qed.

Lemma wf_write n g i j v : wf n g → wf n (write g i j v).
Proof.
  intros [Hl Hr]. unfold write. split.
  - by rewrite length_alter.
  - intros k row. destruct (decide (i = k)) as [<-|Hne].
    + rewrite list_lookup_alter_eq. destruct (g !! i) as [r|] eqn:E; simpl; [|done].
      intros [= <-]. rewrite length_insert. eauto.
    + rewrite list_lookup_alter_ne by done. eauto.
Qed.

Lemma wf_zeros n : wf n (zeros n).
Proof.
  unfold zeros. split; [by rewrite length_replicate|].
  intros i row H. apply lookup_replicate in H as [-> _]. by rewrite length_replicate.
Qed.

Lemma cell_zeros n i j : (i < n)%nat → (j < n)%nat → cell (zeros n) i j = Some nzero.
Proof.
  intros Hi Hj. unfold cell, zeros.
  rewrite lookup_replicate_2 by done. simpl. by rewrite lookup_replicate_2.
Qed.

Lemma wf_cell n g i j : wf n g → (i < n)%nat → (j < n)%nat → is_Some (cell g i j).
Proof.
  intros [Hl Hr] Hi Hj. unfold cell.
  destruct (lookup_lt_is_Some_2 g i ltac:(lia)) as [row Hrow].
  rewrite Hrow. simpl. apply lookup_lt_is_Some_2. rewrite (Hr _ _ Hrow). done.
Qed.

Lemma compare_with_unfold ds t s0 s g :
  compare_with ds t s0 s g =
    match cell g t s with
    | None => (g, Raise IndexError)
    | Some a =>
        if is_zero a then
          match cell g s t with
          | None => (g, Raise IndexError)
          | Some b =>
              if is_zero b then
                match ds !! s with
                | None => (g, Raise KeyError)
                | Some c1 =>
                    match sq_diff_sum s0 (normalize c1) with
                    | Ok v => (write g t s v, Ok tt)
                    | Raise e =>
                        if bool_decide (e = ValueError) then (g, Ok tt) else (g, Raise e)
                    end
                end
              else (g, Ok tt)
          end
        else (g, Ok tt)
    end.
Proof.
  unfold compare_with, read, bind, gets, lift, ret, try_except, modify, of_option, id.
  destruct (cell g t s) as [a|]; simpl; [|done].
  destruct (is_zero a); simpl; [|done].
  destruct (cell g s t) as [b|]; simpl; [|done].
  destruct (is_zero b); simpl; [|done].
  destruct (ds !! s) as [c1|]; simpl; [|done].
  destruct (sq_diff_sum s0 (normalize c1)) as [v|e]; simpl; [done|].
  by destruct (bool_decide (e = ValueError)).
Qed.

(** One iteration either leaves the grid alone or writes the cell
    [(target, source)], and then both directions held zero. *)
Lemma compare_with_cases ds t s0 s g :
  fst (compare_with ds t s0 s g) = g ∨
  ∃ c1 v, zero_at g t s ∧ zero_at g s t ∧ ds !! s = Some c1 ∧
          sq_diff_sum s0 (normalize c1) = Ok v ∧
          compare_with ds t s0 s g = (write g t s v, Ok tt).
Proof.
  rewrite compare_with_unfold. unfold zero_at.
  destruct (cell g t s) as [a|]; simpl; [|by left].
  destruct (is_zero a) eqn:Ha; simpl; [|by left].
  destruct (cell g s t) as [b|]; simpl; [|by left].
  destruct (is_zero b) eqn:Hb; simpl; [|by left].
  destruct (ds !! s) as [c1|]; simpl; [|by left].
  destruct (sq_diff_sum s0 (normalize c1)) as [v|e] eqn:Hv; simpl.
  - right. exists c1, v. eauto 10.
  - left. by destruct (bool_decide (e = ValueError)).
Qed.

Lemma for_each_inv {S A} (P : S → Prop) (body : A → M S unit) xs :
  (∀ x s, P s → P (fst (body x s))) → ∀ s, P s → P (fst (for_each xs body s)).
Proof.
  intros Hbody. induction xs as [|x xs IH]; intros s Hs; simpl; [done|].
  unfold bind. specialize (Hbody x s Hs).
  destruct (body x s) as [s' [[]|e]]; simpl in *; auto.
Qed.

Lemma zero_at_transfer g0 t g i j :
  touched_only_zero g0 t g → zero_at g i j → (i = t ∨ j = t) → zero_at g0 i j.
Proof.
  intros Hinv Hz Hij.
  destruct (decide (cell g i j = cell g0 i j)) as [E|E].
  - unfold zero_at in *. by rewrite <- E.
  - destruct (Hinv i j E) as (-> & H1 & H2). destruct Hij as [_| ->]; done.
Qed.

Lemma compare_with_touched g0 ds t s0 s g :
  touched_only_zero g0 t g →
  touched_only_zero g0 t (fst (compare_with ds t s0 s g)).
Proof.
  intros Hinv.
  destruct (compare_with_cases ds t s0 s g) as [-> | (c1 & v & Hts & Hst & _ & _ & ->)];
    [done|]. simpl.
  intros i j Hne. rewrite cell_write in Hne. case_decide as Hij.
  - destruct Hij as [<- <-]. split; [done|].
    split; eapply zero_at_transfer; eauto.
  - by apply Hinv.
Qed.

Lemma fill_row_touched ds t s0 n g :
  touched_only_zero g t (fst (fill_row ds t s0 n g)).
Proof.
  unfold fill_row. apply (for_each_inv (touched_only_zero g t)).
  - intros x s. apply compare_with_touched.
  - by intros i j.
Qed.

Lemma the_grid_set_vgrid n g h : the_grid n (set_vgrid g h) = g.
Proof. done. Qed.

Lemma get_variance_touched n t h :
  touched_only_zero (the_grid n h) t
    (the_grid n (fst (get_variance_for_target n t h))).
Proof.
  unfold get_variance_for_target.
  destruct (subtracted h !! t) as [c0|]; simpl.
  - pose proof (fill_row_touched (subtracted h) t (normalize c0) n (the_grid n h)) as H.
    destruct (fill_row _ _ _ _ _) as [g' r]. done.
  - by intros i j.
Qed.

Lemma zero_at_not_nonzero g i j v :
  zero_at g i j → cell g i j = Some v → is_zero v = false → False.
Proof. intros (a & Ha & Hz) Hv Hnz. congruence. Qed.

(** C2. Running [get_variance_for_target] a second time for the same target
    leaves every cell that was nonzero after the first run unchanged; in any
    run, a cell changes only if it lies in the target's row and both it and
    its mirror cell held exactly zero before. *)
Theorem get_variance_idempotent_resume (n t : nat) (h : hdf5) :
  let h1 := fst (get_variance_for_target n t h) in
  let h2 := fst (get_variance_for_target n t h1) in
  (∀ i j v, cell (the_grid n h1) i j = Some v → is_zero v = false →
            cell (the_grid n h2) i j = Some v) ∧
  (∀ h0 i j,
     cell (the_grid n (fst (get_variance_for_target n t h0))) i j
       ≠ cell (the_grid n h0) i j →
     i = t ∧ zero_at (the_grid n h0) t j ∧ zero_at (the_grid n h0) j t).
Proof.
  intros h1 h2. split.
  - intros i j v Hv Hnz.
    destruct (decide (cell (the_grid n h2) i j = cell (the_grid n h1) i j)) as [E|E];
      [congruence|].
    destruct (get_variance_touched n t h1 i j E) as (-> & Hz & _).
    destruct (zero_at_not_nonzero _ _ _ _ Hz Hv Hnz).
  - intros h0 i j. apply get_variance_touched.
Qed.

Lemma get_variance_idempotent_resume_witness :
  let h1 := fst (get_variance_for_target 2 0 (fresh two_sources)) in
  let h2 := fst (get_variance_for_target 2 0 h1) in
  ∃ v, is_zero v = false ∧ cell (the_grid 2 h1) 0 1 = Some v ∧
       cell (the_grid 2 h2) 0 1 = Some v.
Proof.
  intros h1 h2.
  destruct (cell (the_grid 2 h1) 0 1) as [v|] eqn:E; [|by vm_compute in E].
  exists v.
  assert (is_zero v = false) as Hv.
  { vm_compute in E. injection E as <-. reflexivity. }
  split; [done|]. split; [done|].
  exact (proj1 (get_variance_idempotent_resume 2 0 (fresh two_sources)) 0%nat 1%nat v E Hv).
Defined.

(** *** The diagonal *)







Lemma compare_with_wf n ds t s0 s g :
  wf n g → wf n (fst (compare_with ds t s0 s g)).
Proof.
  intros Hwf.
  destruct (compare_with_cases ds t s0 s g) as [-> | (c1 & v & _ & _ & _ & _ & ->)];
    [done|]. by apply wf_write.
Qed.





(** *** The pair value is symmetric, the grid is not *)

Lemma sequence_rmap {A B} (h : A → B) (l : list (result A)) :
  sequence (map (rmap h) l) = rmap (map h) (sequence l).
Proof.
  induction l as [|[a|e] l IH]; simpl; [done| |done].
  rewrite IH. by destruct (sequence l).
Qed.

Lemma broadcast_flip {A B C} (f : A → B → result C) xs ys :
  broadcast f xs ys = broadcast (flip f) ys xs.
Proof.
  unfold broadcast.
  destruct (decide (length xs = length ys)) as [E|E].
  - rewrite decide_True by done. by rewrite zip_with_flip.
  - rewrite decide_False by done.
    destruct xs as [|x [|x' xs]], ys as [|y [|y' ys]]; simpl in *; done.
Qed.

Lemma broadcast_ext {A B C} (f g : A → B → result C) xs ys :
  (∀ x y, f x y = g x y) → broadcast f xs ys = broadcast g xs ys.
Proof.
  intros Hfg. unfold broadcast.
  assert (zip_with f xs ys = zip_with g xs ys) as ->.
  { revert ys. induction xs as [|x xs IH]; intros [|y ys]; simpl; [done..|].
    by rewrite Hfg, IH. }
  case_decide; [done|].
  destruct xs as [|x [|x' xs]], ys as [|y [|y' ys]]; cbv beta iota; try done;
    f_equal; apply map_ext; intros; apply Hfg.
Qed.

Lemma broadcast_rmap {A B C D} (h : C → D) (f : A → B → result C) xs ys :
  broadcast (λ x y, rmap h (f x y)) xs ys = rmap (map h) (broadcast f xs ys).
Proof.
  unfold broadcast.
  assert (∀ l : list A, ∀ k : list B,
            zip_with (λ x y, rmap h (f x y)) l k = map (rmap h) (zip_with f l k)) as Hz.
  { induction l as [|x l IH]; intros [|y k]; simpl; [done..|]. by rewrite IH. }
  case_decide.
  - by rewrite Hz, sequence_rmap.
  - destruct xs as [|x [|x' xs]], ys as [|y [|y' ys]]; try done;
      rewrite <- sequence_rmap, ?map_map; done.
Qed.

Lemma cube_sub_flip (a b : ncube) :
  cube_sub a b = rmap (map (map (map nneg))) (cube_sub b a).
Proof.
  unfold cube_sub.
  rewrite broadcast_flip.
  rewrite <- broadcast_rmap. apply broadcast_ext. intros f1 f2. unfold flip.
  rewrite broadcast_flip.
  rewrite <- broadcast_rmap. apply broadcast_ext. intros r1 r2. unfold flip.
  rewrite broadcast_flip.
  rewrite <- broadcast_rmap. apply broadcast_ext. intros x y. unfold flip. simpl.
  f_equal. destruct x, y; simpl; try done. f_equal. ring.
Qed.

Lemma nmul_nneg x : nmul (nneg x) (nneg x) = nmul x x.
Proof.
  destruct x as [a|]; simpl; [|done]. f_equal. ring.
Qed.

Lemma sq_diff_sum_sym (a b : ncube) : sq_diff_sum a b = sq_diff_sum b a.
Proof.
  unfold sq_diff_sum. rewrite cube_sub_flip.
  destruct (cube_sub b a) as [d|e]; simpl; [|done].
  do 2 f_equal. rewrite map_map. apply map_ext. intros f.
  rewrite map_map. apply map_ext. intros row.
  rewrite map_map. apply map_ext. intros x. apply nmul_nneg.
Qed.

Lemma pair_value_sym ds i j : pair_value ds i j = pair_value ds j i.
Proof.
  unfold pair_value. destruct (ds !! i), (ds !! j); try done.
  by rewrite sq_diff_sum_sym.
Qed.

Lemma sequence_Raise {A} (l : list (result A)) e :
  sequence l = Raise e → In (Raise e) l.
Proof.
  induction l as [|[a|e'] l IH]; simpl; [done| |].
  - destruct (sequence l); [done|]. intros [= ->]. right. by apply IH.
  - intros [= ->]. by left.
Qed.

Lemma broadcast_Raise {A B C} (f : A → B → result C) xs ys e :
  (∀ x y e', f x y = Raise e' → e' = ValueError) →
  broadcast f xs ys = Raise e → e = ValueError.
Proof.
  intros Hf. unfold broadcast. case_decide as Hlen.
  - intros H%sequence_Raise%list_elem_of_In%elem_of_zip_with.
    destruct H as (x & y & H & _). symmetry in H. eauto.
  - destruct xs as [|x [|x' xs]], ys as [|y [|y' ys]]; cbv beta iota;
      try (by intros [= <-]);
      intros H%sequence_Raise%in_map_iff; destruct H as (z & H & _); eauto.
Qed.

Lemma sq_diff_sum_Raise a b e : sq_diff_sum a b = Raise e → e = ValueError.
Proof.
  unfold sq_diff_sum. destruct (cube_sub a b) as [d|e'] eqn:E; [done|].
  intros [= <-]. revert E. unfold cube_sub.
  apply broadcast_Raise. intros f1 f2 e1.
  apply broadcast_Raise. intros r1 r2 e2.
  apply broadcast_Raise. done.
Qed.

Lemma zero_cell_write_other g t s v i j :
  ¬ (t = i ∧ s = j) → zero_cell (write g t s v) i j = zero_cell g i j.
Proof. intros H. unfold zero_cell. by rewrite cell_write_other. Qed.

(** Filling the target's row: every visited cell of the row that was zero
    receives the pair value when the mirror cell is zero too, and stays zero
    otherwise; no other cell changes. *)
Lemma for_each_fill n ds t c0 l :
  (∀ s, (s < n)%nat → is_Some (ds !! s)) → (t < n)%nat → ds !! t = Some c0 →
  NoDup l → (∀ s, s ∈ l → (s < n)%nat) →
  ∀ g, wf n g → (∀ s, s ∈ l → cell g t s = Some nzero) →
  ∃ g', for_each l (compare_with ds t (normalize c0)) g = (g', Ok tt) ∧ wf n g' ∧
        (∀ i j, ¬ (i = t ∧ j ∈ l) → cell g' i j = cell g i j) ∧
        (∀ s, s ∈ l →
           cell g' t s = Some (if zero_cell g s t then pair_value ds t s else nzero)).
Proof.
  intros Hds Ht Hc0.
  induction l as [|s l IH]; intros Hnd Hl g Hwf Hrow.
  { exists g. split_and!; [done|done|done|]. intros s Hs. by apply elem_of_nil in Hs. }
  apply NoDup_cons in Hnd as [Hs Hnd].
  assert (s < n)%nat as Hsn by (apply Hl; left).
  assert (∃ g1, compare_with ds t (normalize c0) s g = (g1, Ok tt) ∧ wf n g1 ∧
                (∀ i j, ¬ (i = t ∧ j = s) → cell g1 i j = cell g i j) ∧
                cell g1 t s = Some (if zero_cell g s t then pair_value ds t s else nzero))
    as (g1 & Hstep & Hwf1 & Hframe1 & Hcell1).
  { rewrite compare_with_unfold. rewrite (Hrow s) by left. simpl.
    unfold zero_cell, pair_value. rewrite Hc0.
    destruct (wf_cell n g s t Hwf Hsn Ht) as [b Hb]. rewrite Hb.
    destruct (is_zero b) eqn:Hzb.
    - destruct (Hds s Hsn) as [c1 Hc1]. rewrite Hc1.
      destruct (sq_diff_sum (normalize c0) (normalize c1)) as [v|e] eqn:Hv.
      + exists (write g t s v). split_and!.
        * done.
        * by apply wf_write.
        * intros i j Hij. rewrite cell_write_other; [done|].
          intros [-> ->]. by apply Hij.
        * eapply cell_write_same. apply Hrow. left.
      + apply sq_diff_sum_Raise in Hv as ->. simpl.
        exists g. split_and!; [done|done|done|]. apply Hrow. left.
    - exists g. split_and!; [done|done|done|]. apply Hrow. left. }
  destruct (IH Hnd ltac:(intros; apply Hl; by right) g1 Hwf1) as (g' & Hrun & Hwf' & Hframe & Hcells).
  { intros s' Hs'. rewrite Hframe1; [apply Hrow; by right|].
    intros [_ ->]. done. }
  exists g'. split; [|split; [done|split]].
  - simpl. unfold bind. by rewrite Hstep.
  - intros i j Hij. rewrite Hframe, Hframe1; [done| |].
    + intros [-> ->]. apply Hij. split; [done|left].
    + intros [-> Hj]. apply Hij. split; [done|by right].
  - intros s' [->|Hs']%elem_of_cons.
    + rewrite Hframe; [done|]. by intros [_ ?].
    + rewrite (Hcells s' Hs'). do 2 f_equal.
      unfold zero_cell. rewrite Hframe1; [done|].
      intros [-> ->]. done.
Qed.

Lemma get_variance_step n ds k h :
  (∀ s, (s < n)%nat → is_Some (ds !! s)) → (k < n)%nat →
  subtracted h = ds → wf n (the_grid n h) → filled_upto n ds k (the_grid n h) →
  ∃ g', get_variance_for_target n k h = (set_vgrid g' h, Ok tt) ∧ wf n g' ∧
        filled_upto n ds (S k) g'.
Proof.
  intros Hds Hk Hsub Hwf Hfill.
  destruct (Hds k Hk) as [c0 Hc0].
  destruct (for_each_fill n ds k c0 (seq 0 n) Hds Hk Hc0 (NoDup_seq 0 n)
              ltac:(intros s Hs%elem_of_seq; lia) (the_grid n h) Hwf)
    as (g' & Hrun & Hwf' & Hframe & Hcells).
  { intros s Hs%elem_of_seq. rewrite Hfill by lia. rewrite decide_False; [done|lia]. }
  exists g'. split; [|split; [done|]].
  - unfold get_variance_for_target, fill_row. rewrite Hsub, Hc0. by rewrite Hrun.
  - intros i j Hi Hj.
    destruct (decide (i = k)) as [->|Hik].
    + rewrite Hcells by (apply elem_of_seq; lia).
      unfold zero_cell. rewrite Hfill by done.
      destruct (decide (j < k ∧ j ≤ k)%nat) as [Hjk|Hjk].
      * rewrite decide_False by lia.
        destruct (is_zero (pair_value ds j k)) eqn:Hz; [|done].
        apply is_zero_nzero in Hz. by rewrite pair_value_sym, Hz.
      * rewrite decide_True by lia. done.
    + rewrite Hframe by (by intros [? _]). rewrite Hfill by done.
      repeat case_decide; try done; lia.
Qed.

Lemma full_pass_from n ds m : ∀ k h,
  (∀ s, (s < n)%nat → is_Some (ds !! s)) → (k + m ≤ n)%nat →
  subtracted h = ds → wf n (the_grid n h) → filled_upto n ds k (the_grid n h) →
  ∃ g', for_each (seq k m) (get_variance_for_target n) h
          = ((if decide (m = 0)%nat then h else set_vgrid g' h), Ok tt) ∧
        wf n g' ∧ filled_upto n ds (k + m) g'.
Proof.
  induction m as [|m IH]; intros k h Hds Hkm Hsub Hwf Hfill.
  { exists (the_grid n h). simpl. by rewrite Nat.add_0_r. }
  destruct (get_variance_step n ds k h Hds ltac:(lia) Hsub Hwf Hfill)
    as (g1 & Hstep & Hwf1 & Hfill1).
  destruct (IH (S k) (set_vgrid g1 h) Hds ltac:(lia) Hsub Hwf1 Hfill1)
    as (g' & Hrun & Hwf' & Hfill').
  exists (if decide (m = 0)%nat then g1 else g').
  simpl. unfold bind. rewrite Hstep, Hrun.
  replace (k + S m)%nat with (S k + m)%nat by lia.
  destruct (decide (m = 0)%nat) as [->|]; [|done].
  rewrite Nat.add_0_r in *. done.
Qed.

(** C1, as stated, fails: after a full pass over two sources with
    different normalized cubes, cell [(0, 1)] holds 1/8 and cell [(1, 0)]
    still holds zero. *)
Lemma full_pass_not_symmetric :
  ¬ symmetric_on 2 (the_grid 2 (fst (full_pass 2 (fresh two_sources)))).
Proof.
  intros H. specialize (H 0%nat 1%nat ltac:(lia) ltac:(lia)).
  vm_compute in H. discriminate H.
Qed.

(** C1, amended. A full pass on a fresh grid, every source having a persisted
    cube, completes and leaves the grid upper-triangular: for [i <= j] the
    cell [(i, j)] holds the pair value (zero where the shapes are
    incompatible), for [i > j] it still holds zero.  The pair value itself is
    symmetric in its two sources. *)
Theorem full_pass_upper_triangular (n : nat) (ds : gmap nat cube) :
  (∀ s, (s < n)%nat → is_Some (ds !! s)) →
  ∃ h', full_pass n (fresh ds) = (h', Ok tt) ∧
        subtracted h' = ds ∧
        upper_triangular n ds (the_grid n h') ∧
        ∀ i j, pair_value ds i j = pair_value ds j i.
Proof.
  intros Hds.
  destruct (full_pass_from n ds n 0%nat (fresh ds) Hds ltac:(lia) eq_refl (wf_zeros n))
    as (g' & Hrun & Hwf & Hfill).
  { intros i j Hi Hj. rewrite decide_False by lia. by apply cell_zeros. }
  unfold full_pass. rewrite Hrun. eexists. split; [done|].
  split; [by case_decide|]. split; [|apply pair_value_sym].
  intros i j Hi Hj. case_decide; [lia|]. rewrite the_grid_set_vgrid.
  rewrite Hfill by done. simpl. repeat case_decide; try done; lia.
Qed.

Lemma full_pass_upper_triangular_witness :
  ∃ h', full_pass 2 (fresh two_sources) = (h', Ok tt) ∧
        subtracted h' = two_sources ∧
        upper_triangular 2 two_sources (the_grid 2 h') ∧
        ∀ i j, pair_value two_sources i j = pair_value two_sources j i.
Proof.
  apply (full_pass_upper_triangular 2 two_sources).
  intros [|[|s]] Hs; [vm_compute; eauto..|lia].
Defined.

End VarianceFacts.

(** ** The sign of the pair value *)

Section FluxFacts.
Import Variance Flux.

Lemma Qc_square_nonneg (a : Qc) : (0 ≤ a * a)%Qc.
Proof.
  assert (0 <= this a * this a)%Q as H.
  { destruct a as [[n d] ?]. unfold Qle, Qmult. simpl. nia. }
  unfold Qcle. change (this (a * a)%Qc) with (Qred (this a * this a)).
  rewrite Qred_correct. exact H.
Qed.

Lemma not_negative_sum (l : list num) :
  Forall not_negative l → not_negative (sum_num l).
Proof.
  induction 1 as [|x l Hx _ IH]; simpl; [done|].
  destruct x as [a|], (sum_num l) as [b|]; simpl in *; try done.
  by apply Qcplus_nonneg_nonneg.
Qed.

Lemma not_negative_sum_map {A} (g : A → num) (l : list A) :
  (∀ x, not_negative (g x)) → not_negative (sum_num (map g l)).
Proof.
  intros Hg. apply not_negative_sum, Forall_forall.
  intros y (x & <- & _)%list_elem_of_In%in_map_iff. apply Hg.
Qed.

(** X3. The pair value is a sum of squares: whenever it is finite it is not
    negative. *)
Theorem sq_diff_sum_not_negative (a b : ncube) (q : Qc) :
  sq_diff_sum a b = Ok (Fin q) → (0 ≤ q)%Qc.
Proof.
  unfold sq_diff_sum. destruct (cube_sub a b) as [d|e]; [|done].
  intros [= Hq].
  assert (not_negative (ncube_sum (map (map (map (λ x, nmul x x))) d))) as Hnn.
  { unfold ncube_sum. rewrite map_map. apply not_negative_sum_map. intros f.
    rewrite map_map. apply not_negative_sum_map. intros row.
    apply not_negative_sum_map. intros [x|]; simpl; [|done].
    apply Qc_square_nonneg. }
  by rewrite Hq in Hnn.
Qed.

Lemma sq_diff_sum_not_negative_witness :
  sq_diff_sum (normalize [[[Qc_of_Z 1; Qc_of_Z 1]]]) (normalize [[[Qc_of_Z 1; Qc_of_Z 3]]])
    = Ok (Fin (Q2Qc (1 # 8))) ∧
  (0 ≤ Q2Qc (1 # 8))%Qc.
Proof.
  assert (sq_diff_sum (normalize [[[Qc_of_Z 1; Qc_of_Z 1]]])
            (normalize [[[Qc_of_Z 1; Qc_of_Z 3]]]) = Ok (Fin (Q2Qc (1 # 8)))) as H.
  { vm_compute. do 2 f_equal. }
  split; [exact H|]. exact (sq_diff_sum_not_negative _ _ _ H).
Defined.

End FluxFacts.

(** ** The grid after any series of calls *)

Section GridHistory.
Import Variance Grid.

Lemma get_variance_frame n t h :
  subtracted (fst (get_variance_for_target n t h)) = subtracted h ∧
  attrs (fst (get_variance_for_target n t h)) = attrs h ∧
  is_Some (vgrid (fst (get_variance_for_target n t h))).
Proof.
  unfold get_variance_for_target.
  destruct (subtracted h !! t); [|by eauto].
  destruct (fill_row _ _ _ _ _). by eauto.
Qed.

Lemma get_variance_wf n t h :
  wf n (the_grid n h) → wf n (the_grid n (fst (get_variance_for_target n t h))).
Proof.
  intros Hwf. unfold get_variance_for_target.
  destruct (subtracted h !! t) as [c0|]; [|done].
  pose proof (for_each_inv (wf n) (compare_with (subtracted h) t (normalize c0)) (seq 0 n)
                ltac:(intros; by apply compare_with_wf) _ Hwf) as H.
  unfold fill_row. by destruct (for_each _ _ _).
Qed.

Lemma calls_frame n ts : ∀ h,
  subtracted (calls n ts h) = subtracted h ∧
  (wf n (the_grid n h) → wf n (the_grid n (calls n ts h))).
Proof.
  induction ts as [|t ts IH]; intros h; simpl; [done|].
  destruct (get_variance_frame n t h) as (Hs & _).
  destruct (IH (fst (get_variance_for_target n t h))) as (Hs' & Hwf').
  split; [congruence|]. intros Hwf. by apply Hwf', get_variance_wf.
Qed.

(** X4. Whatever the targets and whatever each call raised,
    [get_variance_for_target] leaves the stamp cubes and the attributes of
    the store as they were, leaves a grid dataset behind, and keeps the
    grid square. *)
Theorem calls_keep_store (n : nat) (targets : list nat) (h : hdf5) :
  let h' := calls n targets h in
  subtracted h' = subtracted h ∧ attrs h' = attrs h ∧
  (targets ≠ [] → is_Some (vgrid h')) ∧
  (wf n (the_grid n h) → wf n (the_grid n h')).
Proof.
  revert h. induction targets as [|t ts IH]; intros h; simpl; [done|].
  destruct (get_variance_frame n t h) as (Hs & Ha & Hv).
  destruct (IH (fst (get_variance_for_target n t h))) as (Hs' & Ha' & Hv' & Hwf').
  split_and!; [congruence|congruence| |].
  - intros _. destruct ts as [|t' ts]; [done|]. by apply Hv'.
  - intros Hwf. by apply Hwf', get_variance_wf.
Qed.

Lemma for_each_only_KeyError n ds t s0 l : ∀ g,
  wf n g → (t < n)%nat → (∀ s, s ∈ l → (s < n)%nat) →
  snd (for_each l (compare_with ds t s0) g) = Ok tt ∨
  (snd (for_each l (compare_with ds t s0) g) = Raise KeyError ∧
   ∃ s, s ∈ l ∧ ds !! s = None).
Proof.
  induction l as [|s l IH]; intros g Hwf Ht Hl; simpl; [by left|].
  assert (s < n)%nat as Hs by (apply Hl; left).
  pose proof (compare_with_wf n ds t s0 s g Hwf) as Hwf1.
  unfold bind. rewrite compare_with_unfold in *.
  destruct (wf_cell n g t s Hwf Ht Hs) as [a Ha].
  destruct (wf_cell n g s t Hwf Hs Ht) as [b Hb].
  rewrite Ha, Hb in *.
  assert (∀ g1, wf n g1 →
            snd (for_each l (compare_with ds t s0) g1) = Ok tt ∨
            (snd (for_each l (compare_with ds t s0) g1) = Raise KeyError ∧
             ∃ s', s' ∈ s :: l ∧ ds !! s' = None)) as Hrest.
  { intros g1 Hg1.
    destruct (IH g1 Hg1 Ht ltac:(intros; apply Hl; by right)) as [?|[? (s' & ? & ?)]];
      [by left|right]. split; [done|]. exists s'. split; [by right|done]. }
  destruct (is_zero a); [|by apply Hrest].
  destruct (is_zero b); [|by apply Hrest].
  destruct (ds !! s) as [c1|] eqn:Hc1; cycle 1.
  { right. split; [done|]. exists s. split; [left|done]. }
  destruct (sq_diff_sum s0 (normalize c1)) as [v|e] eqn:Hv; [by apply Hrest|].
  apply sq_diff_sum_Raise in Hv as ->. simpl. by apply Hrest.
Qed.

(** X5. On a square grid and for a target within it, the method either
    returns or raises [KeyError], and it raises only when the cube of the
    target or of some source is missing: cubes of incompatible shapes are
    skipped, and an index never leaves the grid. *)
Theorem get_variance_raises_only_for_missing (n t : nat) (h : hdf5) :
  wf n (the_grid n h) → (t < n)%nat →
  snd (get_variance_for_target n t h) = Ok tt ∨
  (snd (get_variance_for_target n t h) = Raise KeyError ∧
   ∃ s, (s < n)%nat ∧ subtracted h !! s = None).
Proof.
  intros Hwf Ht. unfold get_variance_for_target.
  destruct (subtracted h !! t) as [c0|] eqn:Hc0; cycle 1.
  { right. split; [done|]. by exists t. }
  destruct (for_each_only_KeyError n (subtracted h) t (normalize c0) (seq 0 n)
              (the_grid n h) Hwf Ht ltac:(intros s Hs%elem_of_seq; lia))
    as [H|[H (s & Hs%elem_of_seq & Hnone)]];
    unfold fill_row; destruct (for_each _ _ _) as [g' r]; simpl in *.
  - by left.
  - right. split; [done|]. exists s. split; [lia|done].
Qed.

Lemma get_variance_raises_only_for_missing_witness :
  snd (get_variance_for_target 2 0 (fresh odd_shapes)) = Ok tt ∨
  (snd (get_variance_for_target 2 0 (fresh odd_shapes)) = Raise KeyError ∧
   ∃ s, (s < 2)%nat ∧ subtracted (fresh odd_shapes) !! s = None).
Proof.
  apply (get_variance_raises_only_for_missing 2 0 (fresh odd_shapes)).
  - apply wf_zeros.
  - lia.
Defined.

Lemma cell_zeros_inv n i j v : cell (zeros n) i j = Some v → v = nzero.
Proof.
  unfold cell, zeros. intros H.
  destruct (replicate n (replicate n nzero) !! i) as [row|] eqn:E; [|done].
  apply lookup_replicate in E as [-> _]. simpl in H.
  by apply lookup_replicate in H as [-> _].
Qed.

Lemma compare_with_settled ds t c0 s g :
  ds !! t = Some c0 → settled ds g ∧ one_direction g →
  settled ds (fst (compare_with ds t (normalize c0) s g)) ∧
  one_direction (fst (compare_with ds t (normalize c0) s g)).
Proof.
  intros Hc0 [Hset Hone].
  destruct (compare_with_cases ds t (normalize c0) s g)
    as [-> | (c1 & v & (a & Ha & Hza) & (b & Hb & Hzb) & Hc1 & Hv & ->)]; [done|].
  simpl. split.
  - intros i j v'. rewrite cell_write. case_decide as Hij; [|apply Hset].
    destruct Hij as [<- <-]. rewrite Ha. intros [= <-]. right.
    unfold pair_value. by rewrite Hc0, Hc1, Hv.
  - intros i j v' w Hne. rewrite !cell_write.
    destruct (decide (t = i ∧ s = j)) as [[<- <-]|Hij].
    + rewrite decide_False by (by intros [? _]).
      rewrite Hb. intros _ [= <-]. by right.
    + destruct (decide (t = j ∧ s = i)) as [[<- <-]|Hji]; [|by apply Hone].
      rewrite Hb, Ha. simpl. intros [= <-] [= <-]. by left.
Qed.

Lemma get_variance_settled n t h :
  settled (subtracted h) (the_grid n h) ∧ one_direction (the_grid n h) →
  settled (subtracted h) (the_grid n (fst (get_variance_for_target n t h))) ∧
  one_direction (the_grid n (fst (get_variance_for_target n t h))).
Proof.
  intros Hinv. unfold get_variance_for_target.
  destruct (subtracted h !! t) as [c0|] eqn:Hc0; [|done].
  pose proof (for_each_inv (λ g, settled (subtracted h) g ∧ one_direction g)
                (compare_with (subtracted h) t (normalize c0)) (seq 0 n)
                ltac:(intros; by apply compare_with_settled) _ Hinv) as H.
  unfold fill_row. by destruct (for_each _ _ _).
Qed.

Lemma calls_settled n ts : ∀ h,
  settled (subtracted h) (the_grid n h) ∧ one_direction (the_grid n h) →
  settled (subtracted h) (the_grid n (calls n ts h)) ∧
  one_direction (the_grid n (calls n ts h)).
Proof.
  induction ts as [|t ts IH]; intros h Hinv; simpl; [done|].
  destruct (get_variance_frame n t h) as (Hs & _).
  rewrite <- Hs. apply IH. rewrite Hs. by apply get_variance_settled.
Qed.

Lemma fresh_settled n ds :
  settled ds (the_grid n (fresh ds)) ∧ one_direction (the_grid n (fresh ds)).
Proof.
  change (the_grid n (fresh ds)) with (zeros n). split.
  - intros i j v Hv. left. by eapply cell_zeros_inv.
  - intros i j v w _ Hv _. left. by rewrite (cell_zeros_inv _ _ _ _ Hv).
Qed.

(** X6. Starting from a store that has no grid yet, after any series of
    calls, whatever the targets, their order, and whatever each call raised,
    every cell of the grid holds zero or the pair value of its two sources,
    and of a cell and its mirror cell at most one is nonzero. *)
Theorem calls_cells_settled (n : nat) (ds : gmap nat cube) (targets : list nat) :
  let g := the_grid n (calls n targets (fresh ds)) in
  (∀ i j v, cell g i j = Some v → v = nzero ∨ v = pair_value ds i j) ∧
  (∀ i j v w, i ≠ j → cell g i j = Some v → cell g j i = Some w →
     is_zero v = true ∨ is_zero w = true).
Proof. exact (calls_settled n targets (fresh ds) (fresh_settled n ds)). Qed.

Lemma compare_with_stored n ds t c0 s g :
  (∀ s, (s < n)%nat → is_Some (ds !! s)) → (t < n)%nat → (s < n)%nat →
  ds !! t = Some c0 → wf n g → settled ds g →
  ∃ g1, compare_with ds t (normalize c0) s g = (g1, Ok tt) ∧ wf n g1 ∧ settled ds g1 ∧
        stored_pair ds g1 t s ∧ ∀ s', stored_pair ds g t s' → stored_pair ds g1 t s'.
Proof.
  intros Hds Ht Hs Hc0 Hwf Hset.
  destruct (wf_cell n g t s Hwf Ht Hs) as [a Ha].
  destruct (wf_cell n g s t Hwf Hs Ht) as [b Hb].
  destruct (Hds s Hs) as [c1 Hc1].
  assert (∀ v, cell g t s = Some nzero → pair_value ds t s = v →
            let g1 := write g t s v in
            wf n g1 ∧ settled ds g1 ∧ stored_pair ds g1 t s ∧
            ∀ s', stored_pair ds g t s' → stored_pair ds g1 t s') as Hwrite.
  { intros v Hz Hv g1. subst g1. split; [by apply wf_write|]. split_and!.
    - intros i j v'. rewrite cell_write. case_decide as Hij; [|apply Hset].
      destruct Hij as [<- <-]. rewrite Hz. intros [= <-]. by right.
    - left. rewrite Hv. by eapply cell_write_same.
    - intros s' Hst. unfold stored_pair in *. rewrite !cell_write.
      destruct (decide (t = t ∧ s = s')) as [[_ <-]|Hne].
      + left. by rewrite Hz, Hv.
      + destruct (decide (t = s' ∧ s = t)) as [[<- <-]|Hne']; [|done].
        exfalso. by apply Hne. }
  rewrite compare_with_unfold, Ha, Hb, Hc1.
  destruct (is_zero a) eqn:Hza; cycle 1.
  { exists g. split_and!; try done. left. rewrite Ha. f_equal.
    destruct (Hset t s a Ha) as [-> | ->]; done. }
  apply is_zero_nzero in Hza as ->.
  destruct (is_zero b) eqn:Hzb; cycle 1.
  { exists g. split_and!; try done. right. rewrite Hb. f_equal.
    destruct (Hset s t b Hb) as [-> | ->]; [done|]. apply pair_value_sym. }
  destruct (sq_diff_sum (normalize c0) (normalize c1)) as [v|e] eqn:Hv.
  - exists (write g t s v). split; [done|]. apply Hwrite; [done|].
    unfold pair_value. by rewrite Hc0, Hc1, Hv.
  - apply sq_diff_sum_Raise in Hv as Heq. subst e. simpl.
    exists g. split_and!; try done. left. rewrite Ha. f_equal.
    unfold pair_value. by rewrite Hc0, Hc1, Hv.
Qed.

Lemma for_each_stored n ds t c0 l :
  (∀ s, (s < n)%nat → is_Some (ds !! s)) → (t < n)%nat → ds !! t = Some c0 →
  (∀ s, s ∈ l → (s < n)%nat) →
  ∀ g, wf n g → settled ds g →
  ∃ g', for_each l (compare_with ds t (normalize c0)) g = (g', Ok tt) ∧
        wf n g' ∧ settled ds g' ∧
        (∀ s, stored_pair ds g t s → stored_pair ds g' t s) ∧
        (∀ s, s ∈ l → stored_pair ds g' t s).
Proof.
  intros Hds Ht Hc0. induction l as [|s l IH]; intros Hl g Hwf Hset.
  { exists g. split_and!; try done. intros s Hs. by apply elem_of_nil in Hs. }
  destruct (compare_with_stored n ds t c0 s g Hds Ht ltac:(apply Hl; left) Hc0 Hwf Hset)
    as (g1 & Hstep & Hwf1 & Hset1 & Hs1 & Hkeep1).
  destruct (IH ltac:(intros; apply Hl; by right) g1 Hwf1 Hset1)
    as (g' & Hrun & Hwf' & Hset' & Hkeep & Hall).
  exists g'. split_and!; try done.
  - simpl. unfold bind. by rewrite Hstep.
  - intros s' Hs'. by apply Hkeep, Hkeep1.
  - intros s' [->|Hs']%elem_of_cons; [by apply Hkeep|by apply Hall].
Qed.

(** X7. When every source has a persisted cube, a call for a target returns,
    whatever calls came before on the grid, and afterwards the pair value of
    the target and any source is stored in the target's row or, from an
    earlier call for that source, in its column. *)
Theorem calls_row_complete (n : nat) (ds : gmap nat cube) (earlier : list nat) (t s : nat) :
  (∀ s, (s < n)%nat → is_Some (ds !! s)) → (t < n)%nat → (s < n)%nat →
  snd (get_variance_for_target n t (calls n earlier (fresh ds))) = Ok tt ∧
  stored_pair ds (the_grid n (calls n (earlier ++ [t]) (fresh ds))) t s.
Proof.
  intros Hds Ht Hs.
  unfold calls at 2. rewrite foldl_app. simpl. fold (calls n earlier (fresh ds)).
  set (h := calls n earlier (fresh ds)).
  destruct (calls_frame n earlier (fresh ds)) as (Hsub & Hwf).
  fold h in Hsub, Hwf. simpl in Hsub.
  destruct (calls_settled n earlier (fresh ds) (fresh_settled n ds)) as [Hset _].
  fold h in Hset. simpl in Hset.
  destruct (Hds t Ht) as [c0 Hc0].
  destruct (for_each_stored n ds t c0 (seq 0 n) Hds Ht Hc0
              ltac:(intros s' Hs'%elem_of_seq; lia) (the_grid n h)
              (Hwf (wf_zeros n)) Hset)
    as (g' & Hrun & _ & _ & _ & Hall).
  unfold get_variance_for_target, fill_row. rewrite Hsub, Hc0, Hrun. simpl.
  split; [done|]. apply Hall, elem_of_seq. lia.
Qed.

Lemma calls_row_complete_witness :
  snd (get_variance_for_target 2 0 (calls 2 [1%nat] (fresh two_sources))) = Ok tt ∧
  stored_pair two_sources (the_grid 2 (calls 2 ([1%nat] ++ [0%nat]) (fresh two_sources))) 0 1.
Proof.
  apply (calls_row_complete 2 two_sources [1%nat] 0 1).
  - intros [|[|s]] Hs; [vm_compute; eauto..|lia].
  - lia.
  - lia.
Defined.

End GridHistory.

(** ** The stamp cache and the persisted stamps *)

Section StampCache.
Import Stamps.
Context (pixel_color : Qc → Qc → string) (Cutout2D : Qc * Qc → Z * Z → result Cutout).

(** X8. [force_new] on a cached source drops its entry before the geometry
    is rebuilt: the call returns what the rebuilt geometry gives, and when
    that raises, or when [cache] is off, the source is left without an
    entry. *)
Theorem force_new_drops_entry (i : nat) (cache : bool) (o : Observation) (st : Stamp) :
  _stamps_cache o !! i = Some st →
  snd (get_source_slice pixel_color Cutout2D i true cache o)
    = geometry pixel_color Cutout2D o i ∧
  _stamps_cache (fst (get_source_slice pixel_color Cutout2D i true cache o)) !! i =
    match geometry pixel_color Cutout2D o i with
    | Ok st' => if cache then Some st' else None
    | Raise _ => None
    end.
Proof.
  intros Hc. rewrite get_source_slice_force_new, Hc, new_source_slice_unfold.
  rewrite (geometry_frame pixel_color Cutout2D i o (set_stamps_cache (delete i) o))
    by done.
  destruct (geometry pixel_color Cutout2D o i) as [st'|e]; simpl.
  - split; [done|]. destruct cache; simpl.
    + by rewrite lookup_insert_eq.
    + by rewrite lookup_delete_eq.
  - split; [done|]. by rewrite lookup_delete_eq.
Qed.

(** X9. Without [force_new] and with [cache] off the cache is left exactly
    as it was, and a repeated call gives the same answer. *)
Theorem get_source_slice_without_cache (i : nat) (o : Observation) :
  let o' := fst (get_source_slice pixel_color Cutout2D i false false o) in
  _stamps_cache o' = _stamps_cache o ∧
  snd (get_source_slice pixel_color Cutout2D i false false o') =
    snd (get_source_slice pixel_color Cutout2D i false false o).
Proof.
  rewrite get_source_slice_unfold.
  destruct (_stamps_cache o !! i) as [st|] eqn:Hc; simpl.
  { split; [done|]. by rewrite get_source_slice_unfold, Hc. }
  rewrite new_source_slice_unfold.
  destruct (geometry pixel_color Cutout2D o i) as [st|e] eqn:Hg; simpl.
  - split; [done|]. rewrite get_source_slice_unfold. simpl. rewrite Hc.
    rewrite new_source_slice_unfold.
    rewrite (geometry_frame pixel_color Cutout2D i o) by done. by rewrite Hg.
  - split; [done|]. rewrite get_source_slice_unfold, Hc, new_source_slice_unfold.
    by rewrite Hg.
Qed.

Lemma create_stamps_loop_present index : ∀ ss o,
  (∀ i, i ∈ index → is_Some (subtracted (_hdf5_subtracted o) !! i)) →
  create_stamps_loop pixel_color Cutout2D ss index o = (o, Ok ss).
Proof.
  induction index as [|j index IH]; intros ss o Hall; simpl; [done|].
  unfold bind. rewrite create_stamp_unfold, decide_True.
  - apply IH. intros i Hi. apply Hall. by right.
  - apply elem_of_dom, Hall. left.
Qed.

(** X10. When every source already has its dataset, [create_stamps] does
    nothing at all: no dataset is rewritten, no geometry is computed, and the
    stamp size attributes are not written. *)
Theorem create_stamps_all_present (num_sources : nat) (o : Observation) :
  (∀ i, (i < num_sources)%nat → is_Some (subtracted (_hdf5_subtracted o) !! i)) →
  create_stamps pixel_color Cutout2D num_sources o = (o, Ok tt).
Proof.
  intros Hall. unfold create_stamps, bind.
  rewrite create_stamps_loop_present; [done|].
  intros i Hi%elem_of_seq. apply Hall. lia.
Qed.

Lemma create_stamps_subtracted n o :
  subtracted (_hdf5_subtracted (fst (create_stamps pixel_color Cutout2D n o))) =
  subtracted (_hdf5_subtracted
                (fst (create_stamps_loop pixel_color Cutout2D None (seq 0 n) o))).
Proof.
  unfold create_stamps, bind.
  destruct (create_stamps_loop_returns pixel_color Cutout2D (seq 0 n) None o) as [ss Hret].
  destruct (create_stamps_loop _ _ _ _ _) as [o1 r]. simpl in *. subst r.
  by destruct ss.
Qed.

(** X11. A round trip: once [create_stamps] has materialized a source, with
    stamp slices [ss], [get_frame_stamp] without [reshape] returns for every
    frame the cut of that frame at those slices, as it was in the cube when
    the stamps were created.  It is read from the store: the observation is
    left as it is, and asking for background subtraction subtracts
    nothing. *)
Theorem create_stamps_then_get_frame_stamp (num_sources i f : nat) (o : Observation)
    (ss : Stamp) (frame : image) :
  (i < num_sources)%nat →
  subtracted (_hdf5_subtracted o) !! i = None →
  snd (materialize pixel_color Cutout2D i o) = Ok ss →
  data_cube o !! f = Some frame →
  let o' := fst (create_stamps pixel_color Cutout2D num_sources o) in
  ∀ subtract_background get_subtracted force_new cache,
    get_frame_stamp pixel_color Cutout2D i f subtract_background get_subtracted false
      force_new cache o'
    = (o', Ok (cut (row_slice ss) (col_slice ss) frame)).
Proof.
  intros Hi Hnone Hss Hframe o' sb gs fn c.
  assert (subtracted (_hdf5_subtracted o') !! i
          = Some (map (cut (row_slice ss) (col_slice ss)) (data_cube o))) as Hd.
  { unfold o'. rewrite create_stamps_subtracted.
    pose proof (create_stamps_loop_outcome pixel_color Cutout2D (seq 0 num_sources)
                  (NoDup_seq 0 num_sources) None o i) as Hout.
    rewrite Hss in Hout. apply Hout; [apply elem_of_seq; lia|by apply not_elem_of_dom]. }
  unfold get_frame_stamp, try_except, bind, gets, lift, ret, of_option, id. simpl.
  rewrite Hd. simpl.
  change (map ?g ?l) with (g <$> l). by rewrite list_lookup_fmap, Hframe.
Qed.

Lemma chunks_concat (a : image) (c : nat) :
  Forall (λ row, length row = c) a → chunks (length a) c (concat a) = a.
Proof.
  induction 1 as [|row a Hrow _ IH]; simpl; [done|].
  rewrite take_app_length' by done. rewrite drop_app_length' by done. by rewrite IH.
Qed.

Lemma length_concat_rows (a : image) (c : nat) :
  Forall (λ row, length row = c) a → length (concat a) = (length a * c)%nat.
Proof.
  induction 1 as [|row a Hrow _ IH]; simpl; [done|].
  rewrite length_app, IH, Hrow. lia.
Qed.

(** X12. With [reshape], a stored stamp whose shape is the recorded
    [stamp_rows] by [stamp_cols] comes back in that shape, each value
    truncated towards zero; the observation is left as it is. *)
Theorem get_frame_stamp_reshape (i f : nat) (subtract_background get_subtracted force_new
    cache : bool) (o : Observation) (dset : cube) (stamp : image) (num_cols : nat) :
  subtracted (_hdf5_subtracted o) !! i = Some dset →
  dset !! f = Some stamp →
  attrs (_hdf5_subtracted o) !! "stamp_rows"%string = Some (Z.of_nat (length stamp)) →
  attrs (_hdf5_subtracted o) !! "stamp_cols"%string = Some (Z.of_nat num_cols) →
  Forall (λ row, length row = num_cols) stamp →
  get_frame_stamp pixel_color Cutout2D i f subtract_background get_subtracted true
    force_new cache o
  = (o, Ok (map (map (λ x, Qc_of_Z (truncate x))) stamp)).
Proof.
  intros Hd Hf Hr Hc Hshape.
  unfold get_frame_stamp, try_except, bind, gets, lift, ret, of_option, id. simpl.
  rewrite Hd. simpl. rewrite Hf. simpl. rewrite Hr. simpl. rewrite Hc. simpl.
  unfold reshape. rewrite decide_True; cycle 1.
  { split_and!; [lia|lia|]. rewrite (length_concat_rows stamp num_cols) by done. lia. }
  simpl. rewrite !Nat2Z.id. by rewrite chunks_concat.
Qed.

(** X13. With [reshape], a stored stamp is not used when the attribute
    [stamp_rows] is missing: the [KeyError] sends the method down its
    fallback, which cuts the frame from the data cube, returns it without
    reshaping or truncating, and fails when asked to subtract the
    background. *)
Theorem get_frame_stamp_missing_attribute (i f : nat) (get_subtracted force_new cache : bool)
    (o o1 : Observation) (dset : cube) (stamp : image) (ss : Stamp) (frame : image) :
  subtracted (_hdf5_subtracted o) !! i = Some dset →
  dset !! f = Some stamp →
  attrs (_hdf5_subtracted o) !! "stamp_rows"%string = None →
  get_source_slice pixel_color Cutout2D i force_new cache o = (o1, Ok ss) →
  data_cube o !! f = Some frame →
  get_frame_stamp pixel_color Cutout2D i f false get_subtracted true force_new cache o
    = (o1, Ok (cut (row_slice ss) (col_slice ss) frame)) ∧
  get_frame_stamp pixel_color Cutout2D i f true get_subtracted true force_new cache o
    = (o1, Raise TypeError).
Proof.
  intros Hd Hf Hr Hss Hframe.
  pose proof (get_source_slice_effect pixel_color Cutout2D i force_new cache o)
    as (_ & _ & Hcube & _).
  rewrite Hss in Hcube. simpl in Hcube.
  unfold get_frame_stamp, try_except, bind, gets, lift, ret, raise, of_option, id.
  simpl. rewrite Hd. simpl. rewrite Hf. simpl. rewrite Hr. simpl.
  rewrite Hss, Hcube, Hframe. done.
Qed.

(** X14. Whatever colour [utils.pixel_color] reports, the adjusted midpoint
    lies 1 to 3 pixels to the left of the tracked one and 3 to 5 pixels
    above it in [y]. *)
Theorem adjust_stamp_midpoint_bounds (mid_pos : Qc * Qc) :
  ∃ dx dy : Z,
    -3 ≤ dx ≤ -1 ∧ 3 ≤ dy ≤ 5 ∧
    _adjust_stamp_midpoint pixel_color mid_pos
      = ((fst mid_pos + Qc_of_Z dx)%Qc, (snd mid_pos + Qc_of_Z dy)%Qc).
Proof.
  assert (Qc_of_Z (-3) = -(1) - Qc_of_Z 2)%Qc as H3 by (by apply Qc_is_canon).
  assert (Qc_of_Z (-2) = - Qc_of_Z 2)%Qc as H2 by (by apply Qc_is_canon).
  assert (Qc_of_Z (-1) = 1 - Qc_of_Z 2)%Qc as H1 by (by apply Qc_is_canon).
  assert (Qc_of_Z 3 = -(1) + Qc_of_Z 4)%Qc as H3' by (by apply Qc_is_canon).
  assert (Qc_of_Z 5 = 1 + Qc_of_Z 4)%Qc as H5 by (by apply Qc_is_canon).
  destruct mid_pos as [x y]. unfold _adjust_stamp_midpoint. simpl.
  destruct (decide (pixel_color x y = "G2"%string)).
  { exists (-3), 4. split_and!; try lia. rewrite H3. f_equal; ring. }
  destruct (decide (pixel_color x y = "G1"%string)).
  { exists (-2), 3. split_and!; try lia. rewrite H2, H3'. f_equal; ring. }
  destruct (decide (pixel_color x y = "B"%string)).
  { exists (-3), 4. split_and!; try lia. rewrite H3. f_equal; ring. }
  destruct (decide (pixel_color x y = "R"%string)).
  { exists (-1), 5. split_and!; try lia. rewrite H1, H5. f_equal; ring. }
  exists (-2), 4. split_and!; try lia. rewrite H2. f_equal; ring.
Qed.

End StampCache.

Lemma force_new_drops_entry_witness :
  let st := Stamps.MkStamp (0, 2)%nat (0, 2)%nat (Qc_of_Z 1, Qc_of_Z 1)
              (Stamps.MkCutout ((0, 1), (0, 1))%nat (2, 2)%nat) in
  let o := Stamps.set_stamps_cache (insert 0%nat st) Stamps.two_in_frame in
  snd (Stamps.get_source_slice Stamps.blue Stamps.cutout_right_of_50 0 true true o)
    = Stamps.geometry Stamps.blue Stamps.cutout_right_of_50 o 0 ∧
  Stamps._stamps_cache
    (fst (Stamps.get_source_slice Stamps.blue Stamps.cutout_right_of_50 0 true true o))
    !! 0%nat = None.
Proof.
  intros st o.
  exact (force_new_drops_entry Stamps.blue Stamps.cutout_right_of_50 0 true o st eq_refl).
Defined.

Lemma create_stamps_all_present_witness :
  let o := Stamps.set_hdf5_subtracted (set_subtracted 0 []) Stamps.one_frame in
  Stamps.create_stamps Stamps.blue Stamps.cutout_2x2 1 o = (o, Ok tt).
Proof.
  intros o. apply (create_stamps_all_present Stamps.blue Stamps.cutout_2x2 1 o).
  intros i Hi. assert (i = 0%nat) as -> by lia. by eexists.
Defined.

Lemma create_stamps_then_get_frame_stamp_witness :
  let o' := fst (Stamps.create_stamps Stamps.blue Stamps.cutout_2x2 1 Stamps.one_frame) in
  Stamps.get_frame_stamp Stamps.blue Stamps.cutout_2x2 0 0 true true false false true o'
    = (o', Ok [[Qc_of_Z 1; Qc_of_Z 2]; [Qc_of_Z 4; Qc_of_Z 5]]).
Proof.
  exact (create_stamps_then_get_frame_stamp Stamps.blue Stamps.cutout_2x2 1 0 0
           Stamps.one_frame
           (Stamps.MkStamp (0, 2)%nat (0, 2)%nat
              (Stamps._adjust_stamp_midpoint Stamps.blue (Qc_of_Z 100, Qc_of_Z 100))
              (Stamps.MkCutout ((0, 1), (0, 1))%nat (2, 2)%nat))
           [[Qc_of_Z 1; Qc_of_Z 2; Qc_of_Z 3];
            [Qc_of_Z 4; Qc_of_Z 5; Qc_of_Z 6];
            [Qc_of_Z 7; Qc_of_Z 8; Qc_of_Z 9]]
           ltac:(lia) eq_refl eq_refl eq_refl true true false true).
Defined.

Lemma get_frame_stamp_reshape_witness :
  let o := Stamps.set_hdf5_subtracted
             (λ h, set_attr "stamp_cols" 2 (set_attr "stamp_rows" 1
                     (set_subtracted 0 [[[Q2Qc (5 # 2); Q2Qc (-5 # 2)]]] h)))
             Stamps.one_frame in
  Stamps.get_frame_stamp Stamps.blue Stamps.cutout_2x2 0 0 true true true false true o
    = (o, Ok [[Qc_of_Z 2; Qc_of_Z (-2)]]).
Proof.
  intros o.
  exact (get_frame_stamp_reshape Stamps.blue Stamps.cutout_2x2 0 0 true true false true o
           [[[Q2Qc (5 # 2); Q2Qc (-5 # 2)]]] [[Q2Qc (5 # 2); Q2Qc (-5 # 2)]] 2
           eq_refl eq_refl eq_refl eq_refl
           (Forall_cons_2 (λ row, length row = 2%nat) [Q2Qc (5 # 2); Q2Qc (-5 # 2)] []
              eq_refl (Forall_nil_2 _))).
Defined.

Lemma get_frame_stamp_missing_attribute_witness :
  let o := Stamps.set_hdf5_subtracted (set_subtracted 0 [[[Qc_of_Z 1]]]) Stamps.one_frame in
  let o1 := fst (Stamps.get_source_slice Stamps.blue Stamps.cutout_2x2 0 false true o) in
  Stamps.get_frame_stamp Stamps.blue Stamps.cutout_2x2 0 0 false true true false true o
    = (o1, Ok [[Qc_of_Z 1; Qc_of_Z 2]; [Qc_of_Z 4; Qc_of_Z 5]]) ∧
  Stamps.get_frame_stamp Stamps.blue Stamps.cutout_2x2 0 0 true true true false true o
    = (o1, Raise TypeError).
Proof.
  intros o o1.
  exact (get_frame_stamp_missing_attribute Stamps.blue Stamps.cutout_2x2 0 0 true false true
           o o1 [[[Qc_of_Z 1]]] [[Qc_of_Z 1]]
           (Stamps.MkStamp (0, 2)%nat (0, 2)%nat
              (Stamps._adjust_stamp_midpoint Stamps.blue (Qc_of_Z 100, Qc_of_Z 100))
              (Stamps.MkCutout ((0, 1), (0, 1))%nat (2, 2)%nat))
           [[Qc_of_Z 1; Qc_of_Z 2; Qc_of_Z 3];
            [Qc_of_Z 4; Qc_of_Z 5; Qc_of_Z 6];
            [Qc_of_Z 7; Qc_of_Z 8; Qc_of_Z 9]]
           eq_refl eq_refl eq_refl eq_refl eq_refl).
Defined.

(** ** Padding of a drift that is not a whole number of pixels *)

Section PadRational.
Import Pad.

Lemma ceiling_times_8_bounds (a : Q) :
  (a <= inject_Z (Qceiling (a / inject_Z 8) * 8))%Q ∧
  (inject_Z (Qceiling (a / inject_Z 8) * 8) < a + inject_Z 8)%Q.
Proof.
  pose proof (Qle_ceiling (a / inject_Z 8)) as Hle.
  pose proof (Qceiling_lt (a / inject_Z 8)) as Hlt.
  unfold Z.sub in Hlt. rewrite inject_Z_plus, inject_Z_opp in Hlt.
  rewrite inject_Z_mult.
  set (c := inject_Z (Qceiling (a / inject_Z 8))) in *.
  assert (a == a / inject_Z 8 * inject_Z 8)%Q as Ha by (field; discriminate).
  split.
  - rewrite Ha at 1. apply Qmult_le_compat_r; [done|discriminate].
  - apply (Qmult_lt_compat_r _ _ (inject_Z 8)) in Hlt; [|reflexivity].
    rewrite <- Ha in Hlt.
    apply Qlt_minus_iff. apply Qlt_minus_iff in Hlt.
    assert (a + inject_Z 8 + - (c * inject_Z 8)
            == a + - ((c + - inject_Z 1) * inject_Z 8))%Q as -> by ring.
    exact Hlt.
Qed.

Lemma pad_float_comp (a a' : Q) : (a == a')%Q → pad_float a = pad_float a'.
Proof.
  intros H. unfold pad_float, div8. do 4 f_equal.
  apply round_half_even_comp. by rewrite H.
Qed.

Lemma div8_eighth_exact (num : Qc) :
  eighth_is_exact num → (div8 (Qabs (this num)) == Qabs (this num) / inject_Z 8)%Q.
Proof.
  unfold eighth_is_exact. destruct (this num) as [n d]. cbn [Qden Qabs].
  intros [c Hc]. apply (div8_exact _ (Z.abs n * c)). rewrite Hc.
  unfold Qeq, Qmult, inject_Z. cbn [Qnum Qden]. lia.
Qed.

(** X15. For a float64 drift, whole or not, [_pad_super_pixel] returns a
    multiple of 8, and the sign of the drift does not matter.  When the
    drift is a multiple of [2 ^ -1071], as is every float64 of magnitude
    [2 ^ -1019] or more, the result is at least the absolute value of the
    drift and less than 8 above it. *)
Theorem pad_super_pixel_rational (num : Qc) :
  eighth_is_exact num →
  let p := _pad_super_pixel num in
  (8 | p) ∧
  (Qabs (this num) <= inject_Z p)%Q ∧ (inject_Z p < Qabs (this num) + inject_Z 8)%Q ∧
  _pad_super_pixel (- num) = p.
Proof.
  intros Hex p. subst p. unfold _pad_super_pixel.
  assert (pad_float (Qabs (this (- num)%Qc)) = pad_float (Qabs (this num))) as ->.
  { apply pad_float_comp. change (this (- num)%Qc) with (Qred (- this num)).
    rewrite Qred_correct. apply Qabs_opp. }
  split; [apply Z.divide_factor_r|].
  destruct (ceiling_times_8_bounds (Qabs (this num))) as [Hle Hlt].
  assert (pad_float (Qabs (this num))
          = Qceiling (Qabs (this num) / inject_Z 8) * 8) as ->.
  { unfold pad_float. f_equal. by apply Qceiling_comp, div8_eighth_exact. }
  done.
Qed.

Lemma pad_super_pixel_rational_witness :
  (8 | _pad_super_pixel (Q2Qc (-21 # 2))) ∧
  (Qabs (this (Q2Qc (-21 # 2))) <= inject_Z (_pad_super_pixel (Q2Qc (-21 # 2))))%Q ∧
  (inject_Z (_pad_super_pixel (Q2Qc (-21 # 2)))
   < Qabs (this (Q2Qc (-21 # 2))) + inject_Z 8)%Q ∧
  _pad_super_pixel (- Q2Qc (-21 # 2)) = _pad_super_pixel (Q2Qc (-21 # 2)).
Proof.
  apply (pad_super_pixel_rational (Q2Qc (-21 # 2))).
  exists (2 ^ 1070). by vm_compute.
Defined.

End PadRational.

(** ** The catalogue filter keeps the catalogue's order *)

Section CatalogOrder.
Import Catalog.

Lemma filter_all {A} (P : A → Prop) `{∀ x, Decision (P x)} (l : list A) :
  (∀ x, x ∈ l → P x) → filter P l = l.
Proof.
  induction l as [|x l IH]; intros Hall; [done|].
  rewrite filter_cons_True by (apply Hall; left).
  f_equal. apply IH. intros y Hy. apply Hall. by right.
Qed.

(** X16. The sources returned are a sublist of the catalogue's rows: the
    filter reorders nothing and repeats nothing.  Filtering the result again
    changes nothing, whether it is read as a table with the [FLAGS] column
    removed or with it kept. *)
Theorem lookup_point_sources_sublist (cat : table) :
  lookup_point_sources cat `sublist_of` rows cat ∧
  lookup_point_sources (Table false (lookup_point_sources cat)) = lookup_point_sources cat ∧
  lookup_point_sources (Table (has_FLAGS cat) (lookup_point_sources cat))
    = lookup_point_sources cat.
Proof.
  split_and!.
  - unfold lookup_point_sources. destruct (has_FLAGS cat).
    + etrans; apply sublist_filter.
    + apply sublist_filter.
  - unfold lookup_point_sources at 1. simpl. apply filter_all.
    intros s (_ & _ & Hs)%elem_of_lookup_point_sources. by apply clear_of_edges_iff.
  - unfold lookup_point_sources at 1. simpl.
    assert ((if has_FLAGS cat
             then filter (λ s, FLAGS s = 0) (lookup_point_sources cat)
             else lookup_point_sources cat) = lookup_point_sources cat) as ->.
    { destruct (has_FLAGS cat) eqn:Hf; [|done]. apply filter_all.
      intros s (_ & Hs & _)%elem_of_lookup_point_sources. by apply Hs. }
    apply filter_all.
    intros s (_ & _ & Hs)%elem_of_lookup_point_sources. by apply clear_of_edges_iff.
Qed.

End CatalogOrder.

(** ** Calls of [subtract_frame_background] *)

Section BackgroundCalls.
Import Background Pixels.
Context (make_source_mask : image → mask) (make_masks : image → mask * mask * mask)
        (sigma_clipped_stats : image → mask → stats).

Local Abbreviation sfb := (subtract_frame_background make_source_mask make_masks sigma_clipped_stats).

(** X17. As long as the attribute [_back_w] is missing, as it is on a newly
    constructed observation, every call raises before it looks at the cache:
    [TypeError] when [mid_point] is left at [None], [AttributeError]
    otherwise.  The observation is left as it is. *)
Theorem subtract_frame_background_needs_back_w (stamp : image) (frame_index : nat)
    (r_mask g_mask b_mask : option mask) (mid_point : option (Qc * Qc))
    (method : string) (store : bool) (s : state) :
  _back_w s = None →
  sfb stamp frame_index r_mask g_mask b_mask mid_point method store s
    = (s, Raise (match mid_point with None => TypeError | Some _ => AttributeError end)).
Proof.
  intros Hw. rewrite subtract_frame_background_unfold.
  unfold cell_of, background_region_id, bind, lift, gets, ret, of_option, id.
  destruct mid_point as [mp|]; simpl; [|done]. by rewrite Hw.
Qed.

Lemma channel_lists_cached f c store s r g b :
  samples s f c red = Some r → samples s f c green = Some g →
  samples s f c blue = Some b →
  channel_lists f c store s = (s, Ok (r, g, b, true)).
Proof.
  intros Hr Hg Hb.
  assert (ensure_frame f s = s) as Hef.
  { unfold ensure_frame. unfold samples, region_dict in Hr.
    by destruct (background_region s !! f). }
  assert (ensure_cell f c s = s) as Hec.
  { unfold ensure_cell. unfold samples in Hr. by destruct (region_dict s f c). }
  unfold channel_lists, bind, modify, gets, ret, id. simpl.
  rewrite Hef, Hec, Hr, Hg, Hb. done.
Qed.

Lemma frozen_call stamp f rm gm bm mp method store s c r g b :
  cell_of s mp = Ok c →
  samples s f c red = Some r → samples s f c green = Some g →
  samples s f c blue = Some b → (5 ≤ length r)%nat →
  sfb stamp f rm gm bm mp method store s
    = (s, subtract_medians stamp method r g b (rm, gm, bm)).
Proof.
  intros Hc Hr Hg Hb Hlen.
  rewrite subtract_frame_background_unfold, Hc.
  rewrite (channel_lists_cached f c store s r g b) by done.
  unfold collect_samples. rewrite decide_False by lia. done.
Qed.

(** X18. Once the red list of a cell holds five samples the cell is frozen:
    a call for it takes no sample and leaves the observation exactly as it
    is; what it returns or raises does not depend on the source mask, the
    masks or the statistics its collaborators would give for this stamp, and
    is what the last part of the method computes from the cached lists, the
    stamp and the masks passed in. *)
Theorem capped_cell_is_frozen (stamp : image) (frame_index : nat)
    (r_mask g_mask b_mask : option mask) (mid_point : option (Qc * Qc))
    (method : string) (store : bool) (s : state) (cell : Z * Z) (r g b : list stats) :
  cell_of s mid_point = Ok cell →
  samples s frame_index cell red = Some r →
  samples s frame_index cell green = Some g →
  samples s frame_index cell blue = Some b →
  (5 ≤ length r)%nat →
  fst (sfb stamp frame_index r_mask g_mask b_mask mid_point method store s) = s ∧
  (∀ make_source_mask' make_masks' sigma_clipped_stats',
     subtract_frame_background make_source_mask' make_masks' sigma_clipped_stats'
       stamp frame_index r_mask g_mask b_mask mid_point method store s
     = sfb stamp frame_index r_mask g_mask b_mask mid_point method store s) ∧
  snd (sfb stamp frame_index r_mask g_mask b_mask mid_point method store s)
    = subtract_medians stamp method r g b (r_mask, g_mask, b_mask).
Proof.
  intros Hc Hr Hg Hb Hlen.
  assert (∀ msm mm scs,
            subtract_frame_background msm mm scs stamp frame_index r_mask g_mask b_mask
              mid_point method store s
            = (s, subtract_medians stamp method r g b (r_mask, g_mask, b_mask))) as Hall.
  { intros msm mm scs. rewrite subtract_frame_background_unfold, Hc.
    rewrite (channel_lists_cached frame_index cell store s r g b) by done.
    unfold collect_samples. rewrite decide_False by lia. done. }
  split_and!.
  - by rewrite Hall.
  - intros msm mm scs. by rewrite !Hall.
  - by rewrite Hall.
Qed.

(** X19. On a frozen cell, a call that passes no red mask (the default)
    cannot return: with a known method and samples in all three lists it
    raises [TypeError], from negating [None], and changes nothing. *)
Theorem capped_cell_needs_masks (stamp : image) (frame_index : nat)
    (g_mask b_mask : option mask) (mid_point : option (Qc * Qc))
    (method : string) (store : bool) (s : state) (cell : Z * Z) (r g b : list stats) :
  cell_of s mid_point = Ok cell →
  samples s frame_index cell red = Some r →
  samples s frame_index cell green = Some g →
  samples s frame_index cell blue = Some b →
  (5 ≤ length r)%nat → g ≠ [] → b ≠ [] →
  is_Some (method_lookup !! method) →
  sfb stamp frame_index None g_mask b_mask mid_point method store s = (s, Raise TypeError).
Proof.
  intros Hc Hr Hg Hb Hlen Hgn Hbn [idx Hidx].
  rewrite (frozen_call stamp frame_index None g_mask b_mask mid_point method store s cell
             r g b) by done.
  f_equal. unfold subtract_medians, background_value. rewrite Hidx.
  destruct r as [|xr r]; [simpl in Hlen; lia|].
  destruct g as [|xg g]; [done|]. destruct b as [|xb b]; [done|]. done.
Qed.

(** X20. The method name is looked up only after the sampling: what a call
    leaves in the cache does not depend on [background_sub_method], and with
    a name other than ['mean'] and ['median'] the call cannot return; it
    raises [KeyError] whenever the same call with ['median'] returns. *)
Theorem unknown_method_raises_after_sampling (stamp : image) (frame_index : nat)
    (r_mask g_mask b_mask : option mask) (mid_point : option (Qc * Qc))
    (method : string) (store : bool) (s : state) :
  method_lookup !! method = None →
  (∀ method', fst (sfb stamp frame_index r_mask g_mask b_mask mid_point method store s)
              = fst (sfb stamp frame_index r_mask g_mask b_mask mid_point method' store s)) ∧
  (∃ e, snd (sfb stamp frame_index r_mask g_mask b_mask mid_point method store s)
        = Raise e) ∧
  (∀ out, snd (sfb stamp frame_index r_mask g_mask b_mask mid_point "median" store s)
            = Ok out →
          snd (sfb stamp frame_index r_mask g_mask b_mask mid_point method store s)
            = Raise KeyError).
Proof.
  intros Hm.
  assert (∀ r g b masks, subtract_medians stamp method r g b masks = Raise KeyError) as Hk.
  { intros. unfold subtract_medians. by rewrite Hm. }
  split_and!.
  - intros method'. rewrite !subtract_frame_background_unfold.
    destruct (cell_of s mid_point) as [c|e]; [|done].
    destruct (channel_lists frame_index c store s) as [s1 [lists|e]]; [|done].
    by destruct (collect_samples _ _ _ _ _ _ _ _ _) as [s2 [[[[r g] b] masks]|e]].
  - rewrite subtract_frame_background_unfold.
    destruct (cell_of s mid_point) as [c|e]; [|by eexists].
    destruct (channel_lists frame_index c store s) as [s1 [lists|e]]; [|by eexists].
    destruct (collect_samples _ _ _ _ _ _ _ _ _) as [s2 [[[[r g] b] masks]|e]];
      simpl; [rewrite Hk|]; by eexists.
  - intros out. rewrite !subtract_frame_background_unfold.
    destruct (cell_of s mid_point) as [c|e]; [|done].
    destruct (channel_lists frame_index c store s) as [s1 [lists|e]]; [|done].
    destruct (collect_samples _ _ _ _ _ _ _ _ _) as [s2 [[[[r g] b] masks]|e]];
      simpl; [by rewrite Hk|done].
Qed.

(** X21. What the last part of the method computes for masks of the
    stamp's shape.  The three masked arrays share the stamp's buffer, so
    each subtraction is seen by the others: in the buffer, which is the
    caller's stamp, a pixel ends as its value minus the background of every
    channel whose mask selects it, and in the returned image, which has the
    stamp's shape, it is that value once for every such channel.  A pixel
    selected by exactly one channel loses that channel's background; one
    selected by none is zero in the returned image and untouched in the
    buffer. *)
Theorem subtract_medians_pixels (stamp : image) (method : string) (sel : stats → Qc)
    (r g b : list stats) (r_mask g_mask b_mask : mask) :
  (method = "mean"%string ∧ sel = (λ st : stats, st.1.1)) ∨
  (method = "median"%string ∧ sel = (λ st : stats, st.1.2)) →
  r ≠ [] → g ≠ [] → b ≠ [] →
  same_shape stamp r_mask = true → same_shape stamp g_mask = true →
  same_shape stamp b_mask = true →
  let R := median (map sel r) in
  let G := median (map sel g) in
  let B := median (map sel b) in
  let buffer := subtracted_buffer stamp r_mask g_mask b_mask R G B in
  ∃ out,
    subtract_medians stamp method r g b (Some r_mask, Some g_mask, Some b_mask) = Ok out ∧
    map length out = map length stamp ∧ map length buffer = map length stamp ∧
    ∀ i j x, pixel stamp i j = Some x →
      ∃ sr sg sb,
        pixel r_mask i j = Some sr ∧ pixel g_mask i j = Some sg ∧
        pixel b_mask i j = Some sb ∧
        pixel buffer i j = Some (buffer_pixel x sr sg sb R G B) ∧
        pixel out i j = Some (returned_pixel x sr sg sb R G B).
Proof.
  intros Hsel Hr Hg Hb Hsr Hsg Hsb R G B buffer.
  pose proof Hsr as Hlr. pose proof Hsg as Hlg. pose proof Hsb as Hlb.
  unfold same_shape in Hlr, Hlg, Hlb.
  apply bool_decide_eq_true in Hlr, Hlg, Hlb.
  assert (∃ idx, method_lookup !! method = Some idx ∧ sel = statistic idx)
    as (idx & Hidx & ->).
  { destruct Hsel as [[-> ->]|[-> ->]]; [by exists 0%nat|by exists 1%nat]. }
  exists (combined buffer r_mask g_mask b_mask).
  split.
  { unfold subtract_medians, background_value, channel_mask, fit_mask.
    rewrite Hidx, Hsr, Hsg, Hsb.
    destruct r as [|xr r]; [done|]. destruct g as [|xg g]; [done|].
    by destruct b as [|xb b]. }
  assert (map length buffer = map length stamp) as Hbuf.
  { unfold buffer. by rewrite subtracted_buffer_shape. }
  split; [rewrite combined_shape; congruence|]. split; [done|].
  intros i j x Hx.
  destruct (subtracted_buffer_pixel stamp r_mask g_mask b_mask R G B i j x
              (eq_sym Hlr) (eq_sym Hlg) (eq_sym Hlb) Hx)
    as (sr & sg & sb & ? & ? & ? & ? & ?).
  by exists sr, sg, sb.
Qed.

(** X22. In every state the method can reach from a new observation, a call
    that returns, for a cell whose lists are cached or with
    [store_background] set, leaves each of the cell's three lists one sample
    longer when the red list held fewer than five, and as long as it was
    otherwise. *)
Theorem returning_call_takes_one_sample (back_w back_h : option Qc) (cs : list call)
    (c : call) (cell : Z * Z) (out : image) :
  let s := after_calls make_source_mask make_masks sigma_clipped_stats cs
             (initial back_w back_h) in
  let s' := fst (run_call make_source_mask make_masks sigma_clipped_stats c s) in
  let before ch := default [] (samples s (c_frame_index c) cell ch) in
  snd (run_call make_source_mask make_masks sigma_clipped_stats c s) = Ok out →
  cell_of s (c_mid_point c) = Ok cell →
  cached s (c_frame_index c) cell ∨ c_store_background c = true →
  ∀ ch, ∃ l, samples s' (c_frame_index c) cell ch = Some l ∧
             length l = if decide (length (before red) < 5)%nat
                        then S (length (before ch)) else length (before ch).
Proof.
  intros s s' before Hout Hc Hheld ch.
  assert (state_ok s) as Hok by apply after_calls_state_ok, state_ok_initial.
  subst s'. unfold run_call in *.
  destruct (subtract_frame_background_spec make_source_mask make_masks sigma_clipped_stats
              (c_stamp c) (c_frame_index c) (c_r_mask c)
              (c_g_mask c) (c_b_mask c) (c_mid_point c) (c_background_sub_method c)
              (c_store_background c) s cell Hc)
    as (s1 & r & g & b & held & s2 & res & n & Heq & _ & _ & Hcase & _ & _ & _ & Hres).
  rewrite Heq in *. simpl in *.
  destruct res as [[[[r' g'] b'] masks']|e]; [|done].
  assert (held = true ∧ before red = r ∧ before green = g ∧ before blue = b)
    as (-> & Hbr & Hbg & Hbb).
  { unfold before.
    destruct Hcase as [(-> & -> & -> & -> & _)|(Hnc & -> & -> & -> & -> & _)]; [done|].
    destruct Hheld as [Hcached | ->]; [done|].
    destruct (Hok (c_frame_index c) cell) as [(-> & -> & ->)|(r0 & g0 & b0 & Hr0 & Hg0 & Hb0 & _)];
      [done|].
    exfalso. apply Hnc. unfold cached. rewrite Hr0, Hg0, Hb0. eauto. }
  destruct Hres as [Hs2 Hlists]. destruct (Hs2 eq_refl) as (Hr2 & Hg2 & Hb2).
  rewrite Hbr.
  destruct Hlists as [(Hlt & _ & _ & _ & xr & xg & xb & _ & _ & _ & _ & _ & -> & -> & ->)
                     |(Hge & -> & -> & -> & _)].
  - rewrite decide_True by done.
    destruct ch; eexists; (split; [done|]); rewrite length_app; simpl;
      rewrite ?Hbr, ?Hbg, ?Hbb; lia.
  - rewrite decide_False by lia.
    destruct ch; eexists; (split; [done|]); by rewrite ?Hbr, ?Hbg, ?Hbb.
Qed.

End BackgroundCalls.

Lemma subtract_frame_background_needs_back_w_witness :
  Background.subtract_frame_background Background.no_sources Background.all_red
    Background.first_pixel_stats Background.tiny_stamp 0 None None None
    (Some (Qc_of_Z 100, Qc_of_Z 100)) "median" false (Background.initial None None)
  = (Background.initial None None, Raise AttributeError).
Proof.
  apply (subtract_frame_background_needs_back_w Background.no_sources Background.all_red
           Background.first_pixel_stats Background.tiny_stamp 0 None None None
           (Some (Qc_of_Z 100, Qc_of_Z 100)) "median" false (Background.initial None None)).
  reflexivity.
Defined.

Lemma capped_cell_is_frozen_witness :
  Background.subtract_frame_background Background.no_sources Background.all_red
    Background.first_pixel_stats Background.tiny_stamp 0
    (Some [[true; false]]) (Some [[false; true]]) (Some [[false; false]])
    (Some (Qc_of_Z 100, Qc_of_Z 100)) "median" true BackgroundExamples.full_cell
  = (BackgroundExamples.full_cell, Ok [[Q2Qc (inject_Z (-5)); Q2Qc (inject_Z (-3))]]).
Proof.
  destruct (capped_cell_is_frozen Background.no_sources Background.all_red
              Background.first_pixel_stats Background.tiny_stamp 0
              (Some [[true; false]]) (Some [[false; true]]) (Some [[false; false]])
              (Some (Qc_of_Z 100, Qc_of_Z 100)) "median" true BackgroundExamples.full_cell
              (0, 0) BackgroundExamples.five_samples BackgroundExamples.five_samples
              BackgroundExamples.five_samples
              ltac:(vm_compute; reflexivity) ltac:(vm_compute; reflexivity)
              ltac:(vm_compute; reflexivity) ltac:(vm_compute; reflexivity)
              ltac:(vm_compute; lia)) as (Hfst & _ & Hsnd).
  destruct (Background.subtract_frame_background _ _ _ _ _ _ _ _ _ _ _ _) as [s' res].
  cbn [fst snd] in Hfst, Hsnd. rewrite Hfst, Hsnd. reflexivity.
Defined.

Lemma capped_cell_needs_masks_witness :
  Background.subtract_frame_background Background.no_sources Background.all_red
    Background.first_pixel_stats Background.tiny_stamp 0 None None None
    (Some (Qc_of_Z 100, Qc_of_Z 100)) "median" true BackgroundExamples.full_cell
  = (BackgroundExamples.full_cell, Raise TypeError).
Proof.
  apply (capped_cell_needs_masks Background.no_sources Background.all_red
           Background.first_pixel_stats Background.tiny_stamp 0 None None
           (Some (Qc_of_Z 100, Qc_of_Z 100)) "median" true BackgroundExamples.full_cell
           (0, 0) BackgroundExamples.five_samples BackgroundExamples.five_samples
           BackgroundExamples.five_samples);
    [vm_compute; reflexivity..|vm_compute; lia|done|done|by eexists].
Defined.

Lemma unknown_method_raises_after_sampling_witness :
  let s := Background.initial (Some (Qc_of_Z 434)) (Some (Qc_of_Z 316)) in
  let run method :=
    Background.subtract_frame_background Background.no_sources Background.all_red
      Background.first_pixel_stats Background.tiny_stamp 0 None None None
      (Some (Qc_of_Z 100, Qc_of_Z 100)) method true s in
  (∀ method', fst (run "mode"%string) = fst (run method')) ∧
  (∃ e, snd (run "mode"%string) = Raise e) ∧
  (∀ out, snd (run "median"%string) = Ok out → snd (run "mode"%string) = Raise KeyError).
Proof.
  intros s run.
  apply (unknown_method_raises_after_sampling Background.no_sources Background.all_red
           Background.first_pixel_stats Background.tiny_stamp 0 None None None
           (Some (Qc_of_Z 100, Qc_of_Z 100)) "mode" true s).
  reflexivity.
Defined.

Lemma subtract_medians_pixels_witness :
  ∃ out,
    Background.subtract_medians Background.tiny_stamp "mean"
      [(Qc_of_Z 10, Qc_of_Z 2, Qc_of_Z 0)] [(Qc_of_Z 10, Qc_of_Z 4, Qc_of_Z 0)]
      [(Qc_of_Z 10, Qc_of_Z 6, Qc_of_Z 0)]
      (Some [[true; false]], Some [[true; true]], Some [[false; false]]) = Ok out ∧
    Pixels.pixel out 0 0 = Some (Q2Qc (inject_Z (-30))) ∧
    Pixels.pixel out 0 1 = Some (Q2Qc (inject_Z (-3))) ∧
    Pixels.pixel
      (Background.subtracted_buffer Background.tiny_stamp
         [[true; false]] [[true; true]] [[false; false]]
         (Qc_of_Z 10) (Qc_of_Z 10) (Qc_of_Z 10)) 0 0 = Some (Q2Qc (inject_Z (-15))).
Proof.
  destruct (subtract_medians_pixels Background.tiny_stamp "mean" (λ st, st.1.1)
              [(Qc_of_Z 10, Qc_of_Z 2, Qc_of_Z 0)] [(Qc_of_Z 10, Qc_of_Z 4, Qc_of_Z 0)]
              [(Qc_of_Z 10, Qc_of_Z 6, Qc_of_Z 0)]
              [[true; false]] [[true; true]] [[false; false]]
              (or_introl (conj eq_refl eq_refl))
              ltac:(done) ltac:(done) ltac:(done) eq_refl eq_refl eq_refl)
    as (out & Hout & _ & _ & Hpix).
  exists out. split; [exact Hout|].
  destruct (Hpix 0%nat 0%nat (Qc_of_Z 5) eq_refl)
    as (sr & sg & sb & Hr & Hg & Hb & Hbuf & Hp).
  injection Hr as <-. injection Hg as <-. injection Hb as <-.
  destruct (Hpix 0%nat 1%nat (Qc_of_Z 7) eq_refl)
    as (sr & sg & sb & Hr & Hg & Hb & _ & Hp').
  injection Hr as <-. injection Hg as <-. injection Hb as <-.
  split; [exact Hp|]. split; [exact Hp'|exact Hbuf].
Defined.

Lemma returning_call_takes_one_sample_witness :
  let s := Background.initial (Some (Qc_of_Z 434)) (Some (Qc_of_Z 316)) in
  let s' := fst (Background.run_call Background.no_sources Background.all_red
                   Background.first_pixel_stats (Background.example_call true) s) in
  ∃ l, Background.samples s' 0 (0, 0) Background.red = Some l ∧ length l = 1%nat.
Proof.
  intros s s'.
  destruct (snd (Background.run_call Background.no_sources Background.all_red
                   Background.first_pixel_stats (Background.example_call true) s))
    as [out|e] eqn:E; [|vm_compute in E; discriminate E].
  exact (returning_call_takes_one_sample Background.no_sources Background.all_red
           Background.first_pixel_stats (Some (Qc_of_Z 434)) (Some (Qc_of_Z 316)) []
           (Background.example_call true) (0, 0) out E eq_refl (or_intror eq_refl)
           Background.red).
Defined.

(** ** The data cube *)

Section DataCubeFacts.
Import DataCube.
Context (getdata : string → result array)
        (h5py_broadcast : nat → nat → image → result image)
        (numpy_out_of_range : array → Z → result array).

Lemma for_each_app {S A} (xs ys : list A) (body : A → M S unit) (s : S) :
  for_each (xs ++ ys) body s =
    match for_each xs body s with
    | (s', Ok _) => for_each ys body s'
    | (s', Raise e) => (s', Raise e)
    end.
Proof.
  revert s. induction xs as [|x xs IH]; intros s; simpl; [done|].
  unfold bind. destruct (body x s) as [s1 [[]|e]]; [apply IH|done].
Qed.

Lemma has_shape_lengths {A} h w (a : list (list A)) :
  has_shape h w a = true ↔ map length a = replicate h w.
Proof.
  unfold has_shape. rewrite bool_decide_eq_true. split.
  - intros [<- Hall]. induction Hall as [|row a Hrow _ IH]; simpl; [done|].
    by rewrite Hrow, IH.
  - intros H. split.
    + apply (f_equal length) in H. by rewrite length_map, length_replicate in H.
    + apply Forall_forall. intros row Hrow.
      assert (length row ∈ replicate h w) as Hin.
      { rewrite <- H. apply list_elem_of_fmap. by exists row. }
      by apply elem_of_replicate in Hin as [-> _].
Qed.

Lemma has_shape_map {A B} h w (f : A → B) (a : list (list A)) :
  has_shape h w (map (map f) a) = has_shape h w a.
Proof.
  apply eq_true_iff_eq. rewrite !has_shape_lengths.
  rewrite map_map. by setoid_rewrite length_map.
Qed.

(** A value of an integer type of at most 24 bits is stored as it is. *)
Lemma wrap_bound signed bits z : (bits ≤ 24)%positive → Z.abs (wrap signed bits z) ≤ 2 ^ 24.
Proof.
  intros Hb.
  assert (2 ^ Z.pos bits ≤ 2 ^ 24) as Hle by (apply Z.pow_le_mono_r; lia).
  assert (0 < 2 ^ Z.pos bits) as Hpos by (apply Z.pow_pos_nonneg; lia).
  unfold wrap. destruct signed.
  - assert (2 ^ Z.pos bits = 2 * 2 ^ (Z.pos bits - 1)) as Hhalf.
    { rewrite <- Z.pow_succ_r by lia. f_equal. lia. }
    pose proof (Z.mod_pos_bound (z + 2 ^ (Z.pos bits - 1)) (2 ^ Z.pos bits) Hpos) as Hm.
    revert Hle Hhalf Hm.
    generalize ((z + 2 ^ (Z.pos bits - 1)) mod 2 ^ Z.pos bits).
    generalize (2 ^ (Z.pos bits - 1)). generalize (2 ^ Z.pos bits).
    generalize (2 ^ 24). lia.
  - pose proof (Z.mod_pos_bound z (2 ^ Z.pos bits) Hpos) as Hm.
    revert Hle Hm. generalize (z mod 2 ^ Z.pos bits). generalize (2 ^ Z.pos bits).
    generalize (2 ^ 24). lia.
Qed.

Lemma to_float32_wrap signed bits z :
  (bits ≤ 24)%positive → to_float32 (wrap signed bits z) = wrap signed bits z.
Proof. intros Hb. unfold to_float32. by rewrite decide_True by by apply wrap_bound. Qed.

(** An integer frame of [loads] minus the bias, as the dataset holds it. *)
Lemma minus_bias_stored bias signed bits pixels :
  (bits ≤ 24)%positive → in_range signed bits bias = true →
  ∃ diff, minus_bias numpy_out_of_range (PyInt bias) (IntArray signed bits pixels) = Ok diff ∧
          stored diff = biased_frame bias (signed, bits, pixels).
Proof.
  intros Hb Hin. unfold minus_bias. rewrite Hin. eexists. split; [done|].
  unfold stored, biased_frame. rewrite map_map. apply map_ext. intros row.
  rewrite map_map. apply map_ext. intros x. by rewrite to_float32_wrap.
Qed.

Lemma write_frame_stores i arr s c :
  cube_dset s = Some c → (i < length c)%nat → has_shape (_img_h s) (_img_w s) arr = true →
  write_frame h5py_broadcast i arr s
    = (set_cube_dset (λ _, Some (<[i := arr]> c)) s, Ok tt).
Proof.
  intros Hc Hi Hs.
  unfold write_frame, bind, gets, lift, modify, of_option, id. simpl.
  rewrite Hc. simpl. destruct (lookup_lt_is_Some_2 c i Hi) as [x ->]. simpl.
  by rewrite Hs.
Qed.

Lemma load_frames h w bias fs arrs : loads getdata h w bias fs arrs →
  ∀ k s c, cube_dset s = Some c → _img_h s = h → _img_w s = w →
    camera_bias s = PyInt bias →
    (k + length fs ≤ length c)%nat →
    for_each (zip (seq k (length fs)) fs)
      (load_frame getdata h5py_broadcast numpy_out_of_range) s
      = (set_cube_dset
           (λ _, Some (take k c ++ map (biased_frame bias) arrs ++ drop (k + length fs) c)) s,
         Ok tt).
Proof.
  induction 1 as [|f arr fs arrs Hf _ IH]; intros k s c Hc Hh Hw Hb Hlen.
  { simpl. rewrite Nat.add_0_r, take_drop. unfold ret. f_equal.
    destruct s; simpl in *. by subst. }
  destruct arr as [[signed bits] pixels]. destruct Hf as (Hget & Hshape & Hbits & Hin).
  destruct (minus_bias_stored bias signed bits pixels Hbits Hin) as (diff & Hdiff & Hstored).
  simpl in Hlen. simpl. unfold bind at 1.
  assert (load_frame getdata h5py_broadcast numpy_out_of_range (k, f) s
          = (set_cube_dset
               (λ _, Some (<[k := biased_frame bias (signed, bits, pixels)]> c)) s, Ok tt))
    as ->.
  { unfold load_frame. unfold bind at 1. unfold gets, id. unfold bind at 1, lift.
    cbn [fst snd]. rewrite Hget, Hb. unfold bind at 1. rewrite Hdiff, Hstored.
    apply write_frame_stores; [done|lia|].
    unfold biased_frame. by rewrite has_shape_map, Hh, Hw. }
  rewrite (IH (S k) _ (<[k := biased_frame bias (signed, bits, pixels)]> c)); try done;
    [|rewrite length_insert; lia].
  f_equal. unfold set_cube_dset. simpl. do 2 f_equal.
  rewrite (take_S_r _ k (biased_frame bias (signed, bits, pixels)))
    by (apply list_lookup_insert_eq; lia).
  rewrite take_insert_ge by lia. rewrite drop_insert_lt by lia.
  rewrite <- app_assoc. simpl. do 4 f_equal. lia.
Qed.

Lemma load_frame_keeps_dataset entry s :
  is_Some (cube_dset s) →
  is_Some (cube_dset (fst (load_frame getdata h5py_broadcast numpy_out_of_range entry s))).
Proof.
  intros [c Hc].
  unfold load_frame, write_frame, bind, gets, lift, modify, of_option, id. simpl.
  destruct (getdata entry.2); simpl; [|by rewrite Hc].
  destruct (minus_bias _ _ _); simpl; [|by rewrite Hc].
  rewrite Hc. simpl. destruct (c !! entry.1); simpl; [|by rewrite Hc].
  destruct (has_shape _ _ _); simpl; [done|].
  destruct (h5py_broadcast _ _ _); simpl; [done|by rewrite Hc].
Qed.

Lemma data_cube_existing s :
  is_Some (cube_dset s) → data_cube getdata h5py_broadcast numpy_out_of_range s = (s, Ok tt).
Proof.
  intros [c Hc]. unfold data_cube, bind, gets, ret, id. simpl. by rewrite Hc.
Qed.

(** X23. The cube is built at most once.  After a first access of
    [data_cube], whether it returned or raised, the dataset exists, and every
    later access returns it as it is: no file is read again, whatever the
    files hold by then. *)
Theorem data_cube_built_once (s : state) :
  let s1 := fst (data_cube getdata h5py_broadcast numpy_out_of_range s) in
  is_Some (cube_dset s1) ∧
  ∀ getdata' h5py_broadcast' numpy_out_of_range',
    data_cube getdata' h5py_broadcast' numpy_out_of_range' s1 = (s1, Ok tt).
Proof.
  intros s1.
  assert (is_Some (cube_dset s1)) as Hsome.
  { subst s1. destruct (cube_dset s) as [c|] eqn:Hc.
    - rewrite data_cube_existing by (by rewrite Hc). simpl. by rewrite Hc.
    - unfold data_cube, bind, gets, modify, id. simpl. rewrite Hc.
      apply (for_each_inv (λ s, is_Some (cube_dset s))).
      + intros. by apply load_frame_keeps_dataset.
      + done. }
  split; [done|]. intros getdata' bc' oor'.
  destruct Hsome as [c Hc]. unfold data_cube, bind, gets, ret, id. simpl. by rewrite Hc.
Qed.

(** X24. When there is no dataset yet, the camera bias is an int, and every
    file holds a frame of the image's shape in an integer type of at most
    24 bits of which the bias is a value, the first access returns with the
    cube holding, frame by frame and in the order of [files], each file's
    pixels minus the bias computed in the file's integer type: a pixel below
    the bias of an unsigned frame wraps around to a large value. *)
Theorem data_cube_loads_files (s : state) (bias : Z)
    (arrs : list (bool * positive * list (list Z))) :
  cube_dset s = None →
  camera_bias s = PyInt bias →
  loads getdata (_img_h s) (_img_w s) bias (files s) arrs →
  data_cube getdata h5py_broadcast numpy_out_of_range s
    = (set_cube_dset (λ _, Some (map (biased_frame bias) arrs)) s, Ok tt).
Proof.
  intros Hc Hbias Hloads. unfold data_cube, bind, gets, modify, id. simpl. rewrite Hc.
  erewrite (load_frames _ _ _ _ _ Hloads 0); try done; cycle 1.
  { simpl. by rewrite length_replicate. }
  f_equal. unfold set_cube_dset. simpl. do 2 f_equal.
  rewrite drop_ge by (rewrite length_replicate; lia). by rewrite app_nil_r.
Qed.

(** X25. When a file cannot be read, the access raises what [fits.getdata]
    raised, but the dataset has been created by then: it holds the frames of
    the files before the bad one (integer frames as in X24) and zeros from
    the bad file's frame on.  By X23 that is the cube every later access
    returns. *)
Theorem data_cube_failure_leaves_zero_frames (s : state) (bias : Z)
    (pre post : list string) (f : string)
    (arrs : list (bool * positive * list (list Z))) (e : exn) :
  cube_dset s = None →
  camera_bias s = PyInt bias →
  files s = pre ++ f :: post →
  loads getdata (_img_h s) (_img_w s) bias pre arrs →
  getdata f = Raise e →
  data_cube getdata h5py_broadcast numpy_out_of_range s
    = (set_cube_dset
         (λ _, Some (map (biased_frame bias) arrs ++
                     replicate (S (length post)) (zero_frame (_img_h s) (_img_w s)))) s,
       Raise e).
Proof.
  intros Hc Hbias Hfiles Hloads Hget. unfold data_cube, bind, gets, modify, id. simpl.
  rewrite Hc, Hfiles. rewrite length_app. simpl.
  rewrite seq_app. change (zip ?a ?b) with (zip_with pair a b).
  rewrite zip_with_app by (by rewrite length_seq).
  rewrite for_each_app.
  change (zip_with pair ?a ?b) with (zip a b).
  erewrite (load_frames _ _ _ _ _ Hloads 0); try done; cycle 1.
  { simpl. rewrite length_replicate. lia. }
  simpl. unfold bind at 1.
  unfold load_frame at 1. unfold bind at 1. unfold gets, id.
  unfold bind at 1, lift. simpl. rewrite Hget. simpl.
  f_equal. unfold set_cube_dset. simpl. rewrite Hfiles. do 3 f_equal.
  by rewrite drop_replicate_add.
Qed.

End DataCubeFacts.

Lemma data_cube_loads_files_witness :
  DataCube.data_cube DataCube.example_getdata DataCube.no_broadcast DataCube.no_promotion
    (DataCube.example_state ["a.fits"; "b.fits"]%string)
  = (DataCube.set_cube_dset
       (λ _, Some [[[Qc_of_Z 65512; Qc_of_Z 20]]; [[Qc_of_Z 65512; Qc_of_Z 20]]])
       (DataCube.example_state ["a.fits"; "b.fits"]%string),
     Ok tt).
Proof.
  apply (data_cube_loads_files DataCube.example_getdata DataCube.no_broadcast
           DataCube.no_promotion
           (DataCube.example_state ["a.fits"; "b.fits"]%string) 1024
           [(false, 16%positive, [[1000; 1044]]); (false, 16%positive, [[1000; 1044]])]).
  - reflexivity.
  - reflexivity.
  - repeat (constructor; [split_and!; first [reflexivity | lia]|]). constructor.
Defined.

Lemma data_cube_failure_leaves_zero_frames_witness :
  DataCube.data_cube DataCube.example_getdata DataCube.no_broadcast DataCube.no_promotion
    (DataCube.example_state ["a.fits"; "bad.fits"; "c.fits"]%string)
  = (DataCube.set_cube_dset
       (λ _, Some ([[[Qc_of_Z 65512; Qc_of_Z 20]]] ++
                   replicate 2 (DataCube.zero_frame 1 2)))
       (DataCube.example_state ["a.fits"; "bad.fits"; "c.fits"]%string),
     Raise ValueError).
Proof.
  apply (data_cube_failure_leaves_zero_frames DataCube.example_getdata DataCube.no_broadcast
           DataCube.no_promotion
           (DataCube.example_state ["a.fits"; "bad.fits"; "c.fits"]%string) 1024
           ["a.fits"%string] ["c.fits"%string] "bad.fits"
           [(false, 16%positive, [[1000; 1044]])] ValueError).
  - reflexivity.
  - reflexivity.
  - reflexivity.
  - repeat (constructor; [split_and!; first [reflexivity | lia]|]). constructor.
  - reflexivity.
Defined.

(** ** The frame-level [subtract_background] *)

Section FrameBackgroundFacts.
Import DataCube Pixels.
Context (getdata : string → result array)
        (h5py_broadcast : nat → nat → image → result image)
        (numpy_out_of_range : array → Z → result array)
        (make_masks : image → Background.mask * Background.mask * Background.mask)
        (Background2D : image → Background.mask → result image)
        (numpy_isub : image → image → result image).

Local Abbreviation colour :=
  (subtract_colour getdata h5py_broadcast numpy_out_of_range Background2D numpy_isub).
Local Abbreviation frame :=
  (subtract_frame getdata h5py_broadcast numpy_out_of_range make_masks Background2D numpy_isub).

Lemma read_frame_existing k s c :
  cube_dset s = Some c →
  read_frame getdata h5py_broadcast numpy_out_of_range k s = (s, of_option IndexError (c !! k)).
Proof.
  intros Hc. unfold read_frame, bind.
  rewrite data_cube_existing by (by rewrite Hc).
  unfold gets, lift, id. simpl. by rewrite Hc.
Qed.

Lemma write_frame_cases i arr s c :
  cube_dset s = Some c →
  (∃ e, write_frame h5py_broadcast i arr s = (s, Raise e)) ∨
  (∃ x, write_frame h5py_broadcast i arr s
        = (set_cube_dset (λ _, Some (<[i := x]> c)) s, Ok tt)).
Proof.
  intros Hc. unfold write_frame, bind, gets, lift, modify, of_option, id. simpl.
  rewrite Hc. simpl. destruct (c !! i); simpl; [|left; by eexists].
  destruct (has_shape _ _ _); simpl; [right; by eexists|].
  destruct (h5py_broadcast _ _ _); simpl; [right|left]; by eexists.
Qed.

Lemma subtract_colour_unfold i data m s c :
  cube_dset s = Some c →
  colour i data m s =
    match Background2D data (negate m) with
    | Raise e => (s, Raise e)
    | Ok bkg =>
        match Background.fit_mask bkg (negate m) with
        | Raise e => (s, Raise e)
        | Ok fm =>
            match c !! i with
            | None => (s, Raise IndexError)
            | Some tmp =>
                match isub numpy_isub tmp (filled bkg fm) with
                | Raise e => (s, Raise e)
                | Ok tmp' => write_frame h5py_broadcast i tmp' s
                end
            end
        end
    end.
Proof.
  intros Hc. unfold subtract_colour, bind, lift.
  destruct (Background2D data (negate m)) as [bkg|e]; [|done].
  destruct (Background.fit_mask bkg (negate m)) as [fm|e]; [|done].
  rewrite (read_frame_existing i s c Hc).
  destruct (c !! i) as [tmp|]; simpl; [|done].
  by destruct (isub numpy_isub tmp (filled bkg fm)).
Qed.

Lemma subtract_colour_cases i data m s c :
  cube_dset s = Some c →
  (∃ e, colour i data m s = (s, Raise e)) ∨
  (∃ x, colour i data m s = (set_cube_dset (λ _, Some (<[i := x]> c)) s, Ok tt)).
Proof.
  intros Hc. rewrite (subtract_colour_unfold i data m s c Hc).
  destruct (Background2D data (negate m)) as [bkg|e]; [|left; by eexists].
  destruct (Background.fit_mask bkg (negate m)) as [fm|e]; [|left; by eexists].
  destruct (c !! i) as [tmp|]; simpl; [|left; by eexists].
  destruct (isub numpy_isub tmp (filled bkg fm)) as [tmp'|e]; [|left; by eexists].
  by apply write_frame_cases.
Qed.

Lemma frames_kept_refl keep s : is_Some (cube_dset s) → frames_kept keep s s.
Proof. intros [c Hc]. unfold frames_kept. split_and!; try done. by exists c, c. Qed.

Lemma frames_kept_trans keep s1 s2 s3 :
  frames_kept keep s1 s2 → frames_kept keep s2 s3 → frames_kept keep s1 s3.
Proof.
  intros (? & ? & ? & ? & c1 & c2 & Hc1 & Hc2 & Hl & Hk)
         (? & ? & ? & ? & c2' & c3 & Hc2' & Hc3 & Hl' & Hk').
  simplify_eq. unfold frames_kept. split_and!; try congruence.
  exists c1, c3. split_and!; try done; [congruence|].
  intros k Hkeep. by rewrite Hk', Hk.
Qed.

Lemma frames_kept_weaken (keep keep' : nat → Prop) s s' :
  (∀ k, keep' k → keep k) → frames_kept keep s s' → frames_kept keep' s s'.
Proof.
  intros Hw (? & ? & ? & ? & c & c' & ? & ? & ? & Hk).
  unfold frames_kept. split_and!; try done. exists c, c'. split_and!; auto.
Qed.

Lemma frames_kept_insert i x s c :
  cube_dset s = Some c →
  frames_kept (λ k, k ≠ i) s (set_cube_dset (λ _, Some (<[i := x]> c)) s).
Proof.
  intros Hc. unfold frames_kept. simpl. split_and!; try done.
  exists c, (<[i := x]> c). split_and!; try done.
  - by rewrite length_insert.
  - intros k Hk. by rewrite list_lookup_insert_ne.
Qed.

Lemma subtract_colour_kept i data m s :
  is_Some (cube_dset s) →
  frames_kept (λ k, k ≠ i) s (fst (colour i data m s)) ∧
  rgb_masks (fst (colour i data m s)) = rgb_masks s.
Proof.
  intros [c Hc].
  destruct (subtract_colour_cases i data m s c Hc) as [[e ->]|[x ->]]; simpl.
  - split; [|done]. apply frames_kept_refl. by rewrite Hc.
  - split; [|done]. by apply frames_kept_insert.
Qed.

Lemma the_rgb_masks_effect make_masks' data s :
  ∃ m, the_rgb_masks make_masks' data s
       = ((match rgb_masks s with Some _ => s | None => set_rgb_masks m s end), Ok m) ∧
       m = default (make_masks' data) (rgb_masks s).
Proof.
  unfold the_rgb_masks, bind, gets, modify, ret, id. simpl.
  destruct (rgb_masks s) as [m|]; by eexists.
Qed.

Lemma subtract_frame_kept i s :
  is_Some (cube_dset s) → frames_kept (λ k, k ≠ i) s (fst (frame i s)).
Proof.
  intros [c Hc]. unfold subtract_frame. unfold bind at 1.
  rewrite (read_frame_existing i s c Hc).
  destruct (c !! i) as [data|]; simpl; [|apply frames_kept_refl; by rewrite Hc].
  unfold bind at 1.
  destruct (the_rgb_masks_effect make_masks data s) as ([[rm gm] bm] & -> & _).
  set (s1 := match rgb_masks s with Some _ => s | None => set_rgb_masks (rm, gm, bm) s end).
  assert (frames_kept (λ k, k ≠ i) s s1) as H1.
  { unfold s1. destruct (rgb_masks s).
    - apply frames_kept_refl. by rewrite Hc.
    - unfold frames_kept. simpl. split_and!; try done. exists c, c. by split_and!. }
  assert (∀ s', frames_kept (λ k, k ≠ i) s s' → is_Some (cube_dset s')) as Hsome.
  { intros s' (_ & _ & _ & _ & ? & c' & _ & -> & _). by eexists. }
  unfold bind at 1.
  pose proof (subtract_colour_kept i data rm s1 (Hsome _ H1)) as [H2 _].
  pose proof (frames_kept_trans _ _ _ _ H1 H2) as H12.
  destruct (colour i data rm s1) as [s2 [[]|e]]; simpl in *; [|done].
  unfold bind at 1.
  pose proof (subtract_colour_kept i data gm s2 (Hsome _ H12)) as [H3 _].
  pose proof (frames_kept_trans _ _ _ _ H12 H3) as H13.
  destruct (colour i data gm s2) as [s3 [[]|e]]; simpl in *; [|done].
  pose proof (subtract_colour_kept i data bm s3 (Hsome _ H13)) as [H4 _].
  exact (frames_kept_trans _ _ _ _ H13 H4).
Qed.

Lemma for_each_inv_in {S A} (P : S → Prop) (body : A → M S unit) xs :
  (∀ x s, x ∈ xs → P s → P (fst (body x s))) → ∀ s, P s → P (fst (for_each xs body s)).
Proof.
  induction xs as [|x xs IH]; intros Hbody s Hs; simpl; [done|].
  unfold bind. pose proof (Hbody x s ltac:(left) Hs) as Hx.
  destruct (body x s) as [s' [[]|e]]; simpl in *; [|done].
  apply IH; [|done]. intros y s0 Hy. apply Hbody. by right.
Qed.

(** X26. With the cube in place, [subtract_background] changes frames of
    the cube and nothing else of the data: the cube keeps its number of
    frames, and every frame that is not among [frames] (all frames, when
    [frames] is left at [None]) is left as it was, whether the call returns
    or raises. *)
Theorem subtract_background_other_frames (frames : option (list nat)) (s : state) :
  is_Some (cube_dset s) →
  frames_kept (λ k, k ∉ default (seq 0 (length (files s))) frames) s
    (fst (subtract_background getdata h5py_broadcast numpy_out_of_range make_masks Background2D numpy_isub
            frames s)).
Proof.
  intros Hsome.
  assert (∀ l, frames_kept (λ k, k ∉ l) s (fst (for_each l frame s))) as Hl.
  { intros l. apply (for_each_inv_in (frames_kept (λ k, k ∉ l) s)).
    - intros x s' Hx Hkept. eapply frames_kept_trans; [done|].
      eapply frames_kept_weaken; [|apply subtract_frame_kept].
      + intros k Hk ->. done.
      + destruct Hkept as (_ & _ & _ & _ & ? & c' & _ & -> & _). by eexists.
    - by apply frames_kept_refl. }
  unfold subtract_background, bind, gets, id. simpl. destruct frames; apply Hl.
Qed.

Lemma length_negate (m : Background.mask) : map length (negate m) = map length m.
Proof. unfold negate. rewrite map_map. by setoid_rewrite length_map. Qed.

Lemma length_filled bkg (m : Background.mask) :
  map length bkg = map length m → map length (filled bkg m) = map length bkg.
Proof. intros H. unfold filled. by rewrite length_zip_with_same. Qed.

Lemma pixel_negate (m : Background.mask) i j :
  pixel (negate m) i j = negb <$> pixel m i j.
Proof.
  unfold pixel, negate. change (map ?g ?l) with (g <$> l).
  rewrite list_lookup_fmap. destruct (m !! i) as [row|]; simpl; [|done].
  change (map ?g ?l) with (g <$> l). by rewrite list_lookup_fmap.
Qed.

Lemma same_shape_lengths {A B} (a : list (list A)) (b : list (list B)) :
  Background.same_shape a b = true ↔ map length a = map length b.
Proof. unfold Background.same_shape. by rewrite bool_decide_eq_true. Qed.

(** One colour, when every shape fits: the frame in the cube loses the
    background where the mask selects the pixel. *)
Lemma subtract_colour_fits k data m bkg tmp s c :
  cube_dset s = Some c → c !! k = Some tmp →
  has_shape (_img_h s) (_img_w s) tmp = true →
  map length tmp = map length data → map length m = map length data →
  Background2D data (negate m) = Ok bkg → map length bkg = map length data →
  colour k data m s
    = (set_cube_dset
         (λ _, Some (<[k := zip_with (zip_with Qcminus) tmp (filled bkg (negate m))]> c)) s,
       Ok tt).
Proof.
  intros Hc Hk Hshape Htmp Hm Hbkg Hlb.
  rewrite (subtract_colour_unfold k data m s c Hc), Hbkg.
  assert (Background.fit_mask bkg (negate m) = Ok (negate m)) as ->.
  { unfold Background.fit_mask.
    by rewrite (proj2 (same_shape_lengths bkg (negate m))) by (by rewrite length_negate, Hlb). }
  rewrite Hk.
  assert (map length (filled bkg (negate m)) = map length data) as Hf.
  { rewrite length_filled; [done|]. by rewrite length_negate, Hlb. }
  unfold isub.
  rewrite (proj2 (same_shape_lengths tmp _)) by (by rewrite Hf).
  apply write_frame_stores; [done|by eapply lookup_lt_Some|].
  apply has_shape_lengths. apply has_shape_lengths in Hshape.
  rewrite length_zip_with_same; [done|]. by rewrite Hf.
Qed.

(** X27. One frame, when the masks and the three backgrounds have the
    frame's shape: the three backgrounds are estimated from the frame as it
    was read, before any of them is subtracted, and each pixel of the frame
    left in the cube is its old value minus the background, at that pixel,
    of each colour whose mask selects it.  The masks used are the remembered
    ones, or else made from this frame and remembered. *)
Theorem subtract_frame_pixels (k : nat) (s : state) (c : cube) (data : image)
    (r_mask g_mask b_mask : Background.mask) (br bg bb : image) :
  cube_dset s = Some c → c !! k = Some data →
  has_shape (_img_h s) (_img_w s) data = true →
  default (make_masks data) (rgb_masks s) = (r_mask, g_mask, b_mask) →
  Background.same_shape data r_mask = true →
  Background.same_shape data g_mask = true →
  Background.same_shape data b_mask = true →
  Background2D data (negate r_mask) = Ok br → Background.same_shape data br = true →
  Background2D data (negate g_mask) = Ok bg → Background.same_shape data bg = true →
  Background2D data (negate b_mask) = Ok bb → Background.same_shape data bb = true →
  ∃ out,
    snd (frame k s) = Ok tt ∧
    cube_dset (fst (frame k s)) = Some (<[k := out]> c) ∧
    rgb_masks (fst (frame k s)) = Some (r_mask, g_mask, b_mask) ∧
    map length out = map length data ∧
    ∀ i j x, pixel data i j = Some x →
      ∃ mr mg mb vr vg vb,
        pixel r_mask i j = Some mr ∧ pixel g_mask i j = Some mg ∧
        pixel b_mask i j = Some mb ∧
        pixel br i j = Some vr ∧ pixel bg i j = Some vg ∧ pixel bb i j = Some vb ∧
        pixel out i j = Some (minus_colour_backgrounds x mr mg mb vr vg vb).
Proof.
  intros Hc Hk Hshape Hmasks Hsr Hsg Hsb Hbr Hlr Hbg Hlg Hbb Hlb.
  pose proof Hsr as Hsr'. pose proof Hsg as Hsg'. pose proof Hsb as Hsb'.
  pose proof Hlr as Hlr'. pose proof Hlg as Hlg'. pose proof Hlb as Hlb'.
  apply same_shape_lengths in Hsr', Hsg', Hsb', Hlr', Hlg', Hlb'.
  assert (k < length c)%nat as Hlt by (by eapply lookup_lt_Some).
  set (f1 := filled br (negate r_mask)).
  set (f2 := filled bg (negate g_mask)).
  set (f3 := filled bb (negate b_mask)).
  assert (map length f1 = map length data ∧ map length f2 = map length data ∧
          map length f3 = map length data) as (Hf1 & Hf2 & Hf3).
  { unfold f1, f2, f3.
    split_and!; (rewrite length_filled; [congruence|rewrite length_negate; congruence]). }
  set (out1 := zip_with (zip_with Qcminus) data f1).
  set (out2 := zip_with (zip_with Qcminus) out1 f2).
  set (out3 := zip_with (zip_with Qcminus) out2 f3).
  assert (map length out1 = map length data) as Ho1.
  { unfold out1. by rewrite length_zip_with_same. }
  assert (map length out2 = map length data) as Ho2.
  { unfold out2. rewrite length_zip_with_same; [done|]. by rewrite Ho1, Hf2. }
  assert (map length out3 = map length data) as Ho3.
  { unfold out3. rewrite length_zip_with_same; [done|]. by rewrite Ho2, Hf3. }
  assert (∀ o : image, map length o = map length data →
               has_shape (_img_h s) (_img_w s) o = true) as Hhas.
  { intros o Ho. apply has_shape_lengths. apply has_shape_lengths in Hshape. congruence. }
  exists out3.
  set (s1 := match rgb_masks s with
             | Some _ => s
             | None => set_rgb_masks (r_mask, g_mask, b_mask) s
             end).
  assert (cube_dset s1 = Some c ∧ _img_h s1 = _img_h s ∧ _img_w s1 = _img_w s ∧
          rgb_masks s1 = Some (r_mask, g_mask, b_mask)) as (Hc1 & Hh1 & Hw1 & Hm1).
  { unfold s1. destruct (rgb_masks s) as [m|] eqn:E; simpl in *; by subst. }
  assert (frame k s = (set_cube_dset (λ _, Some (<[k := out3]> c)) s1, Ok tt)) as ->.
  { unfold subtract_frame. unfold bind at 1.
    rewrite (read_frame_existing k s c Hc), Hk. simpl.
    unfold bind at 1.
    destruct (the_rgb_masks_effect make_masks data s) as (m & -> & ->). rewrite Hmasks.
    fold s1. unfold bind at 1.
    rewrite (subtract_colour_fits k data r_mask br data s1 c); try done;
      [|by rewrite Hh1, Hw1].
    unfold bind at 1.
    rewrite (subtract_colour_fits k data g_mask bg out1 _ (<[k := out1]> c)); try done;
      [|by apply list_lookup_insert_eq|simpl; rewrite Hh1, Hw1; by apply Hhas].
    rewrite (subtract_colour_fits k data b_mask bb out2 _ (<[k := out2]> (<[k := out1]> c)));
      try done;
      [|apply list_lookup_insert_eq; by rewrite length_insert
       |simpl; rewrite Hh1, Hw1; by apply Hhas].
    f_equal. unfold set_cube_dset.
    cbn [files camera_bias _img_h _img_w cube_dset rgb_masks].
    by rewrite !list_insert_insert_eq. }
  cbn [fst snd cube_dset set_cube_dset rgb_masks].
  split; [done|]. split; [done|]. split; [done|]. split; [done|].
  intros i j x Hx.
  destruct (pixel_same_shape data r_mask i j x Hsr Hx) as [mr Hmr].
  destruct (pixel_same_shape data g_mask i j x Hsg Hx) as [mg Hmg].
  destruct (pixel_same_shape data b_mask i j x Hsb Hx) as [mb Hmb].
  destruct (pixel_same_shape data br i j x Hlr Hx) as [vr Hvr].
  destruct (pixel_same_shape data bg i j x Hlg Hx) as [vg Hvg].
  destruct (pixel_same_shape data bb i j x Hlb Hx) as [vb Hvb].
  exists mr, mg, mb, vr, vg, vb. split_and!; try done.
  unfold out3, out2, out1, f1, f2, f3, filled.
  rewrite !pixel_zip_with, !pixel_negate, Hx, Hmr, Hmg, Hmb, Hvr, Hvg, Hvb. simpl.
  unfold minus_colour_backgrounds. by destruct mr, mg, mb.
Qed.

Lemma load_frame_rgb_masks entry s :
  rgb_masks (fst (load_frame getdata h5py_broadcast numpy_out_of_range entry s)) = rgb_masks s.
Proof.
  unfold load_frame, write_frame, bind, gets, lift, modify, of_option, id. simpl.
  destruct (getdata entry.2); simpl; [|done].
  destruct (minus_bias _ _ _); simpl; [|done].
  destruct (cube_dset s) as [c|]; simpl; [|done].
  destruct (c !! entry.1); simpl; [|done].
  destruct (has_shape _ _ _); simpl; [done|].
  by destruct (h5py_broadcast _ _ _).
Qed.

Lemma read_frame_rgb_masks k s :
  rgb_masks (fst (read_frame getdata h5py_broadcast numpy_out_of_range k s)) = rgb_masks s.
Proof.
  assert (rgb_masks (fst (data_cube getdata h5py_broadcast numpy_out_of_range s)) = rgb_masks s) as Hd.
  { unfold data_cube, bind, gets, modify, ret, id. simpl.
    destruct (cube_dset s); [done|].
    apply (for_each_inv (λ s', rgb_masks s' = rgb_masks s)); [|done].
    intros x s' <-. apply load_frame_rgb_masks. }
  unfold read_frame, bind.
  destruct (data_cube getdata h5py_broadcast numpy_out_of_range s) as [s1 [[]|e]]; simpl in *; [|done].
  unfold gets, lift, id. simpl. done.
Qed.

Lemma subtract_colour_rgb_masks i data m s :
  rgb_masks (fst (colour i data m s)) = rgb_masks s.
Proof.
  unfold subtract_colour. unfold bind at 1. unfold lift at 1.
  destruct (Background2D data (negate m)) as [bkg|e]; [|done].
  unfold bind at 1. unfold lift at 1.
  destruct (Background.fit_mask bkg (negate m)) as [fm|e]; [|done].
  unfold bind at 1. pose proof (read_frame_rgb_masks i s) as Hr.
  destruct (read_frame getdata h5py_broadcast numpy_out_of_range i s) as [s1 [tmp|e]]; simpl in *; [|done].
  unfold bind at 1. unfold lift at 1.
  destruct (isub numpy_isub tmp (filled bkg fm)) as [tmp'|e]; [|done].
  rewrite <- Hr.
  unfold write_frame, bind, gets, lift, modify, of_option, id. simpl.
  destruct (cube_dset s1) as [c|]; simpl; [|done].
  destruct (c !! i); simpl; [|done].
  destruct (has_shape _ _ _); simpl; [done|].
  by destruct (h5py_broadcast _ _ _).
Qed.

Lemma subtract_frame_unfold make_masks' i s :
  subtract_frame getdata h5py_broadcast numpy_out_of_range make_masks' Background2D numpy_isub i s =
    match read_frame getdata h5py_broadcast numpy_out_of_range i s with
    | (s1, Raise e) => (s1, Raise e)
    | (s1, Ok data) =>
        let m := default (make_masks' data) (rgb_masks s1) in
        let s1' := match rgb_masks s1 with Some _ => s1 | None => set_rgb_masks m s1 end in
        match colour i data m.1.1 s1' with
        | (s2, Raise e) => (s2, Raise e)
        | (s2, Ok _) =>
            match colour i data m.1.2 s2 with
            | (s3, Raise e) => (s3, Raise e)
            | (s3, Ok _) => colour i data m.2 s3
            end
        end
    end.
Proof.
  unfold subtract_frame. unfold bind at 1.
  destruct (read_frame getdata h5py_broadcast numpy_out_of_range i s) as [s1 [data|e]]; [|done].
  unfold bind at 1.
  destruct (the_rgb_masks_effect make_masks' data s1) as (m & -> & ->).
  cbv zeta. destruct (default (make_masks' data) (rgb_masks s1)) as [[rm gm] bm].
  unfold bind. simpl.
  destruct (colour i data rm _) as [s2 [[]|e]]; [|done].
  by destruct (colour i data gm s2) as [s3 [[]|e]].
Qed.

Lemma subtract_frame_remembered make_masks' i s m :
  rgb_masks s = Some m →
  subtract_frame getdata h5py_broadcast numpy_out_of_range make_masks' Background2D numpy_isub i s = frame i s ∧
  rgb_masks (fst (frame i s)) = Some m.
Proof.
  intros Hm. rewrite !subtract_frame_unfold.
  pose proof (read_frame_rgb_masks i s) as Hr.
  destruct (read_frame getdata h5py_broadcast numpy_out_of_range i s) as [s1 [data|e]]; simpl in *;
    [|by rewrite Hr].
  rewrite Hm in Hr. rewrite Hr. simpl. split; [done|].
  pose proof (subtract_colour_rgb_masks i data m.1.1 s1) as H1.
  destruct (colour i data m.1.1 s1) as [s2 [[]|e]]; simpl in *; [|congruence].
  pose proof (subtract_colour_rgb_masks i data m.1.2 s2) as H2.
  destruct (colour i data m.1.2 s2) as [s3 [[]|e]]; simpl in *; [|congruence].
  pose proof (subtract_colour_rgb_masks i data m.2 s3) as H3. congruence.
Qed.

(** X28. Once the colour masks are remembered they are never made again:
    [subtract_background] uses the remembered masks for every frame it
    works on, does not consult [utils.make_masks], and leaves the remembered
    masks as they are. *)
Theorem rgb_masks_made_once (frames : option (list nat)) (s : state)
    (m : Background.mask * Background.mask * Background.mask) :
  rgb_masks s = Some m →
  (∀ make_masks',
     subtract_background getdata h5py_broadcast numpy_out_of_range make_masks' Background2D numpy_isub frames s
     = subtract_background getdata h5py_broadcast numpy_out_of_range make_masks Background2D numpy_isub
         frames s) ∧
  rgb_masks (fst (subtract_background getdata h5py_broadcast numpy_out_of_range make_masks Background2D
                    numpy_isub frames s)) = Some m.
Proof.
  intros Hm. unfold subtract_background, bind, gets, id. simpl.
  generalize (match frames with Some l => l | None => seq 0 (length (files s)) end).
  intros l. revert s Hm. induction l as [|i l IH]; intros s Hm; simpl; [done|].
  unfold bind. split.
  - intros mm'.
    destruct (subtract_frame_remembered mm' i s m Hm) as [-> Hm'].
    destruct (frame i s) as [s1 [[]|e]]; simpl in *; [|done].
    by apply IH.
  - destruct (subtract_frame_remembered make_masks i s m Hm) as [_ Hm'].
    destruct (frame i s) as [s1 [[]|e]]; simpl in *; [|done].
    by apply IH.
Qed.

End FrameBackgroundFacts.

Lemma subtract_background_other_frames_witness :
  DataCube.frames_kept (λ k, k ∉ default (seq 0 2) (Some [0%nat]))
    (DataCube.loaded_state None)
    (fst (DataCube.subtract_background DataCube.example_getdata DataCube.no_broadcast DataCube.no_promotion
            Background.all_red DataCube.flat_background DataCube.no_isub (Some [0%nat])
            (DataCube.loaded_state None))).
Proof.
  apply (subtract_background_other_frames DataCube.example_getdata DataCube.no_broadcast DataCube.no_promotion
           Background.all_red DataCube.flat_background DataCube.no_isub (Some [0%nat])
           (DataCube.loaded_state None)).
  by eexists.
Defined.

Lemma subtract_frame_pixels_witness :
  let s := DataCube.loaded_state None in
  let run := DataCube.subtract_frame DataCube.example_getdata DataCube.no_broadcast DataCube.no_promotion
               Background.all_red DataCube.flat_background DataCube.no_isub 0 s in
  ∃ out,
    snd run = Ok tt ∧
    DataCube.cube_dset (fst run)
      = Some (<[0%nat := out]> [[[Qc_of_Z 10; Qc_of_Z 20]]; [[Qc_of_Z 30; Qc_of_Z 40]]]) ∧
    Pixels.pixel out 0 1
      = Some (DataCube.minus_colour_backgrounds (Qc_of_Z 20) true false false
                (Qc_of_Z 1) (Qc_of_Z 1) (Qc_of_Z 1)).
Proof.
  intros s run.
  destruct (subtract_frame_pixels DataCube.example_getdata DataCube.no_broadcast DataCube.no_promotion
              Background.all_red DataCube.flat_background DataCube.no_isub 0 s
              [[[Qc_of_Z 10; Qc_of_Z 20]]; [[Qc_of_Z 30; Qc_of_Z 40]]]
              [[Qc_of_Z 10; Qc_of_Z 20]]
              [[true; true]] [[false; false]] [[false; false]]
              [[Qc_of_Z 1; Qc_of_Z 1]] [[Qc_of_Z 1; Qc_of_Z 1]] [[Qc_of_Z 1; Qc_of_Z 1]]
              eq_refl eq_refl eq_refl eq_refl eq_refl eq_refl eq_refl
              eq_refl eq_refl eq_refl eq_refl eq_refl eq_refl)
    as (out & Hret & Hcube & _ & _ & Hpix).
  exists out. split; [exact Hret|]. split; [exact Hcube|].
  destruct (Hpix 0%nat 1%nat (Qc_of_Z 20) eq_refl)
    as (mr & mg & mb & vr & vg & vb & Hmr & Hmg & Hmb & Hvr & Hvg & Hvb & Hp).
  injection Hmr as <-. injection Hmg as <-. injection Hmb as <-.
  injection Hvr as <-. injection Hvg as <-. injection Hvb as <-. exact Hp.
Defined.

Lemma rgb_masks_made_once_witness :
  let m := ([[true; false]], [[false; true]], [[false; false]]) in
  let s := DataCube.loaded_state (Some m) in
  (∀ make_masks',
     DataCube.subtract_background DataCube.example_getdata DataCube.no_broadcast DataCube.no_promotion
       make_masks' DataCube.flat_background DataCube.no_isub None s
     = DataCube.subtract_background DataCube.example_getdata DataCube.no_broadcast DataCube.no_promotion
         Background.all_red DataCube.flat_background DataCube.no_isub None s) ∧
  DataCube.rgb_masks
    (fst (DataCube.subtract_background DataCube.example_getdata DataCube.no_broadcast DataCube.no_promotion
            Background.all_red DataCube.flat_background DataCube.no_isub None s))
    = Some m.
Proof.
  intros m s.
  exact (rgb_masks_made_once DataCube.example_getdata DataCube.no_broadcast DataCube.no_promotion
           Background.all_red DataCube.flat_background DataCube.no_isub None s m eq_refl).
Defined.

(** ** The stamp size [create_stamps] records *)

Section StampSize.
Import Stamps.
Context (pixel_color : Qc → Qc → string) (Cutout2D : Qc * Qc → Z * Z → result Cutout).

Lemma create_stamps_loop_app l1 l2 : ∀ ss o,
  create_stamps_loop pixel_color Cutout2D ss (l1 ++ l2) o =
    match create_stamps_loop pixel_color Cutout2D ss l1 o with
    | (o1, Ok ss1) => create_stamps_loop pixel_color Cutout2D ss1 l2 o1
    | (o1, Raise e) => (o1, Raise e)
    end.
Proof.
  induction l1 as [|i l1 IH]; intros ss o; simpl; [done|].
  unfold bind. destruct (create_stamp _ _ _ _ _) as [o1 [ss1|e]]; [apply IH|done].
Qed.

(** Sources that have their dataset, or whose [try] block raises, leave
    the variable [ss] as it was. *)
Lemma create_stamps_loop_idle l : NoDup l → ∀ ss o,
  (∀ i, i ∈ l → is_Some (subtracted (_hdf5_subtracted o) !! i) ∨
                ∃ e, snd (materialize pixel_color Cutout2D i o) = Raise e) →
  snd (create_stamps_loop pixel_color Cutout2D ss l o) = Ok ss.
Proof.
  induction 1 as [|i l Hi Hnd IH]; intros ss o Hall; simpl; [done|].
  unfold bind.
  assert (snd (create_stamp pixel_color Cutout2D ss i o) = Ok ss) as Hss.
  { rewrite create_stamp_unfold. case_decide as Hdom; [done|].
    destruct (Hall i ltac:(left)) as [Hsome|[e He]].
    - exfalso. by apply Hdom, elem_of_dom.
    - destruct (materialize _ _ _ _) as [o1 [ss'|e']]; simpl in *; [done|done]. }
  pose proof (λ i' Hne, create_stamp_frame pixel_color Cutout2D ss i o i' Hne) as Hframe.
  destruct (create_stamp pixel_color Cutout2D ss i o) as [o1 r]. simpl in *. subst r.
  apply IH. intros i' Hi'.
  assert (i' ≠ i) as Hne by (intros ->; done).
  pose proof (Hframe i' Hne) as Hfr.
  rewrite (materialize_result_frame pixel_color Cutout2D i' o o1 Hfr).
  destruct Hfr as (_ & _ & _ & _ & -> & _). apply Hall. by right.
Qed.

(** X29. The stamp size [create_stamps] records is that of the last source
    it materialized: when source [j] is materialized, with stamp [ss], and
    every later source either has its dataset already or fails, the
    attributes [stamp_rows] and [stamp_cols] are set to the shape of the
    cutout of [ss], whatever they held before. *)
Theorem create_stamps_records_last_stamp (num_sources j : nat) (o : Observation)
    (ss : Stamp) :
  (j < num_sources)%nat →
  subtracted (_hdf5_subtracted o) !! j = None →
  snd (materialize pixel_color Cutout2D j o) = Ok ss →
  (∀ i, (j < i < num_sources)%nat →
        is_Some (subtracted (_hdf5_subtracted o) !! i) ∨
        ∃ e, snd (materialize pixel_color Cutout2D i o) = Raise e) →
  let h' := _hdf5_subtracted (fst (create_stamps pixel_color Cutout2D num_sources o)) in
  attrs h' !! "stamp_rows"%string = Some (Z.of_nat (fst (shape (cutout ss)))) ∧
  attrs h' !! "stamp_cols"%string = Some (Z.of_nat (snd (shape (cutout ss)))).
Proof.
  intros Hj Hnone Hss Hlater h'.
  assert (snd (create_stamps_loop pixel_color Cutout2D None (seq 0 num_sources) o)
          = Ok (Some ss)) as Hloop.
  { replace num_sources with (j + S (num_sources - S j))%nat by lia.
    rewrite seq_app. simpl. rewrite create_stamps_loop_app.
    destruct (create_stamps_loop_returns pixel_color Cutout2D (seq 0 j) None o) as [ss0 H0].
    pose proof (λ i Hi, create_stamps_loop_frame pixel_color Cutout2D (seq 0 j) i None o Hi)
      as Hpre.
    destruct (create_stamps_loop pixel_color Cutout2D None (seq 0 j) o) as [o1 r].
    simpl in *. subst r. unfold bind.
    assert (∀ i, (j ≤ i)%nat → frame_for i o o1) as Hfr1.
    { intros i Hi. apply Hpre. rewrite elem_of_seq. lia. }
    pose proof (λ i Hne, create_stamp_frame pixel_color Cutout2D ss0 j o1 i Hne) as Hstep.
    assert (create_stamp pixel_color Cutout2D ss0 j o1
            = (fst (create_stamp pixel_color Cutout2D ss0 j o1), Ok (Some ss))) as Hj1.
    { rewrite create_stamp_unfold, decide_False; cycle 1.
      { apply not_elem_of_dom. destruct (Hfr1 j ltac:(lia)) as (_ & _ & _ & _ & -> & _).
        done. }
      pose proof (materialize_result_frame pixel_color Cutout2D j o o1 (Hfr1 j ltac:(lia)))
        as Hm.
      rewrite Hss in Hm.
      destruct (materialize pixel_color Cutout2D j o1) as [o2 [ss'|e]]; simpl in *;
        by simplify_eq. }
    rewrite Hj1.
    set (o2 := fst (create_stamp pixel_color Cutout2D ss0 j o1)) in *.
    apply create_stamps_loop_idle; [apply NoDup_seq|].
    intros i Hi%elem_of_seq.
    assert (frame_for i o o2) as Hfr.
    { eapply frame_for_trans; [apply Hfr1; lia|apply Hstep; lia]. }
    rewrite (materialize_result_frame pixel_color Cutout2D i o o2 Hfr).
    destruct Hfr as (_ & _ & _ & _ & -> & _). apply Hlater. lia. }
  subst h'. unfold create_stamps, bind.
  destruct (create_stamps_loop pixel_color Cutout2D None (seq 0 num_sources) o) as [o1 r].
  simpl in Hloop. subst r. unfold modify. simpl. split.
  - rewrite lookup_insert_ne by done. by rewrite lookup_insert_eq.
  - by rewrite lookup_insert_eq.
Qed.

End StampSize.

Lemma create_stamps_records_last_stamp_witness :
  let h' := Stamps._hdf5_subtracted
              (fst (Stamps.create_stamps Stamps.blue Stamps.cutout_right_of_50 2
                      StampExamples.inside_then_edge)) in
  attrs h' !! "stamp_rows"%string = Some 2 ∧ attrs h' !! "stamp_cols"%string = Some 2.
Proof.
  apply (create_stamps_records_last_stamp Stamps.blue Stamps.cutout_right_of_50 2 0
           StampExamples.inside_then_edge
           (Stamps.MkStamp (0, 2)%nat (0, 2)%nat
              (Stamps._adjust_stamp_midpoint Stamps.blue (Qc_of_Z 100, Qc_of_Z 100))
              (Stamps.MkCutout ((0, 1), (0, 1))%nat (2, 2)%nat))).
  - lia.
  - reflexivity.
  - reflexivity.
  - intros i Hi. assert (i = 1%nat) as -> by lia. right. by exists NoOverlapError.
Defined.
